(** * aria-bridge: workspace broker and bridge client

    A shallow embedding of two programs of the repository:

    - the fan-out host [bin/aria-bridge-host.js]: the WebSocket connection
      handler (authentication, hello, subscribe, event routing, screenshot
      rate limit, control correlation, close cleanup) and the HTTP endpoints
      for polling bridges;
    - the reference bridge client [BridgeWebSocket] (src/websocket.ts):
      connect/open handshake, heartbeat, reconnect backoff, drop-oldest
      outbound buffer, validation and redaction, control requests.

    Conventions.  A JavaScript object field that may be missing is an
    [option]; a string field is a [string] holding the bytes of its UTF-8
    encoding.  The fields of a frame are taken at the types the protocol
    gives them (strings, numbers, arrays of strings); a frame whose [levels]
    or [capabilities] holds some other JSON value is outside this
    development.  [Date.now()] is an input of each handler.  WebSocket
    objects and HTTP session objects are identified by a number allocated
    when they are created. *)

From Stdlib Require Import ZArith List Bool Lia.
From Stdlib Require Import Strings.String Strings.Ascii.
From Stdlib Require DecimalString.
From stdpp Require Import base gmap strings list fin_maps.

Import ListNotations.
Local Open Scope string_scope.
Local Open Scope Z_scope.

(** ** JavaScript values used by both programs *)

Module Js.

(** [toLowerCase()] on an ASCII character. *)
Definition lower_ascii (c : ascii) : ascii :=
  let n := nat_of_ascii c in
  if ((65 <=? n)%nat && (n <=? 90)%nat)%bool then ascii_of_nat (n + 32) else c.

(** [s.toLowerCase()].  Besides the letters A to Z two characters have a
    lower case that contains an ASCII letter: U+212A KELVIN SIGN (bytes
    E2 84 AA) becomes k, and U+0130 (bytes C4 B0) becomes i followed by
    U+0307 (bytes CC 87).  Every other character outside ASCII is left as it
    is: its lower case holds no ASCII character, so no comparison with, and
    no search for, an ASCII string can tell the difference. *)
Fixpoint lower_string (s : string) : string :=
  match s with
  | EmptyString => EmptyString
  | String c r =>
      match r with
      | String c1 r1 =>
          if (Ascii.eqb c "196" && Ascii.eqb c1 "176")%bool
          then String "i" (String "204" (String "135" (lower_string r1)))
          else
            match r1 with
            | String c2 r2 =>
                if (Ascii.eqb c "226" && Ascii.eqb c1 "132" && Ascii.eqb c2 "170")%bool
                then String "k" (lower_string r2)
                else String (lower_ascii c) (lower_string r)
            | EmptyString => String (lower_ascii c) (lower_string r)
            end
      | EmptyString => String (lower_ascii c) (lower_string r)
      end
  end.

(** Truthiness of an optional string field: missing and [""] are falsy. *)
Definition truthy (o : option string) : bool :=
  match o with
  | Some s => negb (String.eqb s "")
  | None => false
  end.

(** [o || d] for a string field. *)
Definition or_else (o : option string) (d : string) : string :=
  match o with
  | Some s => if String.eqb s "" then d else s
  | None => d
  end.

(** [o || d] for an array field: every array, also the empty one, is truthy. *)
Definition arr_or_else (o : option (list string)) (d : list string) : list string :=
  match o with
  | Some l => l
  | None => d
  end.

(** [o || d] for a number field: [0] is falsy. *)
Definition num_or_else (o : option Z) (d : Z) : Z :=
  match o with
  | Some n => if n =? 0 then d else n
  | None => d
  end.

(** [o === 'lit'] *)
Definition is_str (o : option string) (lit : string) : bool :=
  match o with
  | Some s => String.eqb s lit
  | None => false
  end.

(** [arr.indexOf(x)], [-1] when absent. *)
Fixpoint indexOf (x : string) (arr : list string) : Z :=
  match arr with
  | [] => -1
  | y :: r =>
      if String.eqb y x then 0
      else let i := indexOf x r in if i <? 0 then -1 else i + 1
  end.

(** [arr.includes(x)] *)
Definition includes (x : string) (arr : list string) : bool :=
  existsb (String.eqb x) arr.

(** Template-literal rendering of an integer. *)
Definition show_Z (n : Z) : string :=
  DecimalString.NilZero.string_of_int (Z.to_int n).

Definition show_nat (n : nat) : string :=
  DecimalString.NilZero.string_of_uint (Nat.to_uint n).

(** The UTF-16 code units of a string of ASCII characters. *)
Definition code_units (s : string) : list N :=
  List.map N_of_ascii (list_ascii_of_string s).

(** [s.includes(sub)] *)
Fixpoint str_includes (sub s : string) : bool :=
  (String.prefix sub s
   || match s with
      | EmptyString => false
      | String _ r => str_includes sub r
      end)%bool.

(** [Math.ceil(a / b)] for [b > 0]. *)
Definition ceil_div (a b : Z) : Z := - ((- a) / b).

End Js.

(** ** The host: bin/aria-bridge-host.js *)

Module Host.
Import Js.

(** Identity of a WebSocket object. *)
Definition Sid := nat.

(** A parsed inbound frame: the fields the host reads. *)
Record Message := mkMessage {
  msg_type : option string;
  msg_secret : option string;
  msg_role : option string;
  msg_clientId : option string;
  msg_level : option string;
  msg_id : option string;
  msg_capabilities : option (list string);
  msg_levels : option (list string);
  msg_llm_filter : option string;
  msg_mime : option string;
  msg_data : option string;
  msg_message : option string;
  msg_timestamp : option Z;
  msg_platform : option string;
  msg_route : option string;
  msg_url : option string;
  msg_protocol : option Z;
  msg_projectId : option string
}.

(** The object [{}]. *)
Definition empty_message : Message :=
  mkMessage None None None None None None None None None
            None None None None None None None None None.

(** [{ ...m, level: l }] *)
Definition with_level (m : Message) (l : string) : Message :=
  mkMessage (msg_type m) (msg_secret m) (msg_role m) (msg_clientId m) (Some l)
    (msg_id m) (msg_capabilities m) (msg_levels m) (msg_llm_filter m)
    (msg_mime m) (msg_data m) (msg_message m) (msg_timestamp m)
    (msg_platform m) (msg_route m) (msg_url m) (msg_protocol m) (msg_projectId m).

(** [{ ...m, type: t, id: i }] *)
Definition with_type_id (m : Message) (t i : string) : Message :=
  mkMessage (Some t) (msg_secret m) (msg_role m) (msg_clientId m) (msg_level m)
    (Some i) (msg_capabilities m) (msg_levels m) (msg_llm_filter m)
    (msg_mime m) (msg_data m) (msg_message m) (msg_timestamp m)
    (msg_platform m) (msg_route m) (msg_url m) (msg_protocol m) (msg_projectId m).

(** The four metadata fields the screenshot handler fills in. *)
Definition with_meta (m : Message) (ts : Z) (pf lv tx : string) : Message :=
  mkMessage (msg_type m) (msg_secret m) (msg_role m) (msg_clientId m) (Some lv)
    (msg_id m) (msg_capabilities m) (msg_levels m) (msg_llm_filter m)
    (msg_mime m) (msg_data m) (Some tx) (Some ts)
    (Some pf) (msg_route m) (msg_url m) (msg_protocol m) (msg_projectId m).

(** [Array.isArray(x) ? x : []] for an array of event objects. *)
Definition arr_or_else_msgs (o : option (list Message)) : list Message :=
  match o with
  | Some l => l
  | None => []
  end.

(** What [ws.on('message')] receives: text on which [JSON.parse] throws (or
    the text [null], on which reading [message.type] throws), with the
    message of the exception, or a parsed object. *)
Inductive Inbound :=
| Malformed (err : string)
| Parsed (m : Message).

Record BridgeMeta := mkBridgeMeta {
  bm_capabilities : list string;
  bm_route : option string;
  bm_url : option string;
  bm_protocol : Z;
  bm_platform : option string;
  bm_projectId : option string
}.

Record Subscription := mkSubscription {
  sub_levels : list string;
  sub_capabilities : list string;
  sub_llm_filter : string
}.

Inductive Origin := FromBridge | FromConsumer.

Record Pending := mkPending {
  replyTo : Sid;
  origin : Origin
}.

(** Frames the host writes on a socket. *)
Inductive Frame :=
| AuthSuccess (role : string) (clientId : string)
| Pong
| HelloAck (clientId : option string) (protocol : Z)
| SubscribeAck (clientId : option string) (levels capabilities : list string)
    (llm_filter : string)
| Forward (m : Message)
| ControlResultError (id : option string) (text : string)
| ControlForwarded (id : string) (delivered : nat)
| RateLimitNotice (reason : string) (retryAfterMs : option Z) (text : string).

Inductive Effect :=
| Send (to : Sid) (f : Frame)
| Close (ws : Sid) (code : Z) (reason : string)
| LogError (line : string).

(** The variables of one [wss.on('connection')] closure. *)
Record Conn := mkConn {
  isAuthenticated : bool;
  role : option string;
  clientId : option string;
  authTimeout : bool
}.

(** An HTTP bridge session, [{ kind: 'http', sessionId, queue, lastSeen,
    readyState: 1 }]: [kind] is membership in [sessions], [readyState] is
    kept with those of the sockets. *)
Record Session := mkSession {
  sessionId : string;
  queue : list Message;
  lastSeen : Z
}.

(** The variables of [startServer].  [bridges], [bridgeCapabilities] and
    [bridgeLastScreenshot] hold sockets and HTTP sessions alike. *)
Record Broker := mkBroker {
  secret : string;
  bridges : list Sid;
  consumers : list Sid;
  bridgeCapabilities : gmap Sid BridgeMeta;
  consumerSubscriptions : gmap Sid Subscription;
  pendingControl : gmap (option string) Pending;
  bridgeLastScreenshot : gmap Sid Z;
  windowStart : Z;
  windowCount : Z;
  readyState : gmap Sid Z;
  conns : gmap Sid Conn;
  next_ws : Sid;
  httpBridgeSessions : gmap string Sid;
  sessions : gmap Sid Session
}.

Definition SCREENSHOT_RATE_LIMIT_MS : Z := 2000.
Definition FILTER_LEVELS : list string := ["off"; "minimal"; "aggressive"].
Definition WINDOW_MS : Z := 10000.
Definition WINDOW_LIMIT : Z := 500.
Definition HEARTBEAT_STALE_MS : Z := 15000.
Definition LEVEL_ORDER : list string := ["errors"; "warn"; "info"; "trace"].

Definition startServer (the_secret : string) (now : Z) : Broker :=
  mkBroker the_secret [] [] ∅ ∅ ∅ ∅ now 0 ∅ ∅ 0%nat ∅ ∅.

(** Field updates. *)
Definition set_window (st : Broker) (ws wc : Z) : Broker :=
  mkBroker (secret st) (bridges st) (consumers st) (bridgeCapabilities st)
    (consumerSubscriptions st) (pendingControl st) (bridgeLastScreenshot st)
    ws wc (readyState st) (conns st) (next_ws st)
    (httpBridgeSessions st) (sessions st).

Definition set_pendingControl (st : Broker) (p : gmap (option string) Pending) : Broker :=
  mkBroker (secret st) (bridges st) (consumers st) (bridgeCapabilities st)
    (consumerSubscriptions st) p (bridgeLastScreenshot st)
    (windowStart st) (windowCount st) (readyState st) (conns st) (next_ws st)
    (httpBridgeSessions st) (sessions st).

Definition set_bridges (st : Broker) (b : list Sid) : Broker :=
  mkBroker (secret st) b (consumers st) (bridgeCapabilities st)
    (consumerSubscriptions st) (pendingControl st) (bridgeLastScreenshot st)
    (windowStart st) (windowCount st) (readyState st) (conns st) (next_ws st)
    (httpBridgeSessions st) (sessions st).

Definition set_consumers (st : Broker) (c : list Sid) : Broker :=
  mkBroker (secret st) (bridges st) c (bridgeCapabilities st)
    (consumerSubscriptions st) (pendingControl st) (bridgeLastScreenshot st)
    (windowStart st) (windowCount st) (readyState st) (conns st) (next_ws st)
    (httpBridgeSessions st) (sessions st).

Definition set_bridgeCapabilities (st : Broker) (m : gmap Sid BridgeMeta) : Broker :=
  mkBroker (secret st) (bridges st) (consumers st) m
    (consumerSubscriptions st) (pendingControl st) (bridgeLastScreenshot st)
    (windowStart st) (windowCount st) (readyState st) (conns st) (next_ws st)
    (httpBridgeSessions st) (sessions st).

Definition set_consumerSubscriptions (st : Broker) (m : gmap Sid Subscription) : Broker :=
  mkBroker (secret st) (bridges st) (consumers st) (bridgeCapabilities st)
    m (pendingControl st) (bridgeLastScreenshot st)
    (windowStart st) (windowCount st) (readyState st) (conns st) (next_ws st)
    (httpBridgeSessions st) (sessions st).

Definition set_bridgeLastScreenshot (st : Broker) (m : gmap Sid Z) : Broker :=
  mkBroker (secret st) (bridges st) (consumers st) (bridgeCapabilities st)
    (consumerSubscriptions st) (pendingControl st) m
    (windowStart st) (windowCount st) (readyState st) (conns st) (next_ws st)
    (httpBridgeSessions st) (sessions st).

Definition set_readyState (st : Broker) (m : gmap Sid Z) : Broker :=
  mkBroker (secret st) (bridges st) (consumers st) (bridgeCapabilities st)
    (consumerSubscriptions st) (pendingControl st) (bridgeLastScreenshot st)
    (windowStart st) (windowCount st) m (conns st) (next_ws st)
    (httpBridgeSessions st) (sessions st).

Definition set_conns (st : Broker) (m : gmap Sid Conn) : Broker :=
  mkBroker (secret st) (bridges st) (consumers st) (bridgeCapabilities st)
    (consumerSubscriptions st) (pendingControl st) (bridgeLastScreenshot st)
    (windowStart st) (windowCount st) (readyState st) m (next_ws st)
    (httpBridgeSessions st) (sessions st).

Definition set_http (st : Broker) (ids : gmap string Sid) (objs : gmap Sid Session)
    : Broker :=
  mkBroker (secret st) (bridges st) (consumers st) (bridgeCapabilities st)
    (consumerSubscriptions st) (pendingControl st) (bridgeLastScreenshot st)
    (windowStart st) (windowCount st) (readyState st) (conns st) (next_ws st)
    ids objs.

(** [set.add(x)] and [set.delete(x)] on an insertion-ordered [Set]. *)
Definition set_add (x : Sid) (s : list Sid) : list Sid :=
  if existsb (Nat.eqb x) s then s else s ++ [x].

Definition set_delete (x : Sid) (s : list Sid) : list Sid :=
  List.filter (fun y => negb (Nat.eqb x y)) s.

(** [ws.readyState === 1] *)
Definition is_open (st : Broker) (ws : Sid) : bool :=
  match readyState st !! ws with
  | Some r => r =? 1
  | None => false
  end.

(** [lower(val)] on an optional string: [''] for [undefined]. *)
Definition lower (val : option string) : string :=
  match val with
  | Some s => lower_string s
  | None => ""
  end.

Definition getSubscriptionLevelForLogLevel (logLevel : option string) : string :=
  let lvl := lower (Some (match logLevel with Some l => l | None => "info" end)) in
  if String.eqb lvl "error" then "errors"
  else if String.eqb lvl "warn" then "warn"
  else if String.eqb lvl "debug" then "trace"
  else "info".

Definition subscriptionIncludesLevel
    (subscribedLevels : option (list string)) (eventLogLevel : option string) : bool :=
  let eventLevel := getSubscriptionLevelForLogLevel eventLogLevel in
  let eventIndex := indexOf eventLevel LEVEL_ORDER in
  let levels := List.map lower_string (arr_or_else subscribedLevels ["errors"]) in
  existsb (fun sub => eventIndex <=? indexOf sub LEVEL_ORDER) levels.

Definition bridgeHasCapability (bridgeCaps : option (list string)) (capability : string) : bool :=
  let cap := lower_string capability in
  if String.eqb cap "" then false
  else includes cap (List.map lower_string (arr_or_else bridgeCaps [])).

Definition consumerWantsCapability (consumerCaps : option (list string)) (capability : string) : bool :=
  let requested :=
    List.filter (fun s => negb (String.eqb s ""))
      (List.map lower_string (arr_or_else consumerCaps [])) in
  match requested with
  | [] => true
  | _ => includes (lower_string capability) requested
  end.

(** [filterEventForConsumer]: the result and the updated overload window. *)
Definition filterEventForConsumer (st : Broker) (message : Message)
    (consumerMeta : Subscription) (now : Z) : bool * Broker :=
  let filter := lower_string (or_else (Some (sub_llm_filter consumerMeta)) "off") in
  let st1 := if WINDOW_MS <? now - windowStart st then set_window st now 0 else st in
  let st2 := set_window st1 (windowStart st1) (windowCount st1 + 1) in
  if ((WINDOW_LIMIT <? windowCount st2) && negb (String.eqb filter "off"))%bool
  then (is_str (msg_level message) "error", st2)
  else if String.eqb filter "off" then (true, st2)
  else
    let lvl := lower_string (or_else (msg_level message) "") in
    if String.eqb filter "minimal" then
      (negb (String.eqb lvl "debug" || String.eqb lvl "log")%bool, st2)
    else if String.eqb filter "aggressive" then
      (negb (String.eqb lvl "debug" || String.eqb lvl "log" || String.eqb lvl "info")%bool, st2)
    else (true, st2).

Definition is_gated_type (messageType : string) : bool :=
  (String.eqb messageType "pageview" || String.eqb messageType "screenshot"
   || String.eqb messageType "control" || String.eqb messageType "network"
   || String.eqb messageType "navigation")%bool.

(** [shouldRouteToConsumer]: the verdict and the state left by
    [filterEventForConsumer]. *)
Definition shouldRouteToConsumer (st : Broker) (consumer : Sid) (message : Message)
    (bridgeWs : Sid) (now : Z) : bool * Broker :=
  let subscription := consumerSubscriptions st !! consumer in
  let levels := match subscription with Some s => sub_levels s | None => ["errors"] end in
  let requestedCapabilities :=
    match subscription with Some s => sub_capabilities s | None => [] end in
  let '(consumerFilterOk, st') :=
    match subscription with
    | Some s => filterEventForConsumer st message s now
    | None => (true, st)
    end in
  if negb consumerFilterOk then (false, st')
  else
    let effectiveLevel := or_else (msg_level message) "info" in
    if negb (subscriptionIncludesLevel (Some levels) (Some effectiveLevel)) then (false, st')
    else
      let messageType := lower_string (or_else (msg_type message) "") in
      if is_gated_type messageType then
        if negb (consumerWantsCapability (Some requestedCapabilities) messageType)
        then (false, st')
        else
          let bridgeCaps := bridgeCapabilities st' !! bridgeWs in
          if negb (bridgeHasCapability (bm_capabilities <$> bridgeCaps) messageType)
          then (false, st')
          else (true, st')
      else (true, st').

(** The loop [consumers.forEach(c => { if (c.readyState === 1 &&
    shouldRouteToConsumer(c, message, bridge)) ... })]: the consumers selected,
    in iteration order, and the state after the loop. *)
Fixpoint route_loop (st : Broker) (cs : list Sid) (message : Message)
    (bridgeWs : Sid) (now : Z) : list Sid * Broker :=
  match cs with
  | [] => ([], st)
  | c :: rest =>
      if is_open st c then
        let '(ok, st1) := shouldRouteToConsumer st c message bridgeWs now in
        let '(sel, st2) := route_loop st1 rest message bridgeWs now in
        (if ok then c :: sel else sel, st2)
      else route_loop st rest message bridgeWs now
  end.

Definition route (st : Broker) (message : Message) (bridgeWs : Sid) (now : Z)
    : list Sid * Broker :=
  route_loop st (consumers st) message bridgeWs now.

(** [ws.close(code, reason)]: the socket leaves the OPEN state. *)
Definition ws_close (st : Broker) (ws : Sid) : Broker :=
  set_readyState st
    (<[ws := match readyState st !! ws with Some 3 => 3 | _ => 2 end]> (readyState st)).

(** [wss.on('connection')]: a fresh open socket with its closure variables
    and an armed authentication timer. *)
Definition on_connection (st : Broker) : Broker :=
  let ws := next_ws st in
  mkBroker (secret st) (bridges st) (consumers st) (bridgeCapabilities st)
    (consumerSubscriptions st) (pendingControl st) (bridgeLastScreenshot st)
    (windowStart st) (windowCount st)
    (<[ws := 1]> (readyState st))
    (<[ws := mkConn false None None true]> (conns st))
    (S ws) (httpBridgeSessions st) (sessions st).

(** The callback of [authTimeout]. *)
Definition on_auth_timeout (st : Broker) (ws : Sid) : Broker * list Effect :=
  match conns st !! ws with
  | Some c =>
      if authTimeout c then
        let st1 := set_conns st
          (<[ws := mkConn (isAuthenticated c) (role c) (clientId c) false]> (conns st)) in
        if negb (isAuthenticated c)
        then (ws_close st1 ws, [Close ws 1008 "Authentication timeout"])
        else (st1, [])
      else (st, [])
  | None => (st, [])
  end.

(** The authentication branch of [ws.on('message')] ([!isAuthenticated]). *)
Definition handle_auth (st : Broker) (ws : Sid) (message : Message) (now : Z)
    : Broker * list Effect :=
  if is_str (msg_type message) "auth" then
    if is_str (msg_secret message) (secret st) then
      let the_role := or_else (msg_role message) "bridge" in
      let the_id := or_else (msg_clientId message) (the_role ++ "-" ++ show_Z now) in
      let st1 := set_conns st
        (<[ws := mkConn true (Some the_role) (Some the_id) false]> (conns st)) in
      if String.eqb the_role "bridge" then
        (set_bridges st1 (set_add ws (bridges st1)),
         [Send ws (AuthSuccess the_role the_id)])
      else if String.eqb the_role "consumer" then
        (set_consumers st1 (set_add ws (consumers st1)),
         [Send ws (AuthSuccess the_role the_id)])
      else (ws_close st1 ws, [Close ws 1008 ("Invalid role: " ++ the_role)])
    else (ws_close st ws, [Close ws 1008 "Invalid secret"])
  else (ws_close st ws, [Close ws 1008 "Authentication required"]).

(** The [control_result] branch, the same code for a bridge and a consumer:
    look the id up, forward to an open [replyTo], delete the entry. *)
Definition handle_control_result (st : Broker) (message : Message)
    : Broker * list Effect :=
  match pendingControl st !! msg_id message with
  | Some pending =>
      if is_open st (replyTo pending) then
        (set_pendingControl st (delete (msg_id message) (pendingControl st)),
         [Send (replyTo pending) (Forward message)])
      else (st, [])
  | None => (st, [])
  end.

(** Bridge [hello]. *)
Definition handle_hello (st : Broker) (ws : Sid) (c : Conn) (message : Message)
    : Broker * list Effect :=
  let capabilities := arr_or_else (msg_capabilities message) [] in
  let protocol := num_or_else (msg_protocol message) 1 in
  (set_bridgeCapabilities st
     (<[ws := mkBridgeMeta capabilities (msg_route message) (msg_url message)
                protocol (msg_platform message) (msg_projectId message)]>
        (bridgeCapabilities st)),
   [Send ws (HelloAck (clientId c) protocol)]).

(** Bridge [control_request]: forwarded to the consumers that pass
    [shouldRouteToConsumer] on [{...message, level: 'info'}]. *)
Definition handle_bridge_control_request (st : Broker) (ws : Sid)
    (message : Message) (now : Z) : Broker * list Effect :=
  let '(targets, st1) := route st (with_level message "info") ws now in
  match targets with
  | [] =>
      (st1, [Send ws (ControlResultError (msg_id message)
                        "No consumers connected for control")])
  | _ =>
      (set_pendingControl st1
         (<[msg_id message := mkPending ws FromBridge]> (pendingControl st1)),
       List.map (fun consumer => Send consumer (Forward message)) targets)
  end.

(** The rate-limit test of the screenshot branch: the time still to wait
    when the previous screenshot of this bridge is too recent. *)
Definition screenshot_wait (st : Broker) (ws : Sid) (now : Z) : option Z :=
  match bridgeLastScreenshot st !! ws with
  | Some lastScreenshot =>
      if (negb (lastScreenshot =? 0)
          && (now - lastScreenshot <? SCREENSHOT_RATE_LIMIT_MS))%bool
      then Some (SCREENSHOT_RATE_LIMIT_MS - (now - lastScreenshot))
      else None
  | None => None
  end.

(** Bridge [screenshot]. *)
Definition handle_screenshot (st : Broker) (ws : Sid) (message : Message) (now : Z)
    : Broker * list Effect :=
  let bridgeCaps := bridgeCapabilities st !! ws in
  if negb (match bridgeCaps with
           | Some m => includes "screenshot" (bm_capabilities m)
           | None => false
           end)
  then (st, [Send ws (RateLimitNotice "missing_capability" None
                        "Screenshot capability not advertised in hello")])
  else
    match screenshot_wait st ws now with
    | Some waitMs =>
        (st, [Send ws (RateLimitNotice "rate_limit" (Some waitMs)
                ("Screenshot rate limit: wait " ++ show_Z (ceil_div waitMs 1000)
                   ++ "s before next screenshot"))])
    | None =>
        let '(interestedConsumers, st1) := route st message ws now in
        match interestedConsumers with
        | [] =>
            (st1, [Send ws (RateLimitNotice "no_consumers" None
                              "No consumers subscribed to screenshot capability")])
        | _ =>
            let st2 := set_bridgeLastScreenshot st1
                         (<[ws := now]> (bridgeLastScreenshot st1)) in
            if (negb (truthy (msg_mime message)) || negb (truthy (msg_data message)))%bool
            then
              (st2, [Send ws (RateLimitNotice "invalid_format" None
                                "Screenshot missing required fields: mime, data")])
            else
              let filled :=
                with_meta message
                  (num_or_else (msg_timestamp message) now)
                  (or_else (msg_platform message) "web")
                  (or_else (msg_level message) "info")
                  (or_else (msg_message message)
                     ("Screenshot: " ++
                        or_else (msg_route message) (or_else (msg_url message) "unknown"))) in
              (st2, List.map (fun consumer => Send consumer (Forward filled))
                      interestedConsumers)
        end
    end.

(** The last branch for a bridge: broadcast to the subscribed consumers. *)
Definition handle_broadcast (st : Broker) (ws : Sid) (message : Message) (now : Z)
    : Broker * list Effect :=
  let '(targets, st1) := route st message ws now in
  (st1, List.map (fun consumer => Send consumer (Forward message)) targets).

(** Consumer [subscribe]. *)
Definition handle_subscribe (st : Broker) (ws : Sid) (c : Conn) (message : Message)
    : Broker * list Effect :=
  let levels := arr_or_else (msg_levels message) ["errors"] in
  let capabilities := arr_or_else (msg_capabilities message) [] in
  let llm_filter_raw := lower_string (or_else (msg_llm_filter message) "off") in
  let llm_filter := if includes llm_filter_raw FILTER_LEVELS then llm_filter_raw else "off" in
  (set_consumerSubscriptions st
     (<[ws := mkSubscription levels capabilities llm_filter]> (consumerSubscriptions st)),
   [Send ws (SubscribeAck (clientId c) levels capabilities llm_filter)]).

(** The bridges a consumer's control request goes to: open, and advertising
    [control]. *)
Definition control_targets (st : Broker) : list Sid :=
  List.filter
    (fun bridgeWs =>
       (is_open st bridgeWs
        && bridgeHasCapability (bm_capabilities <$> (bridgeCapabilities st !! bridgeWs))
             "control")%bool)
    (bridges st).

(** The loop [targets.forEach((bridgeWs) => { if (bridgeWs.kind === 'http')
    bridgeWs.queue.push(payload); else bridgeWs.send(serialized) })]. *)
Fixpoint deliver_control (st : Broker) (targets : list Sid) (payload : Message)
    : Broker * list Effect :=
  match targets with
  | [] => (st, [])
  | bridgeWs :: rest =>
      match sessions st !! bridgeWs with
      | Some session =>
          deliver_control
            (set_http st (httpBridgeSessions st)
               (<[bridgeWs := mkSession (sessionId session)
                                (queue session ++ [payload]) (lastSeen session)]>
                  (sessions st)))
            rest payload
      | None =>
          let '(st1, out) := deliver_control st rest payload in
          (st1, Send bridgeWs (Forward payload) :: out)
      end
  end.

(** Consumer [control_request] (or [control]). *)
Definition handle_consumer_control_request (st : Broker) (ws : Sid) (c : Conn)
    (message : Message) (now : Z) : Broker * list Effect :=
  let reqId := or_else (msg_id message)
                 (match clientId c with Some i => i | None => "null" end
                  ++ "-" ++ show_Z now) in
  let payload := with_type_id message "control_request" reqId in
  let targets := control_targets st in
  match targets with
  | [] =>
      (st, [Send ws (ControlResultError (Some reqId)
                       "No bridge with control capability is connected")])
  | _ =>
      let st1 := set_pendingControl st
                   (<[Some reqId := mkPending ws FromConsumer]> (pendingControl st)) in
      let '(st2, sent) := deliver_control st1 targets payload in
      (st2, (sent ++ [Send ws (ControlForwarded reqId (length targets))])%list)
  end.

(** [ws.on('message')] for an authenticated bridge. *)
Definition handle_bridge (st : Broker) (ws : Sid) (c : Conn) (message : Message)
    (now : Z) : Broker * list Effect :=
  if is_str (msg_type message) "hello" then handle_hello st ws c message
  else if is_str (msg_type message) "control_result" then handle_control_result st message
  else if is_str (msg_type message) "control_request"
  then handle_bridge_control_request st ws message now
  else if is_str (msg_type message) "screenshot" then handle_screenshot st ws message now
  else handle_broadcast st ws message now.

(** [ws.on('message')] for an authenticated consumer. *)
Definition handle_consumer (st : Broker) (ws : Sid) (c : Conn) (message : Message)
    (now : Z) : Broker * list Effect :=
  if is_str (msg_type message) "subscribe" then handle_subscribe st ws c message
  else if (is_str (msg_type message) "control_request"
           || is_str (msg_type message) "control")%bool
  then handle_consumer_control_request st ws c message now
  else if is_str (msg_type message) "control_result" then handle_control_result st message
  else (st, []).

(** The [catch] of [ws.on('message')]. *)
Definition handle_exception (st : Broker) (ws : Sid) (err : string)
    : Broker * list Effect :=
  (ws_close st ws,
   [LogError ("Error processing message: " ++ err); Close ws 1011 "Internal error"]).

(** [ws.on('message', data => ...)] *)
Definition on_message (st : Broker) (ws : Sid) (data : Inbound) (now : Z)
    : Broker * list Effect :=
  match conns st !! ws with
  | None => (st, [])
  | Some c =>
      match data with
      | Malformed err => handle_exception st ws err
      | Parsed message =>
          if negb (isAuthenticated c) then handle_auth st ws message now
          else if is_str (msg_type message) "ping" then (st, [Send ws Pong])
          else if is_str (role c) "bridge" then handle_bridge st ws c message now
          else if is_str (role c) "consumer" then handle_consumer st ws c message now
          else (st, [])
      end
  end.

(** The loop of the close handler:
    [pendingControl.forEach((entry, id) => { if (entry.replyTo === ws)
    pendingControl.delete(id) })]. *)
Definition drop_pending_of (ws : Sid) (p : gmap (option string) Pending)
    : gmap (option string) Pending :=
  filter (fun kv => replyTo kv.2 ≠ ws) p.

(** [ws.on('close')]: the socket is CLOSED and its registrations go. *)
Definition on_close (st : Broker) (ws : Sid) : Broker :=
  match conns st !! ws with
  | None => st
  | Some c =>
      let st0 := set_readyState st (<[ws := 3]> (readyState st)) in
      let st1 := set_conns st0
        (<[ws := mkConn (isAuthenticated c) (role c) (clientId c) false]> (conns st0)) in
      let st2 :=
        if is_str (role c) "bridge" then
          set_bridgeLastScreenshot
            (set_bridgeCapabilities
               (set_bridges st1 (set_delete ws (bridges st1)))
               (delete ws (bridgeCapabilities st1)))
            (delete ws (bridgeLastScreenshot st1))
        else if is_str (role c) "consumer" then
          set_consumerSubscriptions
            (set_consumers st1 (set_delete ws (consumers st1)))
            (delete ws (consumerSubscriptions st1))
        else st1 in
      set_pendingControl st2 (drop_pending_of ws (pendingControl st2))
  end.

(** The peer or the transport starts closing: [readyState] is no longer OPEN,
    the [close] event has not fired yet. *)
Definition on_closing (st : Broker) (ws : Sid) : Broker :=
  match conns st !! ws with
  | None => st
  | Some _ => ws_close st ws
  end.

(** What can happen on the WebSocket side of the host, one event-loop task
    each.  [Task], further down, adds the HTTP requests and the prune
    timer. *)
Inductive Event :=
| Connection
| Incoming (ws : Sid) (data : Inbound) (now : Z)
| AuthTimeout (ws : Sid)
| Closing (ws : Sid)
| Closed (ws : Sid).

Definition step (st : Broker) (e : Event) : Broker * list Effect :=
  match e with
  | Connection => (on_connection st, [])
  | Incoming ws data now => on_message st ws data now
  | AuthTimeout ws => on_auth_timeout st ws
  | Closing ws => (on_closing st ws, [])
  | Closed ws => (on_close st ws, [])
  end.

(** A run of WebSocket tasks, in which no HTTP bridge takes part: the final
    state and everything the host did, in order. *)
Fixpoint run (st : Broker) (es : list Event) : Broker * list Effect :=
  match es with
  | [] => (st, [])
  | e :: rest =>
      let '(st1, out1) := step st e in
      let '(st2, out2) := run st1 rest in
      (st2, (out1 ++ out2)%list)
  end.

(** *** The HTTP endpoints for polling bridges *)

(** [deliverToConsumers(message, bridgeRef)] *)
Definition deliverToConsumers (st : Broker) (message : Message) (bridgeRef : Sid)
    (now : Z) : Broker * list Effect :=
  let '(targets, st1) := route st message bridgeRef now in
  (st1, List.map (fun consumer => Send consumer (Forward message)) targets).

(** [getHttpSession(id)]: the session object and its fields. *)
Definition getHttpSession (st : Broker) (id : option string) : option (Sid * Session) :=
  match id with
  | Some i =>
      match httpBridgeSessions st !! i with
      | Some s =>
          match sessions st !! s with
          | Some o => Some (s, o)
          | None => None
          end
      | None => None
      end
  | None => None
  end.

(** [session.lastSeen = Date.now()] *)
Definition touch (st : Broker) (s : Sid) (o : Session) (now : Z) : Broker :=
  set_http st (httpBridgeSessions st)
    (<[s := mkSession (sessionId o) (queue o) now]> (sessions st)).

(** [removeHttpSession(session)]; the object is not used again. *)
Definition removeHttpSession (st : Broker) (s : Sid) (o : Session) : Broker :=
  let st1 := set_http st (delete (sessionId o) (httpBridgeSessions st))
               (delete s (sessions st)) in
  set_bridgeLastScreenshot
    (set_bridgeCapabilities
       (set_bridges st1 (set_delete s (bridges st1)))
       (delete s (bridgeCapabilities st1)))
    (delete s (bridgeLastScreenshot st1)).

(** [pruneHttpSessions()], the callback of [httpPruneTimer]. *)
Definition pruneHttpSessions (st : Broker) (now : Z) : Broker :=
  let stale :=
    omap (fun kv => match sessions st !! kv.2 with
                    | Some o =>
                        if HEARTBEAT_STALE_MS <? now - lastSeen o
                        then Some (kv.2, o) else None
                    | None => None
                    end)
         (map_to_list (httpBridgeSessions st)) in
  fold_left (fun acc so => removeHttpSession acc so.1 so.2) stale st.

(** [{ ...ev }] with the defaults of [/bridge/events] filled in. *)
Definition with_defaults (ev : Message) (now : Z) : Message :=
  mkMessage (Some (or_else (msg_type ev) "log")) (msg_secret ev) (msg_role ev)
    (msg_clientId ev) (Some (or_else (msg_level ev) "info")) (msg_id ev)
    (msg_capabilities ev) (msg_levels ev) (msg_llm_filter ev) (msg_mime ev)
    (msg_data ev) (msg_message ev) (Some (num_or_else (msg_timestamp ev) now))
    (msg_platform ev) (msg_route ev) (msg_url ev) (msg_protocol ev) (msg_projectId ev).

(** The loop [events.forEach((ev) => { ...; deliverToConsumers(msg, session) })]. *)
Fixpoint deliver_events (st : Broker) (events : list Message) (session : Sid) (now : Z)
    : Broker * list Effect :=
  match events with
  | [] => (st, [])
  | ev :: rest =>
      let '(st1, out1) := deliverToConsumers st (with_defaults ev now) session now in
      let '(st2, out2) := deliver_events st1 rest session now in
      (st2, (out1 ++ out2)%list)
  end.

(** The frame [/bridge/control/result] builds: [{ type: 'control_result', id,
    ok, result, error }], of which [Message] holds the first two fields. *)
Definition http_control_result (id : option string) : Message :=
  mkMessage (Some "control_result") None None None None id None None None
            None None None None None None None None None.

(** A request to the HTTP server, taken when its body has been read: a POST
    to one of the bridge paths whose body [readJson] rejects, the seven
    bridge paths with the fields of the body that the handler reads, or any
    other method and path.  [newId] is the outcome of [makeSessionId()]. *)
Inductive HttpRequest :=
| BadBody
| BridgeConnect (bodySecret secretHeader : option string) (newId : string)
| BridgeHello (id : option string) (body : Message)
| BridgeEvents (id : option string) (events : option (list Message))
| BridgeControlResult (id : option string) (resultId : option string)
| BridgeControlPoll (id : option string)
| BridgeHeartbeat (id : option string)
| BridgeDisconnect (id : option string)
| OtherRequest.

Inductive Response :=
| Status (code : Z) (text : string)
| SessionCreated (id : string)
| HelloOk (clientId : string)
| Commands (commands : list Message).

Definition session_not_found : Response := Status 404 "session not found".

(** The request handler of [http.createServer]. *)
Definition http_request (st : Broker) (req : HttpRequest) (now : Z)
    : Broker * list Effect * Response :=
  match req with
  | BadBody => (st, [], Status 500 "error")
  | BridgeConnect bodySecret secretHeader newId =>
      if negb (is_str (if truthy bodySecret then bodySecret else secretHeader) (secret st))
      then (st, [], Status 401 "unauthorized")
      else
        let s := next_ws st in
        let st1 :=
          mkBroker (secret st) (set_add s (bridges st)) (consumers st)
            (bridgeCapabilities st) (consumerSubscriptions st) (pendingControl st)
            (bridgeLastScreenshot st) (windowStart st) (windowCount st)
            (<[s := 1]> (readyState st)) (conns st) (S s)
            (<[newId := s]> (httpBridgeSessions st))
            (<[s := mkSession newId [] now]> (sessions st)) in
        (st1, [], SessionCreated newId)
  | BridgeHello id body =>
      match getHttpSession st id with
      | None => (st, [], session_not_found)
      | Some (s, o) =>
          let st1 := touch st s o now in
          (set_bridgeCapabilities st1
             (<[s := mkBridgeMeta (arr_or_else (msg_capabilities body) [])
                       (msg_route body) (msg_url body)
                       (num_or_else (msg_protocol body) 2)
                       (Some (or_else (msg_platform body) "roblox"))
                       (msg_projectId body)]> (bridgeCapabilities st1)),
           [], HelloOk (sessionId o))
      end
  | BridgeEvents id events =>
      match getHttpSession st id with
      | None => (st, [], session_not_found)
      | Some (s, o) =>
          let '(st1, out) :=
            deliver_events (touch st s o now) (arr_or_else_msgs events) s now in
          (st1, out, Status 204 "")
      end
  | BridgeControlResult id resultId =>
      match getHttpSession st id with
      | None => (st, [], session_not_found)
      | Some (s, o) =>
          let '(st1, out) :=
            handle_control_result (touch st s o now) (http_control_result resultId) in
          (st1, out, Status 204 "")
      end
  | BridgeControlPoll id =>
      match getHttpSession st id with
      | None => (st, [], session_not_found)
      | Some (s, o) =>
          (set_http st (httpBridgeSessions st)
             (<[s := mkSession (sessionId o) [] now]> (sessions st)),
           [], Commands (queue o))
      end
  | BridgeHeartbeat id =>
      match getHttpSession st id with
      | None => (st, [], session_not_found)
      | Some (s, o) => (touch st s o now, [], Status 204 "")
      end
  | BridgeDisconnect id =>
      match getHttpSession st id with
      | None => (st, [], Status 204 "")
      | Some (s, o) => (removeHttpSession st s o, [], Status 204 "")
      end
  | OtherRequest => (st, [], Status 404 "not found")
  end.

(** Everything the server process reacts to: a WebSocket task, an HTTP
    request, the prune timer. *)
Inductive Task :=
| Ws (e : Event)
| Http (req : HttpRequest) (now : Z)
| PruneTimer (now : Z).

Definition serve (st : Broker) (t : Task) : Broker * list Effect :=
  match t with
  | Ws e => step st e
  | Http req now => (http_request st req now).1
  | PruneTimer now => (pruneHttpSessions st now, [])
  end.

Fixpoint serve_run (st : Broker) (ts : list Task) : Broker * list Effect :=
  match ts with
  | [] => (st, [])
  | t :: rest =>
      let '(st1, out1) := serve st t in
      let '(st2, out2) := serve_run st1 rest in
      (st2, (out1 ++ out2)%list)
  end.

(** The frames a run wrote to one socket. *)
Definition frames_to (ws : Sid) (out : list Effect) : list Frame :=
  omap (fun e => match e with
                 | Send to f => if Nat.eqb to ws then Some f else None
                 | _ => None
                 end) out.

End Host.

(** ** The bridge client: class BridgeWebSocket *)

Module Client.
Import Js.

(** src/constants.ts *)
Definition PROTOCOL_VERSION : Z := 2.
Definition HEARTBEAT_INTERVAL_MS : Z := 15000.
Definition HEARTBEAT_TIMEOUT_MS : Z := 30000.
Definition RECONNECT_INITIAL_DELAY_MS : Z := 1000.
Definition RECONNECT_MAX_DELAY_MS : Z := 30000.
Definition BUFFER_LIMIT : nat := 200.

(** A JSON value, as the elements of [args] and [breadcrumbs] are. *)
#[warnings="-register-all"] Inductive Value :=
| VUndefined
| VNull
| VBool (b : bool)
| VNum (n : Z)
| VStr (s : string)
| VArr (items : list Value)
| VObj (entries : list (string * Value)).

(** The fields of a [BridgeEvent] the send path reads or rewrites.  [message]
    is held as its UTF-16 code units, which is what [length] and [slice]
    count.  A [type] that is missing or no string is [""]; [args] or
    [breadcrumbs] that is missing or no array is [None]. *)
Record BridgeEvent := mkEvent {
  ev_type : string;
  ev_level : string;
  ev_message : list N;
  ev_timestamp : Z;
  ev_platform : string;
  ev_args : option (list Value);
  ev_breadcrumbs : option (list Value)
}.

(** An inbound protocol message, as far as [handleIncoming] looks at it. *)
Record InMsg := mkInMsg {
  in_type : option string;
  in_id : option string;
  in_action : option string
}.

Inductive Inbound :=
| Malformed
| Parsed (msg : InMsg).

(** How the chain built for a control request settles.  [Returns]: the
    handler's promise is fulfilled, [result] being the serialised value, or
    [None] for [undefined], which [JSON.stringify] leaves out.  [Throws]: the
    [catch] of the chain runs, because the handler threw or its promise was
    rejected, with [err?.message || String(err)] and [err?.stack]. *)
Inductive Outcome :=
| Returns (result : option string)
| Throws (message : string) (stack : option string).

(** Frames the client writes on its socket. *)
Inductive Frame :=
| FAuth (secret : string) (role : string)
| FHello (capabilities : list string) (platform : string) (projectId : option string)
    (protocol : Z) (url route : option string)
| FPing
| FPong
| FEvent (ev : BridgeEvent)
| FNotice (type level message : string)
| FControlResult (id : option string) (ok : bool) (result : option string)
    (error : option (string * option string)).

Inductive Action :=
| Tx (f : Frame)
| SocketClose
| LogError.

(** A [setTimeout] handle: never set, pending, or already run (the field then
    still holds the old, truthy handle). *)
Inductive Timer := NoTimer | Armed | Fired.

(** The promise returned by the last [connect()]: settled, pending (and
    whether it was called by the reconnect timer, whose [catch] backs off),
    or rejected with that [catch] still to run. *)
Inductive ConnectPromise := Settled | Pending (from_timer : bool) | Rejecting.

(** Constructor arguments, readonly fields and the environment. *)
Record Config := mkConfig {
  url : string;
  secret : string;
  capabilities : list string;
  platform : string;
  projectId : option string;
  maxReconnectDelay : Z;
  heartbeatIntervalMs : Z;
  heartbeatTimeoutMs : Z;
  bufferLimit : nat;
  window_location : option (string * string)
}.

(** The fields of the class.  Of [controlHandler] the state holds whether
    one is registered; [calls] are the ids of the control requests whose
    handler promise has not settled yet, oldest first. *)
Record State := mkState {
  cfg : Config;
  ws : option Z;
  reconnectTimeout : option Z;
  reconnectDelay : Z;
  heartbeatInterval : bool;
  heartbeatTimeout : Timer;
  helloSent : bool;
  controlHandler : bool;
  buffer : list BridgeEvent;
  dropped : nat;
  promise : ConnectPromise;
  calls : list (option string)
}.

Definition default_config (url secret : string) (capabilities : list string)
    (platform : string) (projectId : option string)
    (window_location : option (string * string)) : Config :=
  mkConfig url secret capabilities platform projectId
    RECONNECT_MAX_DELAY_MS HEARTBEAT_INTERVAL_MS HEARTBEAT_TIMEOUT_MS BUFFER_LIMIT
    window_location.

(** The field initialisers of the class. *)
Definition new_client (c : Config) : State :=
  mkState c None None RECONNECT_INITIAL_DELAY_MS false NoTimer false false [] 0%nat Settled [].

Definition set_ws (st : State) (w : option Z) : State :=
  mkState (cfg st) w (reconnectTimeout st) (reconnectDelay st) (heartbeatInterval st)
    (heartbeatTimeout st) (helloSent st) (controlHandler st) (buffer st) (dropped st)
    (promise st) (calls st).

Definition set_reconnectTimeout (st : State) (t : option Z) : State :=
  mkState (cfg st) (ws st) t (reconnectDelay st) (heartbeatInterval st)
    (heartbeatTimeout st) (helloSent st) (controlHandler st) (buffer st) (dropped st)
    (promise st) (calls st).

Definition set_reconnectDelay (st : State) (d : Z) : State :=
  mkState (cfg st) (ws st) (reconnectTimeout st) d (heartbeatInterval st)
    (heartbeatTimeout st) (helloSent st) (controlHandler st) (buffer st) (dropped st)
    (promise st) (calls st).

Definition set_heartbeat (st : State) (i : bool) (t : Timer) : State :=
  mkState (cfg st) (ws st) (reconnectTimeout st) (reconnectDelay st) i
    t (helloSent st) (controlHandler st) (buffer st) (dropped st) (promise st) (calls st).

Definition set_helloSent (st : State) (b : bool) : State :=
  mkState (cfg st) (ws st) (reconnectTimeout st) (reconnectDelay st) (heartbeatInterval st)
    (heartbeatTimeout st) b (controlHandler st) (buffer st) (dropped st) (promise st)
    (calls st).

Definition set_controlHandler (st : State) (h : bool) : State :=
  mkState (cfg st) (ws st) (reconnectTimeout st) (reconnectDelay st) (heartbeatInterval st)
    (heartbeatTimeout st) (helloSent st) h (buffer st) (dropped st) (promise st)
    (calls st).

Definition set_buffer (st : State) (b : list BridgeEvent) (d : nat) : State :=
  mkState (cfg st) (ws st) (reconnectTimeout st) (reconnectDelay st) (heartbeatInterval st)
    (heartbeatTimeout st) (helloSent st) (controlHandler st) b d (promise st) (calls st).

Definition set_promise (st : State) (p : ConnectPromise) : State :=
  mkState (cfg st) (ws st) (reconnectTimeout st) (reconnectDelay st) (heartbeatInterval st)
    (heartbeatTimeout st) (helloSent st) (controlHandler st) (buffer st) (dropped st) p
    (calls st).

Definition set_calls (st : State) (c : list (option string)) : State :=
  mkState (cfg st) (ws st) (reconnectTimeout st) (reconnectDelay st) (heartbeatInterval st)
    (heartbeatTimeout st) (helloSent st) (controlHandler st) (buffer st) (dropped st)
    (promise st) c.

(** [this.ws?.readyState === 1] *)
Definition ready (st : State) : bool :=
  match ws st with
  | Some r => r =? 1
  | None => false
  end.

Definition sendRaw (st : State) (obj : Frame) : list Action :=
  if ready st then [Tx obj] else [].

Definition sendHello (st : State) : State * list Action :=
  if helloSent st then (st, [])
  else
    let c := cfg st in
    let loc :=
      if String.eqb (platform c) "web" then window_location c else None in
    let helloMessage :=
      FHello (capabilities c) (platform c) (projectId c) PROTOCOL_VERSION
        (fst <$> loc) (snd <$> loc) in
    (set_helloSent st true, sendRaw st helloMessage).

Definition stopHeartbeat (st : State) : State := set_heartbeat st false NoTimer.

Definition startHeartbeat (st : State) : State :=
  set_heartbeat (stopHeartbeat st) true NoTimer.

Definition setHeartbeatTimeout (st : State) : State :=
  set_heartbeat st (heartbeatInterval st) Armed.

Definition resetHeartbeatTimeout (st : State) : State :=
  match heartbeatTimeout st with
  | NoTimer => st
  | _ => setHeartbeatTimeout st
  end.

Definition enqueue (st : State) (ev : BridgeEvent) : State :=
  let st1 :=
    if (bufferLimit (cfg st) <=? length (buffer st))%nat
    then set_buffer st (tl (buffer st)) (dropped st + 1)
    else st in
  set_buffer st1 (buffer st1 ++ [ev])%list (dropped st1).

Definition drop_notice (n : nat) : Frame :=
  FNotice "info" "info" ("bridge buffered drop count=" ++ show_nat n).

Definition flushBuffer (st : State) : State * list Action :=
  if negb (ready st) then (st, [])
  else
    let drained := List.map (fun ev => Tx (FEvent ev)) (buffer st) in
    if (0 <? dropped st)%nat
    then (set_buffer st [] 0, (drained ++ [Tx (drop_notice (dropped st))])%list)
    else (set_buffer st [] (dropped st), drained).

Definition redactKeys : list string := ["token"; "secret"; "password"].

(** [keys.some((rk) => k.toLowerCase().includes(rk))] *)
Definition is_sensitive (keys : list string) (k : string) : bool :=
  existsb (fun rk => str_includes rk (lower_string k)) keys.

Definition redact_entry (keys : list string) (k : string) (v : Value) : Value :=
  if is_sensitive keys k then VStr "[redacted]" else v.

(** [redactObject]: falsy values and non-objects are returned as they are;
    the entries of an object keep their keys; the entries of an array are
    keyed by their index. *)
Definition redactObject (obj : Value) (keys : list string) : Value :=
  match obj with
  | VObj entries => VObj (List.map (fun kv => (kv.1, redact_entry keys kv.1 kv.2)) entries)
  | VArr items => VArr (imap (fun i v => redact_entry keys (show_nat i) v) items)
  | _ => obj
  end.

(** [xs.map((x) => this.redactObject(x, redactKeys))] *)
Definition redact_all (xs : list Value) : list Value :=
  List.map (fun x => redactObject x redactKeys) xs.

(** The mark appended to a cut message: U+2026 and "[truncated]". *)
Definition TRUNCATION_MARK : list N := 8230%N :: code_units "[truncated]".

Definition MESSAGE_LIMIT : nat := 4000.

Definition validateAndRedact (event : BridgeEvent) : option BridgeEvent :=
  if String.eqb (ev_type event) "" then None
  else
    let message :=
      if (MESSAGE_LIMIT <? length (ev_message event))%nat
      then (firstn MESSAGE_LIMIT (ev_message event) ++ TRUNCATION_MARK)%list
      else ev_message event in
    Some (mkEvent (ev_type event) (ev_level event) message
            (ev_timestamp event) (ev_platform event)
            (redact_all <$> ev_args event) (redact_all <$> ev_breadcrumbs event)).

Definition send (st : State) (event : BridgeEvent) : State * list Action :=
  match validateAndRedact event with
  | None => (st, [])
  | Some safe =>
      if ready st then (st, [Tx (FEvent safe)])
      else (enqueue st safe, [])
  end.

Definition scheduleReconnect (st : State) : State :=
  match reconnectTimeout st with
  | Some _ => st
  | None => set_reconnectTimeout st (Some (reconnectDelay st))
  end.

(** [connect()]: a new socket in the CONNECTING state and a pending promise. *)
Definition connect (st : State) (from_timer : bool) : State :=
  set_promise (set_ws st (Some 0)) (Pending from_timer).

(** The callback of the reconnect timer, up to the call of [connect()]. *)
Definition reconnect_fires (st : State) : State :=
  match reconnectTimeout st with
  | Some _ => connect (set_reconnectTimeout st None) true
  | None => st
  end.

(** The [catch] of the reconnect timer's [connect()]. *)
Definition backoff (st : State) : State :=
  set_reconnectDelay st (Z.min (reconnectDelay st * 2) (maxReconnectDelay (cfg st))).

Definition catch_runs (st : State) : State :=
  match promise st with
  | Rejecting => set_promise (backoff st) Settled
  | _ => st
  end.

(** The socket of [this.ws], if any, moves to [readyState] [r]. *)
Definition socket_state (st : State) (r : Z) : State :=
  match ws st with
  | Some _ => set_ws st (Some r)
  | None => st
  end.

(** [ws.onopen] *)
Definition onopen (st : State) : State * list Action :=
  let st1 := set_helloSent (set_reconnectDelay st 1000) false in
  let st2 := startHeartbeat st1 in
  let auth := sendRaw st2 (FAuth (secret (cfg st2)) "bridge") in
  let '(st3, hello) := sendHello st2 in
  let '(st4, flushed) := flushBuffer st3 in
  let st5 := match promise st4 with Pending _ => set_promise st4 Settled | _ => st4 end in
  (st5, (auth ++ hello ++ flushed)%list).

(** [ws.onerror] *)
Definition onerror (st : State) : State * list Action :=
  let st1 := stopHeartbeat st in
  let st2 :=
    match promise st1 with
    | Pending true => set_promise st1 Rejecting
    | Pending false => set_promise st1 Settled
    | _ => st1
    end in
  (st2, [LogError]).

(** [ws.onclose] *)
Definition onclose (st : State) : State :=
  scheduleReconnect (set_helloSent (stopHeartbeat st) false).

Definition disconnect (st : State) : State * list Action :=
  let st1 := stopHeartbeat (set_reconnectTimeout st None) in
  match ws st1 with
  | Some _ => (set_ws st1 None, [SocketClose])
  | None => (st1, [])
  end.

(** The heartbeat interval callback. *)
Definition sendPing (st : State) : State * list Action :=
  (setHeartbeatTimeout st, sendRaw st FPing).

(** The heartbeat timeout callback. *)
Definition heartbeat_expires (st : State) : State * list Action :=
  let st1 := set_heartbeat st (heartbeatInterval st) Fired in
  match ws st1 with
  | Some r => (set_ws st1 (Some (if r =? 3 then 3 else 2)), [SocketClose])
  | None => (st1, [])
  end.

(** [handleIncoming].  For a [control_request] with a handler registered the
    reply is written by the promise chain, later: here the call is only
    noted. *)
Definition handleIncoming (st : State) (raw : Inbound) : State * list Action :=
  match raw with
  | Malformed => (st, [])
  | Parsed msg =>
      if is_str (in_type msg) "pong" then (resetHeartbeatTimeout st, [])
      else if is_str (in_type msg) "ping" then (st, sendRaw st FPong)
      else if is_str (in_type msg) "control_request" then
        if controlHandler st
        then (set_calls st (calls st ++ [in_id msg])%list, [])
        else (st, [])
      else (st, [])
  end.

(** The [control_result] built by the [then] and the [catch] of the chain. *)
Definition control_reply (id : option string) (o : Outcome) : Frame :=
  match o with
  | Returns result => FControlResult id true result None
  | Throws message stack => FControlResult id false None (Some (message, stack))
  end.

(** The promise of pending call number [i] settles with outcome [o]:
    [sendControlResult(response)], which writes if the socket is open now. *)
Definition control_settles (st : State) (i : nat) (o : Outcome) : State * list Action :=
  match calls st !! i with
  | Some id => (set_calls st (delete i (calls st)), sendRaw st (control_reply id o))
  | None => (st, [])
  end.

(** What can happen to the client, one task each.  What the control handler
    itself does to the client while it runs (sending events, for one) are
    events of their own. *)
Inductive Event :=
| Connect
| Open
| Error
| CatchRuns
| Close
| ReconnectFires
| Message (raw : Inbound)
| Send (event : BridgeEvent)
| Disconnect
| HeartbeatTick
| HeartbeatExpires
| SetControlHandler
| ControlSettles (i : nat) (o : Outcome).

Definition step (st : State) (e : Event) : State * list Action :=
  match e with
  | Connect => (connect st false, [])
  | Open => onopen (socket_state st 1)
  | Error => onerror st
  | CatchRuns => (catch_runs st, [])
  | Close => (onclose (socket_state st 3), [])
  | ReconnectFires => (reconnect_fires st, [])
  | Message raw => handleIncoming st raw
  | Send event => send st event
  | Disconnect => disconnect st
  | HeartbeatTick => if heartbeatInterval st then sendPing st else (st, [])
  | HeartbeatExpires =>
      match heartbeatTimeout st with
      | Armed => heartbeat_expires st
      | _ => (st, [])
      end
  | SetControlHandler => (set_controlHandler st true, [])
  | ControlSettles i o => control_settles st i o
  end.

Fixpoint run (st : State) (es : list Event) : State * list Action :=
  match es with
  | [] => (st, [])
  | e :: rest =>
      let '(st1, out1) := step st e in
      let '(st2, out2) := run st1 rest in
      (st2, (out1 ++ out2)%list)
  end.

(** The frames of a run, in the order they were written. *)
Definition wire (out : list Action) : list Frame :=
  omap (fun a => match a with Tx f => Some f | _ => None end) out.

End Client.

(** ** Specification-side definitions for the host *)

Module HostSpec.
Import Js Host.

(** The level mapping as the protocol documents it: [error] to [errors],
    [warn] to [warn], [debug] to [trace], everything else to [info]. *)
Definition mapLogLevel (level : option string) : string :=
  let l := lower level in
  if String.eqb l "error" then "errors"
  else if String.eqb l "warn" then "warn"
  else if String.eqb l "debug" then "trace"
  else "info".

(** Position of an event level in [LEVEL_ORDER]. *)
Definition level_index (level : option string) : Z :=
  indexOf (mapLogLevel level) LEVEL_ORDER.

(** The highest [LEVEL_ORDER] position among subscribed levels ([-1] when
    none of them is a level). *)
Definition highest_index (levels : list string) : Z :=
  fold_right Z.max (-1) (List.map (fun l => indexOf (lower_string l) LEVEL_ORDER) levels).

(** The levels the router uses for a consumer: [errors] until it subscribes. *)
Definition consumer_levels (st : Broker) (c : Sid) : list string :=
  match consumerSubscriptions st !! c with
  | Some s => sub_levels s
  | None => ["errors"]
  end.

(** Number of event frames a run forwarded to a socket. *)
Definition received (c : Sid) (out : list Effect) : nat :=
  length (List.filter (fun f => match f with Forward _ => true | _ => false end)
            (frames_to c out)).

Definition auth_frame (the_secret role : string) : Message :=
  mkMessage (Some "auth") (Some the_secret) (Some role) None None None None None None
            None None None None None None None None None.

Definition subscribe_frame (levels : option (list string))
    (capabilities : option (list string)) : Message :=
  mkMessage (Some "subscribe") None None None None None capabilities levels None
            None None None None None None None None None.

Definition hello_frame (capabilities : list string) : Message :=
  mkMessage (Some "hello") None None None None None (Some capabilities) None None
            None None None None None None None None None.

Definition event_frame (type level text : string) : Message :=
  mkMessage (Some type) None None None (Some level) None None None None
            None None (Some text) None None None None None None.

(** Scenario "level hierarchy": bridge 0 without hello, consumer 1 without
    subscription, consumer 2 on [warn; info], consumer 3 on [trace]; the
    bridge emits one event per level. *)
Definition level_scenario : list Event :=
  [ Connection; Connection; Connection; Connection;
    Incoming 0 (Parsed (auth_frame "s3cr3t" "bridge")) 10;
    Incoming 1 (Parsed (auth_frame "s3cr3t" "consumer")) 11;
    Incoming 2 (Parsed (auth_frame "s3cr3t" "consumer")) 12;
    Incoming 3 (Parsed (auth_frame "s3cr3t" "consumer")) 13;
    Incoming 2 (Parsed (subscribe_frame (Some ["warn"; "info"]) None)) 14;
    Incoming 3 (Parsed (subscribe_frame (Some ["trace"]) None)) 15;
    Incoming 0 (Parsed (event_frame "error" "error" "e")) 20;
    Incoming 0 (Parsed (event_frame "console" "warn" "w")) 21;
    Incoming 0 (Parsed (event_frame "console" "info" "i")) 22;
    Incoming 0 (Parsed (event_frame "console" "debug" "d")) 23 ]%nat.

End HostSpec.

Module HostSpec2.
Import Js Host HostSpec.

(** Number of [control_result] frames with id [i] that a list of effects
    wrote to socket [s]. *)
Definition is_result_for (i : option string) (s : Sid) (e : Effect) : bool :=
  match e with
  | Send to (Forward m) =>
      (Nat.eqb to s && is_str (msg_type m) "control_result"
       && bool_decide (msg_id m = i))%bool
  | _ => false
  end.

Definition forwarded_results (i : option string) (s : Sid) (out : list Effect) : nat :=
  length (List.filter (is_result_for i s) out).

(** The [pendingControl.set(id, { replyTo: ws, ... })] that a task executes,
    if any: a control request of an authenticated bridge that reached a
    consumer, or of an authenticated consumer that reached a bridge. *)
Definition records (st : Broker) (e : Event) : option (option string * Sid) :=
  match e with
  | Incoming ws (Parsed message) now =>
      match conns st !! ws with
      | Some c =>
          if (negb (isAuthenticated c) || is_str (msg_type message) "ping")%bool then None
          else if is_str (role c) "bridge" then
            if (is_str (msg_type message) "hello"
                || is_str (msg_type message) "control_result")%bool then None
            else if is_str (msg_type message) "control_request" then
              match (route st (with_level message "info") ws now).1 with
              | [] => None
              | _ => Some (msg_id message, ws)
              end
            else None
          else if is_str (role c) "consumer" then
            if is_str (msg_type message) "subscribe" then None
            else if (is_str (msg_type message) "control_request"
                     || is_str (msg_type message) "control")%bool then
              match control_targets st with
              | [] => None
              | _ =>
                  Some (Some (or_else (msg_id message)
                                (match clientId c with Some i => i | None => "null" end
                                 ++ "-" ++ show_Z now)), ws)
              end
            else None
          else None
      | None => None
      end
  | _ => None
  end.

(** How many times a run records a request with id [i] for originator [s]. *)
Fixpoint recordings (i : option string) (s : Sid) (st : Broker) (es : list Event) : nat :=
  match es with
  | [] => 0
  | e :: rest =>
      ((if bool_decide (records st e = Some (i, s)) then 1 else 0)
       + recordings i s (step st e).1 rest)%nat
  end.

(** Number of [control_result] frames with id [i] written to socket [s],
    the broker's own error replies included. *)
Definition is_result_frame (i : option string) (s : Sid) (e : Effect) : bool :=
  match e with
  | Send to (ControlResultError id _) => (Nat.eqb to s && bool_decide (id = i))%bool
  | _ => is_result_for i s e
  end.

Definition sent_results (i : option string) (s : Sid) (out : list Effect) : nat :=
  length (List.filter (is_result_frame i s) out).

(** Whether a member of [bridges] is an HTTP session ([kind === 'http']). *)
Definition is_session (st : Broker) (b : Sid) : bool :=
  bool_decide (is_Some (sessions st !! b)).

(** The targets of a control request that are sockets, and those that are
    HTTP sessions. *)
Definition socket_targets (st : Broker) (targets : list Sid) : list Sid :=
  List.filter (fun b => negb (is_session st b)) targets.

Definition session_targets (st : Broker) (targets : list Sid) : list Sid :=
  List.filter (is_session st) targets.

(** An HTTP bridge posts, through [/bridge/events], an event whose type is
    [control_result]. *)
Definition posts_result (t : Task) : bool :=
  match t with
  | Http (BridgeEvents _ (Some events)) _ =>
      existsb (fun ev => is_str (msg_type ev) "control_result") events
  | _ => false
  end.

(** The [pendingControl.set] of a task: the HTTP endpoints have none. *)
Definition task_records (st : Broker) (t : Task) : option (option string * Sid) :=
  match t with
  | Ws e => records st e
  | _ => None
  end.

Fixpoint task_recordings (i : option string) (s : Sid) (st : Broker) (ts : list Task)
    : nat :=
  match ts with
  | [] => 0
  | t :: rest =>
      ((if bool_decide (task_records st t = Some (i, s)) then 1 else 0)
       + task_recordings i s (serve st t).1 rest)%nat
  end.

(** Whether the request with id [i] of originator [s] is in flight. *)
Definition in_flight (i : option string) (s : Sid) (st : Broker) : nat :=
  match pendingControl st !! i with
  | Some p => if Nat.eqb (replyTo p) s then 1 else 0
  | None => 0
  end%nat.

Definition control_request_frame (id : string) : Message :=
  mkMessage (Some "control_request") None None None None (Some id) None None None
            None None None None None None None None None.

Definition control_result_frame (id : string) : Message :=
  mkMessage (Some "control_result") None None None None (Some id) None None None
            None None None None None None None None None.

(** Scenario "control round trip": bridge 0 advertises [control], consumer 1
    sends request [req-1], the bridge answers twice. *)
Definition control_scenario : list Event :=
  [ Connection; Connection;
    Incoming 0 (Parsed (auth_frame "s3cr3t" "bridge")) 10;
    Incoming 1 (Parsed (auth_frame "s3cr3t" "consumer")) 11;
    Incoming 0 (Parsed (hello_frame ["control"])) 12;
    Incoming 1 (Parsed (control_request_frame "req-1")) 13;
    Incoming 0 (Parsed (control_result_frame "req-1")) 14;
    Incoming 0 (Parsed (control_result_frame "req-1")) 15 ]%nat.

(** Scenario "request repeated while no bridge is there": consumer 1 sends
    request [x], which reaches bridge 0 and is recorded; bridge 0 goes away;
    the consumer sends [x] again and gets the broker's error reply; bridge 2
    arrives and answers [x]. *)
Definition repeated_request_scenario : list Event :=
  [ Connection; Connection;
    Incoming 0 (Parsed (auth_frame "s3cr3t" "bridge")) 10;
    Incoming 1 (Parsed (auth_frame "s3cr3t" "consumer")) 11;
    Incoming 0 (Parsed (hello_frame ["control"])) 12;
    Incoming 1 (Parsed (control_request_frame "x")) 13;
    Closed 0;
    Incoming 1 (Parsed (control_request_frame "x")) 14;
    Connection;
    Incoming 2 (Parsed (auth_frame "s3cr3t" "bridge")) 15;
    Incoming 2 (Parsed (control_result_frame "x")) 16 ]%nat.

(** Scenario "results posted as events": consumer 1, subscribed to [info],
    sends request [x] to bridge 0; an HTTP bridge posts two events of type
    control_result with id [x] through [/bridge/events]; then bridge 0
    answers. *)
Definition posted_results_scenario : list Task :=
  [ Ws Connection; Ws Connection;
    Ws (Incoming 0 (Parsed (auth_frame "s3cr3t" "bridge")) 10);
    Ws (Incoming 1 (Parsed (auth_frame "s3cr3t" "consumer")) 11);
    Ws (Incoming 0 (Parsed (hello_frame ["control"])) 12);
    Ws (Incoming 1 (Parsed (subscribe_frame (Some ["info"]) None)) 13);
    Ws (Incoming 1 (Parsed (control_request_frame "x")) 14);
    Http (BridgeConnect (Some "s3cr3t") None "5e55") 15;
    Http (BridgeEvents (Some "5e55")
            (Some [control_result_frame "x"; control_result_frame "x"])) 16;
    Ws (Incoming 0 (Parsed (control_result_frame "x")) 17) ]%nat.

(** Scenario "polling bridge": an HTTP bridge connects and advertises
    [control]; consumer 0 sends request [x]; the bridge polls, answers twice
    through [/bridge/control/result]. *)
Definition polling_scenario : list Task :=
  [ Ws Connection;
    Ws (Incoming 0 (Parsed (auth_frame "s3cr3t" "consumer")) 10);
    Http (BridgeConnect None (Some "s3cr3t") "5e55") 11;
    Http (BridgeHello (Some "5e55") (hello_frame ["control"])) 12;
    Ws (Incoming 0 (Parsed (control_request_frame "x")) 13);
    Http (BridgeControlPoll (Some "5e55")) 14;
    Http (BridgeControlResult (Some "5e55") (Some "x")) 15;
    Http (BridgeControlResult (Some "5e55") (Some "x")) 16 ]%nat.

(** A bridge that authenticated but sent no hello, and a consumer subscribed
    to [info] without a capability filter. *)
Definition no_hello_scenario : list Event :=
  [ Connection; Connection;
    Incoming 0 (Parsed (auth_frame "s3cr3t" "bridge")) 10;
    Incoming 1 (Parsed (auth_frame "s3cr3t" "consumer")) 11;
    Incoming 1 (Parsed (subscribe_frame (Some ["info"]) None)) 12 ]%nat.

(** A bridge advertising [screenshot] and a consumer subscribed to it. *)
Definition screenshot_scenario : list Event :=
  [ Connection; Connection;
    Incoming 0 (Parsed (auth_frame "s3cr3t" "bridge")) 10;
    Incoming 1 (Parsed (auth_frame "s3cr3t" "consumer")) 11;
    Incoming 0 (Parsed (hello_frame ["screenshot"])) 12;
    Incoming 1 (Parsed (subscribe_frame (Some ["info"]) (Some ["screenshot"]))) 13 ]%nat.

Definition screenshot_frame (mime data : option string) : Message :=
  mkMessage (Some "screenshot") None None None None None None None None
            mime data None None None None None None None.


(** An auth frame without a role. *)
Definition auth_without_role (the_secret : string) : Message :=
  mkMessage (Some "auth") (Some the_secret) None None None None None None None
            None None None None None None None None None.

End HostSpec2.

(** ** Specification-side definitions for the client *)

Module ClientSpec.
Import Js Client.

(** The jittered delay the protocol text describes: the base delay times a
    factor between 1.0 and 1.5, the factor given in thousandths. *)
Definition jittered_delay (base permille : Z) : Z := base * permille / 1000.

(** Whether an [auth_success] frame arrived during a run. *)
Definition auth_success_seen (es : list Event) : bool :=
  existsb (fun e => match e with
                    | Message (Parsed m) => is_str (in_type m) "auth_success"
                    | _ => false
                    end) es.

Definition is_hello (f : Frame) : bool :=
  match f with FHello _ _ _ _ _ _ => true | _ => false end.

Definition is_auth (f : Frame) : bool :=
  match f with FAuth _ _ => true | _ => false end.

(** Every hello frame of [fs] directly follows an auth frame; [prev] tells
    whether the frame before [fs] was an auth frame. *)
Fixpoint hello_follows_auth (prev : bool) (fs : list Frame) : bool :=
  match fs with
  | [] => true
  | f :: rest =>
      ((if is_hello f then prev else true) && hello_follows_auth (is_auth f) rest)%bool
  end.

Definition no_hello (l : list Frame) : bool :=
  forallb (fun f => negb (is_hello f)) l.

(** The two handshake frames of a configuration. *)
Definition auth_of (c : Config) : Frame := FAuth (secret c) "bridge".

Definition hello_of (c : Config) : Frame :=
  let loc := if String.eqb (platform c) "web" then window_location c else None in
  FHello (capabilities c) (platform c) (projectId c) PROTOCOL_VERSION
    (fst <$> loc) (snd <$> loc).

Definition test_config (limit : nat) : Config :=
  mkConfig "ws://localhost" "secret" ["console"] "web" None
    RECONNECT_MAX_DELAY_MS HEARTBEAT_INTERVAL_MS HEARTBEAT_TIMEOUT_MS limit None.

Definition console_event (text : string) : BridgeEvent :=
  mkEvent "console" "info" (code_units text) 0 "web" None None.

(** Scenario "buffer and drop notice": five events while disconnected, then
    the socket opens. *)
Definition buffer_scenario : list Event :=
  [ Send (console_event "m0"); Send (console_event "m1"); Send (console_event "m2");
    Send (console_event "m3"); Send (console_event "m4"); Connect; Open ].

(** One failed reconnect attempt: the timer fires, the socket errors, the
    [catch] backs off, the socket closes. *)
Definition failed_attempt : list Event := [ReconnectFires; Error; CatchRuns; Close].

(** The same attempt where the socket emits [error] and [close] in one tick
    (the ws package on node): the close handler runs before the [catch]. *)
Definition failed_attempt_node : list Event := [ReconnectFires; Error; Close; CatchRuns].

(** The delays with which the reconnect timer is armed along a run. *)
Fixpoint armed_delays (st : State) (es : list Event) : list Z :=
  match es with
  | [] => []
  | e :: rest =>
      let st1 := (step st e).1 in
      match reconnectTimeout st, reconnectTimeout st1 with
      | None, Some d => d :: armed_delays st1 rest
      | _, _ => armed_delays st1 rest
      end
  end.

End ClientSpec.

(** ** Further specification-side definitions for the host *)

Module HostInv.
Import Js Host HostSpec.

(** The connection of [ws] is authenticated with role [r]. *)
Definition has_role (st : Broker) (ws : Sid) (r : string) : Prop :=
  exists c, conns st !! ws = Some c /\ isAuthenticated c = true /\ role c = Some r.

(** What holds of the registries in every state the host can reach. *)
Record wf (st : Broker) : Prop := mkWf {
  wf_bridges_nodup : NoDup (bridges st);
  wf_consumers_nodup : NoDup (consumers st);
  wf_bridges_role : forall ws, In ws (bridges st) -> has_role st ws "bridge";
  wf_consumers_role : forall ws, In ws (consumers st) -> has_role st ws "consumer";
  wf_caps_role : forall ws, is_Some (bridgeCapabilities st !! ws) -> has_role st ws "bridge";
  wf_clock_role : forall ws, is_Some (bridgeLastScreenshot st !! ws) -> has_role st ws "bridge";
  wf_subs_role : forall ws, is_Some (consumerSubscriptions st !! ws) ->
                            has_role st ws "consumer";
  wf_subs_filter : forall ws s, consumerSubscriptions st !! ws = Some s ->
                                In (sub_llm_filter s) FILTER_LEVELS;
  wf_conns_fresh : forall ws, is_Some (conns st !! ws) -> (ws < next_ws st)%nat;
  wf_ready_fresh : forall ws, is_Some (readyState st !! ws) -> (ws < next_ws st)%nat
}.

(** No authenticated connection has its authentication timer armed. *)
Definition timer_cleared (st : Broker) : Prop :=
  forall ws c, conns st !! ws = Some c -> isAuthenticated c = true -> authTimeout c = false.


(** What an HTTP request or the prune timer leaves alone. *)
Definition same_sockets (st st' : Broker) : Prop :=
  conns st' = conns st /\ consumers st' = consumers st
  /\ consumerSubscriptions st' = consumerSubscriptions st
  /\ secret st' = secret st.

(** The verdict of the LLM filter proper, on a lower-cased level. *)
Definition llm_verdict (filter lvl : string) : bool :=
  if String.eqb filter "minimal" then
    negb (String.eqb lvl "debug" || String.eqb lvl "log")
  else if String.eqb filter "aggressive" then
    negb (String.eqb lvl "debug" || String.eqb lvl "log" || String.eqb lvl "info")
  else true.

(** The value of [windowCount] after one more call of
    [filterEventForConsumer] at time [now]. *)
Definition next_count (st : Broker) (now : Z) : Z :=
  if WINDOW_MS <? now - windowStart st then 1 else windowCount st + 1.

(** The consumers for which the routing loop calls the filter: open, with a
    stored subscription. *)
Definition filtered_consumers (st : Broker) : list Sid :=
  List.filter
    (fun c => (is_open st c && bool_decide (is_Some (consumerSubscriptions st !! c)))%bool)
    (consumers st).

(** The decision of [shouldRouteToConsumer] for a stored filter, the overload
    guard left out: LLM filter, level, and for a capability-gated type both
    capability tests. *)
Definition passes_gates (st : Broker) (c : Sid) (m : Message) (b : Sid) : bool :=
  let messageType := lower_string (or_else (msg_type m) "") in
  (match consumerSubscriptions st !! c with
   | Some s => llm_verdict (sub_llm_filter s) (lower_string (or_else (msg_level m) ""))
   | None => true
   end
   && subscriptionIncludesLevel (Some (consumer_levels st c))
        (Some (or_else (msg_level m) "info"))
   && (negb (is_gated_type messageType)
       || (consumerWantsCapability
             (Some (match consumerSubscriptions st !! c with
                    | Some s => sub_capabilities s
                    | None => []
                    end)) messageType
           && bridgeHasCapability (bm_capabilities <$> (bridgeCapabilities st !! b))
                messageType)))%bool.

(** Frames other than a forwarded message. *)
Definition is_forward (f : Frame) : bool :=
  match f with Forward _ => true | _ => false end.

(** The socket whose handler an event runs. *)
Definition event_socket (e : Event) : option Sid :=
  match e with
  | Connection => None
  | Incoming ws _ _ | AuthTimeout ws | Closing ws | Closed ws => Some ws
  end.

(** An effect is addressed properly in state [st] for the handler of socket
    [ws]: a forwarded message goes to an open socket, every other frame and
    every close goes to [ws] itself. *)
Definition well_addressed (st : Broker) (ws : option Sid) (eff : Effect) : Prop :=
  match eff with
  | Send s (Forward _) => is_open st s = true
  | Send s _ => ws = Some s
  | Close s _ _ => ws = Some s
  | LogError _ => True
  end.

End HostInv.

(** ** Further specification-side definitions for the client *)

Module ClientInv.
Import Js Client ClientSpec.

(** The events of [evs] that pass [validateAndRedact], as the client stores
    or writes them. *)
Definition safe_events (evs : list BridgeEvent) : list BridgeEvent :=
  omap validateAndRedact evs.

(** The newest [n] elements of a list. *)
Definition keep_last {A} (n : nat) (l : list A) : list A :=
  drop (length l - n) l.

(** The reconnect delay lies between the initial delay and the cap. *)
Definition delay_in_range (st : State) : Prop :=
  RECONNECT_INITIAL_DELAY_MS <= reconnectDelay st <= maxReconnectDelay (cfg st).








(** Runs during which the heartbeat interval never fires. *)
Definition is_tick (e : Event) : bool :=
  match e with HeartbeatTick => true | _ => false end.

End ClientInv.

(** ** Facts about the host *)

Module HostProofs.
Import Js Host HostSpec HostSpec2.

(** *** Routing leaves every table but the overload window alone *)

Lemma set_window_twice st a b c d :
  set_window (set_window st a b) c d = set_window st c d.
Proof. reflexivity. Qed.

Lemma set_window_same st : set_window st (windowStart st) (windowCount st) = st.
Proof. by destruct st. Qed.

Lemma filterEvent_window st m s now :
  exists w c, (filterEventForConsumer st m s now).2 = set_window st w c.
Proof.
  unfold filterEventForConsumer.
  destruct (WINDOW_MS <? now - windowStart st);
    repeat match goal with |- context [if ?b then _ else _] => destruct b end;
    cbn [snd]; rewrite ?set_window_twice; eauto.
Qed.

Lemma shouldRoute_window st c m b now :
  exists w n, (shouldRouteToConsumer st c m b now).2 = set_window st w n.
Proof.
  unfold shouldRouteToConsumer.
  destruct (consumerSubscriptions st !! c) as [s|] eqn:Hs.
  - destruct (filterEvent_window st m s now) as (w & n & Hw).
    destruct (filterEventForConsumer st m s now) as [ok st'] eqn:Hf.
    cbn [snd] in Hw. subst st'.
    repeat match goal with |- context [if ?b then _ else _] => destruct b end;
      cbn [snd]; eauto.
  - exists (windowStart st), (windowCount st). rewrite set_window_same.
    repeat match goal with |- context [if ?b then _ else _] => destruct b end;
      reflexivity.
Qed.

Lemma route_loop_window cs : forall st m b now,
  exists w n, (route_loop st cs m b now).2 = set_window st w n.
Proof.
  induction cs as [|c cs IH]; intros st m b now; cbn [route_loop].
  - exists (windowStart st), (windowCount st). by rewrite set_window_same.
  - destruct (is_open st c); [|apply IH].
    destruct (shouldRoute_window st c m b now) as (w & n & Hw).
    destruct (shouldRouteToConsumer st c m b now) as [ok st1]. cbn [snd] in Hw. subst st1.
    destruct (IH (set_window st w n) m b now) as (w' & n' & Hw').
    destruct (route_loop (set_window st w n) cs m b now) as [sel st2].
    cbn [snd] in *. subst st2. rewrite set_window_twice. eauto.
Qed.

Lemma route_window st m b now :
  exists w n, (route st m b now).2 = set_window st w n.
Proof. apply route_loop_window. Qed.

(** *** Control requests and HTTP sessions *)

Lemma is_session_insert st ids b o x :
  is_Some (sessions st !! b) ->
  is_session (set_http st ids (<[b := o]> (sessions st))) x = is_session st x.
Proof.
  intros Hb. unfold is_session. cbn [sessions set_http].
  destruct (decide (x = b)) as [->|Hne].
  - rewrite lookup_insert_eq. rewrite !bool_decide_eq_true_2; eauto.
  - by rewrite lookup_insert_ne.
Qed.

Lemma socket_targets_insert st ids b o l :
  is_Some (sessions st !! b) ->
  socket_targets (set_http st ids (<[b := o]> (sessions st))) l = socket_targets st l.
Proof.
  intros Hb. unfold socket_targets. apply List.filter_ext. intros x.
  by rewrite is_session_insert.
Qed.

(** What the delivery loop does: the sockets among the targets are written
    in order, and only the session objects change, none appearing or
    disappearing. *)
Lemma deliver_control_cases targets : forall st payload,
  exists objs,
    deliver_control st targets payload
    = (set_http st (httpBridgeSessions st) objs,
       List.map (fun b => Send b (Forward payload)) (socket_targets st targets))
    /\ (forall x, is_Some (objs !! x) <-> is_Some (sessions st !! x)).
Proof.
  induction targets as [|b rest IH]; intros st payload; cbn [deliver_control].
  - exists (sessions st). split; [by destruct st|done].
  - unfold socket_targets. cbn [List.filter]. fold (socket_targets st rest).
    unfold is_session at 1.
    destruct (sessions st !! b) as [o|] eqn:Hb.
    + rewrite bool_decide_eq_true_2 by eauto. cbn [negb].
      match goal with
      | |- context [deliver_control ?st1 rest payload] =>
          destruct (IH st1 payload) as (objs & -> & Hdom)
      end.
      exists objs. split.
      * rewrite socket_targets_insert by eauto. reflexivity.
      * intros x. rewrite Hdom. cbn [sessions set_http].
        destruct (decide (x = b)) as [->|Hne];
          [rewrite lookup_insert_eq, Hb; split; eauto|by rewrite lookup_insert_ne].
    + rewrite bool_decide_eq_false_2 by (intros [? ?]; discriminate). cbn [negb].
      destruct (IH st payload) as (objs & -> & Hdom).
      exists objs. split; [reflexivity|exact Hdom].
Qed.

Lemma handle_consumer_control_request_cases st ws c m now :
  let reqId := or_else (msg_id m)
                 (match clientId c with Some i => i | None => "null" end
                  ++ "-" ++ show_Z now) in
  (control_targets st = []
   /\ handle_consumer_control_request st ws c m now
      = (st, [Send ws (ControlResultError (Some reqId)
                         "No bridge with control capability is connected")]))
  \/ (control_targets st <> []
      /\ exists objs,
           handle_consumer_control_request st ws c m now
           = (set_http
                (set_pendingControl st
                   (<[Some reqId := mkPending ws FromConsumer]> (pendingControl st)))
                (httpBridgeSessions st) objs,
              (List.map (fun b => Send b (Forward (with_type_id m "control_request" reqId)))
                 (socket_targets st (control_targets st))
               ++ [Send ws (ControlForwarded reqId (length (control_targets st)))])%list)
           /\ (forall x, is_Some (objs !! x) <-> is_Some (sessions st !! x))).
Proof.
  intros reqId. unfold handle_consumer_control_request. fold reqId.
  destruct (control_targets st) as [|b0 bs] eqn:Ht; [left; done|right].
  split; [done|].
  match goal with
  | |- context [deliver_control ?st1 ?l ?pl] =>
      destruct (deliver_control_cases l st1 pl) as (objs & -> & Hdom)
  end.
  exists objs. split; [reflexivity|exact Hdom].
Qed.

Lemma in_socket_targets st l b : In b (socket_targets st l) -> In b l.
Proof. unfold socket_targets. intros H. by apply filter_In in H as [H _]. Qed.

(** *** The level gate *)

Lemma effective_level_mapping lv :
  getSubscriptionLevelForLogLevel (Some (or_else lv "info")) = mapLogLevel lv.
Proof.
  unfold getSubscriptionLevelForLogLevel, mapLogLevel, or_else, lower.
  destruct lv as [s|]; [|reflexivity].
  destruct (String.eqb s "") eqn:He; [|reflexivity].
  apply String.eqb_eq in He. by subst s.
Qed.

Lemma le_fold_max (f : string -> Z) (l : list string) (x : string) :
  In x l -> f x <= fold_right Z.max (-1) (List.map f l).
Proof.
  induction l as [|y l IH]; intros Hin; [easy|].
  cbn [List.map fold_right]. destruct Hin as [->|Hin]; [lia|].
  specialize (IH Hin). lia.
Qed.

Lemma includes_level_bound levels lv :
  subscriptionIncludesLevel (Some levels) (Some (or_else lv "info")) = true ->
  level_index lv <= highest_index levels.
Proof.
  unfold subscriptionIncludesLevel. rewrite effective_level_mapping.
  cbn [arr_or_else]. intros H.
  apply existsb_exists in H as (sub & Hin & Hle).
  apply in_map_iff in Hin as (l & <- & Hin).
  apply Z.leb_le in Hle. unfold level_index, highest_index.
  etransitivity; [exact Hle|].
  by apply (le_fold_max (fun l => indexOf (lower_string l) LEVEL_ORDER)).
Qed.

Lemma shouldRoute_level st c e b now :
  (shouldRouteToConsumer st c e b now).1 = true ->
  subscriptionIncludesLevel (Some (consumer_levels st c))
    (Some (or_else (msg_level e) "info")) = true.
Proof.
  unfold shouldRouteToConsumer, consumer_levels.
  destruct (consumerSubscriptions st !! c) as [s|];
    [destruct (filterEventForConsumer st e s now) as [ok st']|];
    repeat match goal with
           | |- context [if negb ?b then _ else _] => destruct b eqn:?; cbn [negb]
           | |- context [if ?b then _ else _] => destruct b eqn:?
           end; cbn [fst]; try discriminate; auto.
Qed.

Lemma consumer_levels_window st w n c :
  consumer_levels (set_window st w n) c = consumer_levels st c.
Proof. reflexivity. Qed.

Lemma route_loop_level cs : forall st e b now c,
  In c (route_loop st cs e b now).1 ->
  level_index (msg_level e) <= highest_index (consumer_levels st c).
Proof.
  induction cs as [|c0 cs IH]; intros st e b now c; cbn [route_loop]; [intros []|].
  destruct (is_open st c0); [|apply IH].
  pose proof (shouldRoute_level st c0 e b now) as Hlv.
  destruct (shouldRoute_window st c0 e b now) as (w & n & Hw).
  destruct (shouldRouteToConsumer st c0 e b now) as [ok st1].
  cbn [fst snd] in *. subst st1.
  specialize (IH (set_window st w n) e b now c).
  destruct (route_loop (set_window st w n) cs e b now) as [sel st2].
  cbn [fst] in *. rewrite consumer_levels_window in IH.
  destruct ok; [intros [<-|Hin]|intros Hin]; auto.
  apply includes_level_bound; auto.
Qed.

Lemma in_map_send c m0 (l : list Sid) m' :
  In (Send c (Forward m')) (List.map (fun x => Send x (Forward m0)) l) ->
  m' = m0 /\ In c l.
Proof.
  intros H. apply in_map_iff in H as (x & Heq & Hin). by inversion Heq; subst.
Qed.

Lemma level_index_filled lv : level_index (Some (or_else lv "info")) = level_index lv.
Proof.
  unfold level_index, mapLogLevel, lower, or_else.
  destruct lv as [s|]; [|reflexivity].
  destruct (String.eqb s "") eqn:He; [|reflexivity].
  apply String.eqb_eq in He. by subst s.
Qed.

(** Every frame that the message handler forwards, control frames apart,
    passed the level gate of its receiver. *)
Lemma on_message_level st ws data now c m' :
  In (Send c (Forward m')) (on_message st ws data now).2 ->
  is_str (msg_type m') "control_request" = false ->
  is_str (msg_type m') "control_result" = false ->
  level_index (msg_level m') <= highest_index (consumer_levels st c).
Proof.
  intros Hin Hq Hr. unfold on_message in Hin.
  destruct (conns st !! ws) as [cn|]; [|destruct Hin].
  destruct data as [err|m].
  { cbn in Hin. destruct Hin as [|[|[]]]; discriminate. }
  destruct (negb (isAuthenticated cn)).
  { unfold handle_auth in Hin. revert Hin.
    repeat match goal with |- context [if ?b then _ else _] => destruct b end;
      cbn; intros [|[]]; discriminate. }
  destruct (is_str (msg_type m) "ping"); [destruct Hin as [|[]]; discriminate|].
  destruct (is_str (role cn) "bridge").
  - unfold handle_bridge in Hin.
    destruct (is_str (msg_type m) "hello"); [destruct Hin as [|[]]; discriminate|].
    destruct (is_str (msg_type m) "control_result") eqn:Hmr.
    { unfold handle_control_result in Hin.
      destruct (pendingControl st !! msg_id m) as [p|]; [|destruct Hin].
      destruct (is_open st (replyTo p)); [|destruct Hin].
      destruct Hin as [Heq|[]]. inversion Heq; subst. congruence. }
    destruct (is_str (msg_type m) "control_request") eqn:Hmq.
    { unfold handle_bridge_control_request in Hin.
      destruct (route st (with_level m "info") ws now) as [[|c0 cs] st1];
        cbn [snd] in Hin; [destruct Hin as [|[]]; discriminate|].
      apply in_map_send in Hin as [-> _]. congruence. }
    destruct (is_str (msg_type m) "screenshot").
    + unfold handle_screenshot in Hin.
      destruct (negb _); [destruct Hin as [|[]]; discriminate|].
      destruct (screenshot_wait st ws now); [destruct Hin as [|[]]; discriminate|].
      pose proof (route_loop_level (consumers st) st m ws now c) as Hlv.
      fold (route st m ws now) in Hlv.
      destruct (route st m ws now) as [[|c0 cs] st1];
        cbn [fst snd] in *; [destruct Hin as [|[]]; discriminate|].
      destruct (_ || _)%bool; cbn [snd] in Hin;
        [destruct Hin as [|[]]; discriminate|].
      apply in_map_send in Hin as [-> Hc]. cbn [msg_level with_meta].
      rewrite level_index_filled. auto.
    + unfold handle_broadcast in Hin.
      pose proof (route_loop_level (consumers st) st m ws now c) as Hlv.
      fold (route st m ws now) in Hlv.
      destruct (route st m ws now) as [targets st1]; cbn [fst snd] in *.
      apply in_map_send in Hin as [-> Hc]. auto.
  - destruct (is_str (role cn) "consumer"); [|destruct Hin].
    unfold handle_consumer in Hin.
    destruct (is_str (msg_type m) "subscribe");
      [destruct Hin as [|[]]; discriminate|].
    destruct (is_str (msg_type m) "control_request" || is_str (msg_type m) "control")%bool.
    { destruct (handle_consumer_control_request_cases st ws cn m now)
        as [[_ Hh]|(_ & objs & Hh & _)]; rewrite Hh in Hin; cbn [snd] in Hin;
        [destruct Hin as [|[]]; discriminate|].
      apply in_app_or in Hin as [Hin|[|[]]]; [|discriminate].
      apply in_map_send in Hin as [-> _]. discriminate. }
    destruct (is_str (msg_type m) "control_result") eqn:Hmr; [|destruct Hin].
    unfold handle_control_result in Hin.
    destruct (pendingControl st !! msg_id m) as [p|]; [|destruct Hin].
    destruct (is_open st (replyTo p)); [|destruct Hin].
    destruct Hin as [Heq|[]]. inversion Heq; subst. congruence.
Qed.

(** C1.  Level gate.  Whenever the routing loop selects consumer [c] for a
    bridge event [e], and so whenever the message handler forwards an event
    frame (any frame other than a control request or result) to [c], the
    position of the mapped level of the event in LEVEL_ORDER is at most the
    highest position among the levels of [c], which are [errors] for a
    consumer that never subscribed.  In the scenario with events of level
    error, warn, info and debug, the consumer without subscription receives
    1 event, the one on [warn; info] receives 3, the one on [trace]
    receives 4. *)
Theorem level_gate :
  (forall st e b now c,
     In c (route st e b now).1 ->
     level_index (msg_level e) <= highest_index (consumer_levels st c))
  /\ (forall st ws data now c e,
        In (Send c (Forward e)) (step st (Incoming ws data now)).2 ->
        is_str (msg_type e) "control_request" = false ->
        is_str (msg_type e) "control_result" = false ->
        level_index (msg_level e) <= highest_index (consumer_levels st c))
  /\ (forall st c, consumerSubscriptions st !! c = None ->
        consumer_levels st c = ["errors"])
  /\ let out := (run (startServer "s3cr3t" 0) level_scenario).2 in
     (received 1 out = 1 /\ received 2 out = 3 /\ received 3 out = 4)%nat.
Proof.
  split; [|split; [|split]].
  - intros st e b now c. apply route_loop_level.
  - intros st ws data now c e. apply on_message_level.
  - intros st c Hc. unfold consumer_levels. by rewrite Hc.
  - vm_compute. auto.
Qed.

Lemma level_gate_witness :
  In 2%nat (route (run (startServer "s3cr3t" 0) level_scenario).1
              (event_frame "console" "warn" "w") 0%nat 30).1
  /\ level_index (Some "warn")
     <= highest_index
          (consumer_levels (run (startServer "s3cr3t" 0) level_scenario).1 2%nat).
Proof.
  assert (H : In 2%nat (route (run (startServer "s3cr3t" 0) level_scenario).1
                          (event_frame "console" "warn" "w") 0%nat 30).1)
    by (vm_compute; auto).
  split; [exact H|].
  exact (proj1 level_gate _ _ _ _ _ H).
Defined.

(** *** Control correlation *)

Lemma forwarded_results_app i s l1 l2 :
  forwarded_results i s (l1 ++ l2) =
  (forwarded_results i s l1 + forwarded_results i s l2)%nat.
Proof.
  unfold forwarded_results. by rewrite List.filter_app, length_app.
Qed.

Lemma forwarded_results_other i s (m : Message) (l : list Sid) :
  is_str (msg_type m) "control_result" = false ->
  forwarded_results i s (List.map (fun c => Send c (Forward m)) l) = 0%nat.
Proof.
  intros Hm. unfold forwarded_results.
  induction l as [|c l IH]; [reflexivity|].
  cbn [List.map List.filter is_result_for]. rewrite Hm.
  by rewrite andb_false_r.
Qed.

Lemma is_str_exclusive (o : option string) (a b : string) :
  is_str o a = true -> a <> b -> is_str o b = false.
Proof.
  destruct o as [x|]; cbn [is_str]; [|discriminate].
  intros Ha Hne. apply String.eqb_eq in Ha. subst x.
  by apply String.eqb_neq.
Qed.

Lemma in_flight_window i s st w n :
  in_flight i s (set_window st w n) = in_flight i s st.
Proof. reflexivity. Qed.

Lemma in_flight_le_1 i s st : (in_flight i s st <= 1)%nat.
Proof.
  unfold in_flight. destruct (pendingControl st !! i) as [p|]; [|lia].
  destruct (Nat.eqb (replyTo p) s); lia.
Qed.

(** The shape of the result handler: at most one frame, to the recorded and
    open originator, and the entry is gone afterwards. *)
Lemma handle_control_result_cases st m :
  (handle_control_result st m = (st, [])
   /\ (pendingControl st !! msg_id m = None
       \/ exists p, pendingControl st !! msg_id m = Some p
                    /\ is_open st (replyTo p) = false))
  \/ (exists p, pendingControl st !! msg_id m = Some p
              /\ is_open st (replyTo p) = true
              /\ handle_control_result st m =
                 (set_pendingControl st (delete (msg_id m) (pendingControl st)),
                  [Send (replyTo p) (Forward m)])).
Proof.
  unfold handle_control_result.
  destruct (pendingControl st !! msg_id m) as [p|] eqn:Hp; [|left; auto].
  destruct (is_open st (replyTo p)) eqn:Ho; [right|left]; eauto.
Qed.

Lemma handle_control_result_budget st m i s :
  (forwarded_results i s (handle_control_result st m).2
   + in_flight i s (handle_control_result st m).1 <= in_flight i s st)%nat.
Proof.
  destruct (handle_control_result_cases st m) as [[-> _]|(p & Hp & Ho & ->)];
    cbn [fst snd]; [cbn; lia|].
  unfold forwarded_results, in_flight.
  cbn [List.filter is_result_for pendingControl set_pendingControl].
  rewrite lookup_delete. case_decide as Hid.
  - subst i. rewrite Hp, bool_decide_eq_true_2 by done.
    destruct (Nat.eqb (replyTo p) s); rewrite ?andb_false_l, ?andb_true_l;
      destruct (is_str (msg_type m) "control_result"); cbn; lia.
  - rewrite bool_decide_eq_false_2 by done. rewrite andb_false_r. cbn. lia.
Qed.

Lemma in_flight_insert st k p i s :
  (in_flight i s (set_pendingControl st (<[k := p]> (pendingControl st)))
   <= in_flight i s st
      + (if bool_decide (Some (k, replyTo p) = Some (i, s)) then 1 else 0))%nat.
Proof.
  unfold in_flight. cbn [pendingControl set_pendingControl].
  rewrite lookup_insert. case_decide as Hk.
  - subst k. destruct (Nat.eqb (replyTo p) s) eqn:Hs; [|lia].
    apply Nat.eqb_eq in Hs. subst s.
    rewrite bool_decide_eq_true_2 by done. lia.
  - lia.
Qed.

Lemma in_flight_drop st ws i s :
  (in_flight i s (set_pendingControl st (drop_pending_of ws (pendingControl st)))
   <= in_flight i s st)%nat.
Proof.
  unfold in_flight, drop_pending_of. cbn [pendingControl set_pendingControl].
  destruct (filter (fun kv => replyTo kv.2 <> ws) (pendingControl st) !! i)
    as [p|] eqn:Hf; [|lia].
  apply map_lookup_filter_Some in Hf as [Hp _]. by rewrite Hp.
Qed.

Ltac host_fields :=
  cbn [fst snd pendingControl readyState conns set_conns set_bridges set_consumers
       set_readyState set_window set_bridgeCapabilities set_consumerSubscriptions
       set_bridgeLastScreenshot set_pendingControl set_http ws_close on_connection] in *.

Ltac split_ifs :=
  repeat match goal with
         | |- context [if ?b then _ else _] => destruct b eqn:?
         end.

Lemma in_flight_ws_close i s st ws :
  in_flight i s (ws_close st ws) = in_flight i s st.
Proof. reflexivity. Qed.

Lemma in_flight_set_conns i s st m :
  in_flight i s (set_conns st m) = in_flight i s st.
Proof. reflexivity. Qed.

Lemma pending_route st m b now :
  pendingControl (route st m b now).2 = pendingControl st.
Proof. destruct (route_window st m b now) as (w & n & ->). reflexivity. Qed.

Lemma handle_auth_pending st ws m now i s :
  forwarded_results i s (handle_auth st ws m now).2 = 0%nat
  /\ in_flight i s (handle_auth st ws m now).1 = in_flight i s st.
Proof. unfold handle_auth. split_ifs; split; reflexivity. Qed.

Lemma handle_hello_pending st ws c m i s :
  forwarded_results i s (handle_hello st ws c m).2 = 0%nat
  /\ in_flight i s (handle_hello st ws c m).1 = in_flight i s st.
Proof. split; reflexivity. Qed.

Lemma handle_subscribe_pending st ws c m i s :
  forwarded_results i s (handle_subscribe st ws c m).2 = 0%nat
  /\ in_flight i s (handle_subscribe st ws c m).1 = in_flight i s st.
Proof. split; reflexivity. Qed.

Lemma handle_screenshot_pending st ws m now i s :
  is_str (msg_type m) "screenshot" = true ->
  forwarded_results i s (handle_screenshot st ws m now).2 = 0%nat
  /\ in_flight i s (handle_screenshot st ws m now).1 = in_flight i s st.
Proof.
  intros Hty. unfold handle_screenshot.
  destruct (negb _); [split; reflexivity|].
  destruct (screenshot_wait st ws now); [split; reflexivity|].
  pose proof (pending_route st m ws now) as Hp.
  destruct (route st m ws now) as [[|c0 cs] st1]; cbn [snd] in Hp.
  - split; [reflexivity|]. cbn [fst]. unfold in_flight. by rewrite Hp.
  - destruct (_ || _)%bool; cbn [fst snd].
    + split; [reflexivity|]. unfold in_flight. host_fields. by rewrite Hp.
    + split; [|unfold in_flight; host_fields; by rewrite Hp].
      apply forwarded_results_other. cbn [msg_type with_meta].
      eapply is_str_exclusive; [exact Hty|discriminate].
Qed.

Lemma handle_broadcast_pending st ws m now i s :
  is_str (msg_type m) "control_result" = false ->
  forwarded_results i s (handle_broadcast st ws m now).2 = 0%nat
  /\ in_flight i s (handle_broadcast st ws m now).1 = in_flight i s st.
Proof.
  intros Hty. unfold handle_broadcast.
  pose proof (pending_route st m ws now) as Hp.
  destruct (route st m ws now) as [targets st1]; cbn [fst snd] in *.
  split; [by apply forwarded_results_other|].
  unfold in_flight. by rewrite Hp.
Qed.

Lemma handle_bridge_control_request_budget st ws m now i s :
  is_str (msg_type m) "control_request" = true ->
  (forwarded_results i s (handle_bridge_control_request st ws m now).2
   + in_flight i s (handle_bridge_control_request st ws m now).1
   <= in_flight i s st
      + (if bool_decide
              (match (route st (with_level m "info") ws now).1 with
               | [] => None
               | _ => Some (msg_id m, ws)
               end = Some (i, s))
         then 1 else 0))%nat.
Proof.
  intros Hty. unfold handle_bridge_control_request.
  pose proof (pending_route st (with_level m "info") ws now) as Hp.
  destruct (route st (with_level m "info") ws now) as [[|c0 cs] st1];
    cbn [fst snd] in *.
  - unfold in_flight. rewrite Hp. cbn. lia.
  - rewrite (forwarded_results_other i s m (c0 :: cs))
      by (eapply is_str_exclusive; [exact Hty|discriminate]).
    pose proof (in_flight_insert st1 (msg_id m) (mkPending ws FromBridge) i s) as Hins.
    cbn [replyTo] in Hins.
    assert (in_flight i s st1 = in_flight i s st) as Heq
      by (unfold in_flight; by rewrite Hp).
    rewrite Heq in Hins. lia.
Qed.

Lemma handle_consumer_control_request_budget st ws c m now i s :
  (forwarded_results i s (handle_consumer_control_request st ws c m now).2
   + in_flight i s (handle_consumer_control_request st ws c m now).1
   <= in_flight i s st
      + (if bool_decide
              (match control_targets st with
               | [] => None
               | _ =>
                   Some (Some (or_else (msg_id m)
                                 (match clientId c with Some i => i | None => "null" end
                                  ++ "-" ++ show_Z now)), ws)
               end = Some (i, s))
         then 1 else 0))%nat.
Proof.
  destruct (handle_consumer_control_request_cases st ws c m now)
    as [[-> ->]|(Ht & objs & -> & _)]; cbn [fst snd].
  - cbn. lia.
  - rewrite forwarded_results_app, forwarded_results_other by reflexivity.
    match goal with
    | |- context [<[Some ?k := ?p]> _] =>
        pose proof (in_flight_insert st (Some k) p i s) as Hins
    end.
    cbn [replyTo] in Hins. cbn [forwarded_results List.filter is_result_for length].
    change (in_flight i s (set_http ?x _ _)) with (in_flight i s x).
    destruct (control_targets st); [done|]. lia.
Qed.

Lemma on_message_budget st ws data now i s :
  (forwarded_results i s (on_message st ws data now).2
   + in_flight i s (on_message st ws data now).1
   <= in_flight i s st
      + (if bool_decide (records st (Incoming ws data now) = Some (i, s))
         then 1 else 0))%nat.
Proof.
  unfold on_message, records.
  destruct (conns st !! ws) as [c|]; [|cbn; lia].
  destruct data as [err|m]; [cbn; rewrite in_flight_ws_close; lia|].
  destruct (isAuthenticated c); cbn [negb orb].
  2:{ destruct (handle_auth_pending st ws m now i s) as [-> ->]. cbn. lia. }
  destruct (is_str (msg_type m) "ping"); [cbn; lia|].
  destruct (is_str (role c) "bridge").
  - unfold handle_bridge.
    destruct (is_str (msg_type m) "hello") eqn:Hh; cbn [orb].
    { destruct (handle_hello_pending st ws c m i s) as [-> ->]. cbn. lia. }
    destruct (is_str (msg_type m) "control_result") eqn:Hr.
    { pose proof (handle_control_result_budget st m i s). cbn. lia. }
    destruct (is_str (msg_type m) "control_request") eqn:Hq.
    { by apply handle_bridge_control_request_budget. }
    destruct (is_str (msg_type m) "screenshot") eqn:Hs.
    { destruct (handle_screenshot_pending st ws m now i s Hs) as [-> ->]. cbn. lia. }
    destruct (handle_broadcast_pending st ws m now i s Hr) as [-> ->]. cbn. lia.
  - destruct (is_str (role c) "consumer"); [|cbn; lia].
    unfold handle_consumer.
    destruct (is_str (msg_type m) "subscribe").
    { destruct (handle_subscribe_pending st ws c m i s) as [-> ->]. cbn. lia. }
    destruct (is_str (msg_type m) "control_request" || is_str (msg_type m) "control")%bool.
    { apply handle_consumer_control_request_budget. }
    destruct (is_str (msg_type m) "control_result").
    { pose proof (handle_control_result_budget st m i s). cbn. lia. }
    cbn. lia.
Qed.

Lemma on_close_in_flight st ws i s :
  (in_flight i s (on_close st ws) <= in_flight i s st)%nat.
Proof.
  unfold on_close. destruct (conns st !! ws) as [c|]; [|lia].
  match goal with
  | |- context [set_pendingControl ?x _] =>
      pose proof (in_flight_drop x ws i s) as Hd;
      assert (in_flight i s x = in_flight i s st) as Heq
        by (split_ifs; reflexivity)
  end.
  rewrite Heq in Hd. exact Hd.
Qed.

Lemma step_budget st e i s :
  (forwarded_results i s (step st e).2 + in_flight i s (step st e).1
   <= in_flight i s st
      + (if bool_decide (records st e = Some (i, s)) then 1 else 0))%nat.
Proof.
  destruct e as [|ws data now|ws|ws|ws]; cbn [step].
  - change (in_flight i s (on_connection st, []).1) with (in_flight i s st).
    cbn. lia.
  - apply on_message_budget.
  - unfold on_auth_timeout. destruct (conns st !! ws) as [c|]; [|cbn; lia].
    split_ifs; cbn; rewrite ?in_flight_ws_close, ?in_flight_set_conns; lia.
  - unfold on_closing.
    destruct (conns st !! ws); cbn; rewrite ?in_flight_ws_close; lia.
  - pose proof (on_close_in_flight st ws i s). cbn. lia.
Qed.

Lemma run_budget es : forall st i s,
  (forwarded_results i s (run st es).2 + in_flight i s (run st es).1
   <= in_flight i s st + recordings i s st es)%nat.
Proof.
  induction es as [|e es IH]; intros st i s; cbn [run recordings].
  - cbn. lia.
  - pose proof (step_budget st e i s) as Hs.
    destruct (step st e) as [st1 out1]. cbn [fst snd] in *.
    specialize (IH st1 i s).
    destruct (run st1 es) as [st2 out2]. cbn [fst snd] in *.
    rewrite forwarded_results_app. lia.
Qed.

Lemma in_map_forward s m m0 (l : list Sid) :
  In (Send s (Forward m)) (List.map (fun c => Send c (Forward m0)) l) ->
  m = m0 /\ In s l.
Proof.
  intros H. apply in_map_iff in H as (c & Heq & Hin). by inversion Heq; subst.
Qed.

Lemma not_result (m : Message) (t : string) :
  is_str (msg_type m) t = true -> t <> "control_result" ->
  is_str (msg_type m) "control_result" = true -> False.
Proof.
  intros Ht Hne Hr. rewrite (is_str_exclusive _ _ _ Ht Hne) in Hr. discriminate.
Qed.

(** A forwarded [control_result] can only come from the result handler. *)
Lemma on_message_result_forward st ws data now s m :
  In (Send s (Forward m)) (on_message st ws data now).2 ->
  is_str (msg_type m) "control_result" = true ->
  exists p, pendingControl st !! msg_id m = Some p /\ replyTo p = s
            /\ is_open st s = true
            /\ pendingControl (on_message st ws data now).1 !! msg_id m = None.
Proof.
  intros Hin Hm. unfold on_message in *.
  destruct (conns st !! ws) as [c|]; [|destruct Hin].
  destruct data as [err|m0].
  { cbn in Hin. destruct Hin as [|[|[]]]; discriminate. }
  assert (Hres : In (Send s (Forward m)) (handle_control_result st m0).2 ->
          exists p, pendingControl st !! msg_id m = Some p /\ replyTo p = s
            /\ is_open st s = true
            /\ pendingControl (handle_control_result st m0).1 !! msg_id m = None).
  { destruct (handle_control_result_cases st m0) as [[-> _]|(p & Hp & Ho & ->)];
      cbn [fst snd]; [intros []|].
    intros [Heq|[]]. inversion Heq; subst. exists p. repeat split; auto.
    host_fields. apply lookup_delete_eq. }
  destruct (negb (isAuthenticated c)).
  { unfold handle_auth in Hin. revert Hin. split_ifs; cbn; intros [|[]]; discriminate. }
  destruct (is_str (msg_type m0) "ping"); [destruct Hin as [|[]]; discriminate|].
  destruct (is_str (role c) "bridge").
  - unfold handle_bridge in *.
    destruct (is_str (msg_type m0) "hello");
      [destruct Hin as [|[]]; discriminate|].
    destruct (is_str (msg_type m0) "control_result") eqn:Hr; [auto|].
    destruct (is_str (msg_type m0) "control_request") eqn:Hq.
    { exfalso. unfold handle_bridge_control_request in Hin.
      destruct (route st (with_level m0 "info") ws now) as [[|c0 cs] st1];
        cbn [snd] in Hin; [destruct Hin as [|[]]; discriminate|].
      apply in_map_forward in Hin as [-> _].
      exact (not_result m0 "control_request" Hq ltac:(discriminate) Hm). }
    destruct (is_str (msg_type m0) "screenshot") eqn:Hs.
    { exfalso. unfold handle_screenshot in Hin.
      destruct (negb _); [destruct Hin as [|[]]; discriminate|].
      destruct (screenshot_wait st ws now); [destruct Hin as [|[]]; discriminate|].
      destruct (route st m0 ws now) as [[|c0 cs] st1];
        cbn [snd] in Hin; [destruct Hin as [|[]]; discriminate|].
      destruct (_ || _)%bool; cbn [snd] in Hin;
        [destruct Hin as [|[]]; discriminate|].
      apply in_map_forward in Hin as [-> _]. cbn [msg_type with_meta] in Hm.
      exact (not_result m0 "screenshot" Hs ltac:(discriminate) Hm). }
    exfalso. unfold handle_broadcast in Hin.
    destruct (route st m0 ws now) as [targets st1]; cbn [snd] in Hin.
    apply in_map_forward in Hin as [-> _]. congruence.
  - destruct (is_str (role c) "consumer"); [|destruct Hin].
    unfold handle_consumer in *.
    destruct (is_str (msg_type m0) "subscribe");
      [destruct Hin as [|[]]; discriminate|].
    destruct (is_str (msg_type m0) "control_request" || is_str (msg_type m0) "control")%bool.
    { exfalso.
      destruct (handle_consumer_control_request_cases st ws c m0 now)
        as [[_ Hh]|(_ & objs & Hh & _)]; rewrite Hh in Hin; cbn [snd] in Hin;
        [destruct Hin as [|[]]; discriminate|].
      apply in_app_or in Hin as [Hin|[|[]]]; [|discriminate].
      apply in_map_forward in Hin as [-> _]. discriminate. }
    destruct (is_str (msg_type m0) "control_result"); [auto|destruct Hin].
Qed.

Lemma step_result_forward st e s m :
  In (Send s (Forward m)) (step st e).2 ->
  is_str (msg_type m) "control_result" = true ->
  exists p, pendingControl st !! msg_id m = Some p /\ replyTo p = s
            /\ is_open st s = true
            /\ pendingControl (step st e).1 !! msg_id m = None.
Proof.
  destruct e as [|ws data now|ws|ws|ws]; cbn [step snd];
    try (intros []; fail).
  - apply on_message_result_forward.
  - unfold on_auth_timeout. destruct (conns st !! ws) as [c|]; [|intros []].
    split_ifs; cbn; try (intros []; fail). intros [|[]]; discriminate.
Qed.

(** A result whose id has no pending entry is ignored, by a bridge's and by
    a consumer's connection alike. *)
Lemma late_result_ignored st ws c m now :
  conns st !! ws = Some c -> isAuthenticated c = true ->
  is_str (msg_type m) "control_result" = true ->
  pendingControl st !! msg_id m = None ->
  on_message st ws (Parsed m) now = (st, []).
Proof.
  intros Hc Ha Hm Hp. unfold on_message. rewrite Hc, Ha. cbn [negb].
  assert (Hx : forall t, t <> "control_result" -> is_str (msg_type m) t = false).
  { intros t Hne. eapply is_str_exclusive; eauto. }
  rewrite (Hx "ping") by discriminate.
  assert (Hr : handle_control_result st m = (st, []))
    by (unfold handle_control_result; by rewrite Hp).
  destruct (is_str (role c) "bridge").
  - unfold handle_bridge. rewrite (Hx "hello") by discriminate. by rewrite Hm.
  - destruct (is_str (role c) "consumer"); [|reflexivity].
    unfold handle_consumer.
    rewrite (Hx "subscribe"), (Hx "control_request"), (Hx "control") by discriminate.
    cbn [orb]. by rewrite Hm.
Qed.

Lemma close_drops_pending st ws c i p :
  conns st !! ws = Some c ->
  pendingControl (on_close st ws) !! i = Some p -> replyTo p <> ws.
Proof.
  intros Hc. unfold on_close. rewrite Hc. host_fields.
  unfold drop_pending_of. intros H.
  apply map_lookup_filter_Some in H as [_ H]. exact H.
Qed.

(** [records] describes the calls of [pendingControl.set] exactly. *)
Lemma handle_screenshot_pendingControl st ws m now :
  pendingControl (handle_screenshot st ws m now).1 = pendingControl st.
Proof.
  unfold handle_screenshot.
  destruct (negb _); [reflexivity|].
  destruct (screenshot_wait st ws now); [reflexivity|].
  pose proof (pending_route st m ws now) as Hp.
  destruct (route st m ws now) as [[|c0 cs] st1]; cbn [fst snd] in *; [exact Hp|].
  destruct (_ || _)%bool; exact Hp.
Qed.

Lemma handle_broadcast_pendingControl st ws m now :
  pendingControl (handle_broadcast st ws m now).1 = pendingControl st.
Proof.
  unfold handle_broadcast. pose proof (pending_route st m ws now) as Hp.
  by destruct (route st m ws now) as [targets st1].
Qed.

Lemma handle_control_result_pendingControl st m i p :
  pendingControl (handle_control_result st m).1 !! i = Some p ->
  pendingControl st !! i = Some p.
Proof.
  destruct (handle_control_result_cases st m) as [[-> _]|(q & _ & _ & ->)];
    cbn [fst]; [auto|].
  host_fields. intros H. by apply lookup_delete_Some in H as [_ H].
Qed.

Lemma records_sound st e i s :
  records st e = Some (i, s) ->
  exists o, pendingControl (step st e).1 !! i = Some (mkPending s o).
Proof.
  destruct e as [|ws data now|ws|ws|ws]; cbn [records]; try discriminate.
  destruct data as [err|m]; [discriminate|].
  cbn [step]. unfold on_message.
  destruct (conns st !! ws) as [c|]; [|discriminate].
  destruct (isAuthenticated c); cbn [negb orb]; [|discriminate].
  destruct (is_str (msg_type m) "ping"); [discriminate|].
  destruct (is_str (role c) "bridge").
  - unfold handle_bridge.
    destruct (is_str (msg_type m) "hello"); cbn [orb]; [discriminate|].
    destruct (is_str (msg_type m) "control_result"); [discriminate|].
    destruct (is_str (msg_type m) "control_request"); [|discriminate].
    unfold handle_bridge_control_request.
    destruct (route st (with_level m "info") ws now) as [[|c0 cs] st1];
      cbn [fst]; [discriminate|].
    intros [= <- <-]. exists FromBridge. host_fields. apply lookup_insert_eq.
  - destruct (is_str (role c) "consumer"); [|discriminate].
    unfold handle_consumer.
    destruct (is_str (msg_type m) "subscribe"); [discriminate|].
    destruct (is_str (msg_type m) "control_request" || is_str (msg_type m) "control")%bool;
      [|discriminate].
    destruct (handle_consumer_control_request_cases st ws c m now)
      as [[-> _]|(Ht & objs & -> & _)]; [discriminate|].
    destruct (control_targets st) as [|b0 bs]; [done|].
    intros [= <- <-]. exists FromConsumer. cbn [fst pendingControl set_http set_pendingControl].
    apply lookup_insert_eq.
Qed.

Lemma records_complete st e i p :
  records st e = None ->
  pendingControl (step st e).1 !! i = Some p ->
  pendingControl st !! i = Some p.
Proof.
  destruct e as [|ws data now|ws|ws|ws]; cbn [records step fst]; intros Hr.
  - auto.
  - revert Hr. unfold on_message.
    destruct (conns st !! ws) as [c|]; [|auto].
    destruct data as [err|m]; [auto|].
    destruct (isAuthenticated c); cbn [negb orb].
    2:{ intros _. unfold handle_auth. split_ifs; auto. }
    destruct (is_str (msg_type m) "ping"); [auto|].
    destruct (is_str (role c) "bridge").
    + unfold handle_bridge.
      destruct (is_str (msg_type m) "hello"); cbn [orb]; [auto|].
      destruct (is_str (msg_type m) "control_result");
        [intros _; apply handle_control_result_pendingControl|].
      destruct (is_str (msg_type m) "control_request").
      { unfold handle_bridge_control_request.
        pose proof (pending_route st (with_level m "info") ws now) as Hp.
        destruct (route st (with_level m "info") ws now) as [[|c0 cs] st1];
          cbn [fst snd] in *; [|discriminate].
        intros _. by rewrite Hp. }
      destruct (is_str (msg_type m) "screenshot"); intros _.
      * by rewrite handle_screenshot_pendingControl.
      * by rewrite handle_broadcast_pendingControl.
    + destruct (is_str (role c) "consumer"); [|auto].
      unfold handle_consumer.
      destruct (is_str (msg_type m) "subscribe"); [auto|].
      destruct (is_str (msg_type m) "control_request" || is_str (msg_type m) "control")%bool.
      { destruct (handle_consumer_control_request_cases st ws c m now)
          as [[-> ->]|(Ht & _)]; [auto|].
        destruct (control_targets st) as [|b0 bs]; [done|discriminate]. }
      destruct (is_str (msg_type m) "control_result");
        [intros _; apply handle_control_result_pendingControl|auto].
  - unfold on_auth_timeout. destruct (conns st !! ws) as [c|]; [|auto].
    split_ifs; auto.
  - unfold on_closing. destruct (conns st !! ws); auto.
  - unfold on_close. destruct (conns st !! ws) as [c|]; [|auto].
    host_fields. unfold drop_pending_of. intros H.
    apply map_lookup_filter_Some in H as [H _]. revert H.
    split_ifs; auto.
Qed.

(** *** The capability gate and a bridge without hello *)

Lemma bridgeHasCapability_undefined cap : bridgeHasCapability None cap = false.
Proof. unfold bridgeHasCapability. by destruct (String.eqb _ _). Qed.

Lemma gated_needs_hello st c e b now :
  bridgeCapabilities st !! b = None ->
  is_gated_type (lower_string (or_else (msg_type e) "")) = true ->
  (shouldRouteToConsumer st c e b now).1 = false.
Proof.
  intros Hb Hg. unfold shouldRouteToConsumer. rewrite Hg.
  assert (Hw : forall st', (exists w n, st' = set_window st w n) ->
                 bridgeCapabilities st' !! b = None)
    by (intros st' (w & n & ->); exact Hb).
  destruct (consumerSubscriptions st !! c) as [s|].
  - pose proof (filterEvent_window st e s now) as Hf.
    destruct (filterEventForConsumer st e s now) as [ok st']. cbn [snd] in Hf.
    rewrite (Hw st' Hf). cbn [fmap option_fmap option_map].
    rewrite bridgeHasCapability_undefined. cbn [negb]. split_ifs; reflexivity.
  - rewrite Hb. cbn [fmap option_fmap option_map].
    rewrite bridgeHasCapability_undefined. cbn [negb]. split_ifs; reflexivity.
Qed.

(** C4.  Capability gate with no hello.  The code does not skip the
    bridge-side check: with bridge 0 authenticated but without hello and
    consumer 1 subscribed to [info] with no capability filter, a pageview
    event of level info passes the consumer-side gates, yet
    [shouldRouteToConsumer] answers false and nothing is forwarded; the same
    holds for each of the five gated types. *)
Theorem no_hello_gated_event_not_delivered :
  let st := (run (startServer "s3cr3t" 0) no_hello_scenario).1 in
  bridgeCapabilities st !! 0%nat = None
  /\ subscriptionIncludesLevel (Some (consumer_levels st 1%nat)) (Some "info") = true
  /\ consumerWantsCapability (sub_capabilities <$> consumerSubscriptions st !! 1%nat)
       "pageview" = true
  /\ (shouldRouteToConsumer st 1%nat (event_frame "pageview" "info" "p") 0%nat 20).1 = false
  /\ (on_message st 0%nat (Parsed (event_frame "pageview" "info" "p")) 20).2 = []
  /\ List.map (fun t => (on_message st 0%nat (Parsed (event_frame t "info" "p")) 20).2)
       ["pageview"; "control"; "network"; "navigation"] = [[]; []; []; []]
  /\ (on_message st 0%nat (Parsed (event_frame "console" "info" "p")) 20).2
     = [Send 1%nat (Forward (event_frame "console" "info" "p"))].
Proof. vm_compute. repeat split; reflexivity. Qed.

(** *** Frames that fail to process *)


(** *** The screenshot rate-limit clock *)

(** C6.  The clock is set before the shape check.  Bridge 0 advertises
    [screenshot], consumer 1 wants it, the clock is unset.  A screenshot
    without mime and data at time 5000 is rejected with invalid_format and
    forwarded to nobody, yet the clock now reads 5000, so a well-formed
    screenshot at 5500 is rejected with rate_limit (retry after 1500 ms);
    the same well-formed screenshot is forwarded when the malformed one
    was never sent. *)
Theorem invalid_screenshot_moves_rate_clock :
  let st := (run (startServer "s3cr3t" 0) screenshot_scenario).1 in
  let bad := screenshot_frame None None in
  let good := screenshot_frame (Some "image/png") (Some "aGVsbG8=") in
  let st1 := (on_message st 0%nat (Parsed bad) 5000).1 in
  bridgeLastScreenshot st !! 0%nat = None
  /\ (on_message st 0%nat (Parsed bad) 5000).2
     = [Send 0%nat (RateLimitNotice "invalid_format" None
                      "Screenshot missing required fields: mime, data")]
  /\ bridgeLastScreenshot st1 !! 0%nat = Some 5000
  /\ (on_message st1 0%nat (Parsed good) 5500).2
     = [Send 0%nat (RateLimitNotice "rate_limit" (Some 1500)
                      "Screenshot rate limit: wait 2s before next screenshot")]
  /\ (on_message st 0%nat (Parsed good) 5500).2
     = [Send 1%nat (Forward (with_meta good 5500 "web" "info" "Screenshot: unknown"))].
Proof. vm_compute. repeat split; reflexivity. Qed.

(** *** Subscriptions with an empty list of levels *)





(** *** Authentication without a role *)

Lemma in_set_add x s : In x (set_add x s).
Proof.
  unfold set_add. destruct (existsb (Nat.eqb x) s) eqn:He.
  - apply existsb_exists in He as (y & Hy & Heq).
    apply Nat.eqb_eq in Heq. by subst y.
  - apply in_or_app. right. by left.
Qed.

(** C10.  Auth role default.  On a connection that is not yet authenticated,
    an auth frame with the right secret and no role is accepted: the only
    effect is auth_success with role "bridge", the socket joins [bridges],
    the connection is authenticated as a bridge and stays open.  With the
    right secret the host closes the socket exactly when the role is a
    non-empty string other than "bridge" and "consumer", and then with code
    1008 and reason "Invalid role: <role>". *)
Theorem auth_without_role_is_bridge :
  forall st ws c m now,
    conns st !! ws = Some c ->
    isAuthenticated c = false ->
    msg_type m = Some "auth" ->
    msg_secret m = Some (secret st) ->
    (msg_role m = None ->
     let cid := or_else (msg_clientId m) ("bridge-" ++ show_Z now) in
     let r := on_message st ws (Parsed m) now in
     r.2 = [Send ws (AuthSuccess "bridge" cid)]
     /\ In ws (bridges r.1)
     /\ conns r.1 !! ws = Some (mkConn true (Some "bridge") (Some cid) false)
     /\ readyState r.1 = readyState st)
    /\ (forall code reason,
          In (Close ws code reason) (on_message st ws (Parsed m) now).2
          <-> exists r, msg_role m = Some r /\ r <> "" /\ r <> "bridge"
                        /\ r <> "consumer" /\ code = 1008
                        /\ reason = "Invalid role: " ++ r).
Proof.
  intros st ws c m now Hc Ha Ht Hs.
  unfold on_message, handle_auth. rewrite Hc, Ha, Ht, Hs. cbn [negb is_str].
  rewrite !String.eqb_refl. split.
  - intros Hr. rewrite Hr. cbn [or_else]. cbn [String.eqb Ascii.eqb Bool.eqb].
    cbn [fst snd]. repeat split.
    + cbn [bridges set_bridges]. apply in_set_add.
    + cbn [conns set_bridges set_conns]. by rewrite lookup_insert_eq.
  - intros code reason.
    destruct (msg_role m) as [r|]; cbn [or_else].
    + destruct (String.eqb r "") eqn:He.
      * apply String.eqb_eq in He. subst r. cbn [String.eqb Ascii.eqb Bool.eqb snd].
        split; [intros [|[]]; discriminate|].
        intros (r & Hr & Hne & _). congruence.
      * apply String.eqb_neq in He.
        destruct (String.eqb r "bridge") eqn:Hb.
        { apply String.eqb_eq in Hb. cbn [snd].
          split; [intros [|[]]; discriminate|].
          intros (r' & Hr & _ & Hnb & _). congruence. }
        apply String.eqb_neq in Hb.
        destruct (String.eqb r "consumer") eqn:Hco.
        { apply String.eqb_eq in Hco. cbn [snd].
          split; [intros [|[]]; discriminate|].
          intros (r' & Hr & _ & _ & Hnc & _). congruence. }
        apply String.eqb_neq in Hco. cbn [snd]. split.
        { intros [Heq|[]]. inversion Heq; subst. exists r. repeat split; auto. }
        intros (r' & Hr & _ & _ & _ & -> & ->). inversion Hr; subst. by left.
    + cbn [String.eqb Ascii.eqb Bool.eqb snd].
      split; [intros [|[]]; discriminate|].
      intros (r & Hr & _). discriminate.
Qed.

Lemma auth_without_role_is_bridge_witness :
  let st := on_connection (startServer "s3cr3t" 0) in
  (on_message st 0%nat (Parsed (auth_without_role "s3cr3t")) 10).2
  = [Send 0%nat (AuthSuccess "bridge" "bridge-10")].
Proof.
  intros st.
  assert (Hc : conns st !! 0%nat = Some (mkConn false None None true))
    by (vm_compute; reflexivity).
  exact (proj1 (proj1 (auth_without_role_is_bridge st 0%nat _
                         (auth_without_role "s3cr3t") 10 Hc eq_refl eq_refl eq_refl)
                  eq_refl)).
Defined.

End HostProofs.

(** ** Facts about the bridge client *)

Module ClientProofs.
Import Js Client ClientSpec.

Ltac client_fields :=
  cbn [fst snd cfg ws reconnectTimeout reconnectDelay heartbeatInterval heartbeatTimeout
       helloSent controlHandler buffer dropped promise calls
       set_ws set_reconnectTimeout set_reconnectDelay set_heartbeat set_helloSent
       set_controlHandler set_buffer set_promise set_calls] in *.

Ltac split_ifs :=
  repeat match goal with
         | |- context [if ?b then _ else _] => destruct b eqn:?
         | |- context [match ?x with _ => _ end] => destruct x eqn:?
         end.

(** *** The outbound buffer *)

Lemma enqueue_cfg st ev : cfg (enqueue st ev) = cfg st.
Proof. unfold enqueue. by destruct (_ <=? _)%nat. Qed.

Lemma enqueue_bounded st ev :
  (1 <= bufferLimit (cfg st))%nat ->
  (length (buffer st) <= bufferLimit (cfg st))%nat ->
  (length (buffer (enqueue st ev)) <= bufferLimit (cfg st))%nat.
Proof.
  intros H1 Hb. unfold enqueue.
  destruct (bufferLimit (cfg st) <=? length (buffer st))%nat eqn:Hfull;
    client_fields; rewrite length_app; cbn [length].
  - apply Nat.leb_le in Hfull. destruct (buffer st); cbn [tl length] in *; lia.
  - apply Nat.leb_gt in Hfull. lia.
Qed.

Lemma enqueue_at_capacity st ev :
  (1 <= bufferLimit (cfg st))%nat ->
  length (buffer st) = bufferLimit (cfg st) ->
  buffer (enqueue st ev) = (tl (buffer st) ++ [ev])%list
  /\ dropped (enqueue st ev) = (dropped st + 1)%nat
  /\ length (buffer (enqueue st ev)) = bufferLimit (cfg st).
Proof.
  intros H1 Hfull. unfold enqueue.
  rewrite <- Hfull, Nat.leb_refl. client_fields.
  repeat split. rewrite length_app. cbn [length].
  destruct (buffer st); cbn [tl length] in *; lia.
Qed.

Lemma flushBuffer_buffer st :
  (length (buffer (flushBuffer st).1) <= length (buffer st))%nat
  /\ cfg (flushBuffer st).1 = cfg st.
Proof.
  unfold flushBuffer. destruct (negb (ready st)); [split; reflexivity|].
  destruct (0 <? dropped st)%nat; client_fields; cbn [length];
    split; (reflexivity || lia).
Qed.

Lemma sendHello_buffer st :
  buffer (sendHello st).1 = buffer st /\ cfg (sendHello st).1 = cfg st.
Proof. unfold sendHello. destruct (helloSent st); split; reflexivity. Qed.

Lemma step_buffer st e :
  (1 <= bufferLimit (cfg st))%nat ->
  (length (buffer st) <= bufferLimit (cfg st))%nat ->
  cfg (step st e).1 = cfg st
  /\ (length (buffer (step st e).1) <= bufferLimit (cfg st))%nat.
Proof.
  intros H1 Hb. destruct e; cbn [step].
  - split; [reflexivity|exact Hb].
  - unfold onopen.
    set (st2 := startHeartbeat _).
    assert (Hst2 : buffer st2 = buffer st /\ cfg st2 = cfg st)
      by (unfold st2, socket_state; destruct (ws st); split; reflexivity).
    destruct Hst2 as [Hb2 Hc2].
    pose proof (sendHello_buffer st2) as [Hb3 Hc3].
    destruct (sendHello st2) as [st3 hello]. cbn [fst] in *.
    pose proof (flushBuffer_buffer st3) as [Hb4 Hc4].
    destruct (flushBuffer st3) as [st4 flushed]. cbn [fst] in *.
    rewrite Hb3, Hb2 in Hb4. rewrite Hc3, Hc2 in Hc4.
    destruct (promise st4); client_fields; split; (exact Hc4 || lia).
  - unfold onerror. split_ifs; split; (reflexivity || exact Hb).
  - unfold catch_runs. split_ifs; split; (reflexivity || exact Hb).
  - unfold onclose, scheduleReconnect, socket_state.
    split_ifs; split; (reflexivity || exact Hb).
  - unfold reconnect_fires. split_ifs; split; (reflexivity || exact Hb).
  - unfold handleIncoming, resetHeartbeatTimeout.
    split_ifs; split; (reflexivity || exact Hb).
  - unfold send. destruct (validateAndRedact event) as [safe|];
      [|split; [reflexivity|exact Hb]].
    destruct (ready st); cbn [fst]; [split; [reflexivity|exact Hb]|].
    split; [apply enqueue_cfg|by apply enqueue_bounded].
  - unfold disconnect. split_ifs; split; (reflexivity || exact Hb).
  - unfold sendPing. split_ifs; split; (reflexivity || exact Hb).
  - unfold heartbeat_expires. split_ifs; split; (reflexivity || exact Hb).
  - split; [reflexivity|exact Hb].
  - unfold control_settles. split_ifs; split; (reflexivity || exact Hb).
Qed.

Lemma run_buffer es : forall st,
  (1 <= bufferLimit (cfg st))%nat ->
  (length (buffer st) <= bufferLimit (cfg st))%nat ->
  cfg (run st es).1 = cfg st
  /\ (length (buffer (run st es).1) <= bufferLimit (cfg st))%nat.
Proof.
  induction es as [|e es IH]; intros st H1 Hb; cbn [run]; [auto|].
  pose proof (step_buffer st e H1 Hb) as [Hc Hl].
  destruct (step st e) as [st1 out1]. cbn [fst] in *.
  rewrite <- Hc in H1, Hl. specialize (IH st1 H1 Hl).
  destruct (run st1 es) as [st2 out2]. cbn [fst] in *.
  rewrite <- Hc. exact IH.
Qed.

Lemma wire_app l1 l2 : wire (l1 ++ l2) = (wire l1 ++ wire l2)%list.
Proof. unfold wire. apply omap_app. Qed.

Lemma wire_events (l : list BridgeEvent) :
  wire (List.map (fun ev => Tx (FEvent ev)) l) = List.map FEvent l.
Proof. induction l as [|x l IH]; [reflexivity|]. cbn. f_equal. exact IH. Qed.

(** What the open handler writes when the client still holds the socket. *)
Lemma open_flushes st r :
  ws st = Some r ->
  wire (step st Open).2 =
    ([auth_of (cfg st); hello_of (cfg st)] ++ List.map FEvent (buffer st)
     ++ (if (0 <? dropped st)%nat then [drop_notice (dropped st)] else []))%list
  /\ buffer (step st Open).1 = []
  /\ dropped (step st Open).1 = 0%nat.
Proof.
  intros Hws. cbn [step]. unfold onopen, socket_state. rewrite Hws.
  unfold startHeartbeat, stopHeartbeat, sendHello, sendRaw, flushBuffer, ready.
  client_fields. cbn [Z.eqb Pos.eqb negb].
  destruct (0 <? dropped st)%nat eqn:Hd; client_fields.
  - split; [rewrite !wire_app, wire_events; reflexivity|].
    destruct (promise st); split; reflexivity.
  - apply Nat.ltb_ge in Hd.
    split; [rewrite !wire_app, wire_events, app_nil_r; reflexivity|].
    destruct (promise st); client_fields; split; (reflexivity || lia).
Qed.

(** C3.  Outbound buffer.  For a buffer limit of at least one (the class
    fixes it to BUFFER_LIMIT = 200): (1) after every run the buffer holds at
    most [bufferLimit] events; (2) an enqueue at capacity drops the oldest
    event, appends the new one and adds one to [dropped]; (3) when the socket
    opens, the client writes auth, hello, the buffered events oldest first
    and, if [dropped > 0], one notice "bridge buffered drop count=N" with
    N = [dropped], after which the buffer is empty and [dropped] is zero;
    (4) with limit 3 and events m0..m4 sent while disconnected, the host
    receives auth, hello, m2, m3, m4 and the notice with count=2. *)
Theorem outbound_buffer_bounded_and_flushed :
  (forall c es, (1 <= bufferLimit c)%nat ->
     (length (buffer (run (new_client c) es).1) <= bufferLimit c)%nat)
  /\ (forall st ev, (1 <= bufferLimit (cfg st))%nat ->
        length (buffer st) = bufferLimit (cfg st) ->
        buffer (enqueue st ev) = (tl (buffer st) ++ [ev])%list
        /\ dropped (enqueue st ev) = (dropped st + 1)%nat
        /\ length (buffer (enqueue st ev)) = bufferLimit (cfg st))
  /\ (forall st r, ws st = Some r ->
        wire (step st Open).2 =
          ([auth_of (cfg st); hello_of (cfg st)] ++ List.map FEvent (buffer st)
           ++ (if (0 <? dropped st)%nat then [drop_notice (dropped st)] else []))%list
        /\ buffer (step st Open).1 = []
        /\ dropped (step st Open).1 = 0%nat)
  /\ (BUFFER_LIMIT = 200%nat
      /\ forall c, bufferLimit (default_config (url c) (secret c) (capabilities c)
                                  (platform c) (projectId c) (window_location c))
                   = BUFFER_LIMIT)
  /\ wire (run (new_client (test_config 3)) buffer_scenario).2 =
       [ FAuth "secret" "bridge";
         FHello ["console"] "web" None 2 None None;
         FEvent (console_event "m2"); FEvent (console_event "m3");
         FEvent (console_event "m4");
         FNotice "info" "info" "bridge buffered drop count=2" ].
Proof.
  split; [|split; [|split; [|split]]].
  - intros c es H1.
    destruct (run_buffer es (new_client c)) as [_ H]; cbn; auto; lia.
  - apply enqueue_at_capacity.
  - apply open_flushes.
  - split; reflexivity.
  - vm_compute. reflexivity.
Qed.

Lemma outbound_buffer_witness :
  (1 <= bufferLimit (test_config 3))%nat
  /\ (length (buffer (run (new_client (test_config 3))
                        [Send (console_event "m0"); Send (console_event "m1");
                         Send (console_event "m2"); Send (console_event "m3")]).1)
      <= bufferLimit (test_config 3))%nat.
Proof.
  assert (H : (1 <= bufferLimit (test_config 3))%nat) by (cbn; lia).
  split; [exact H|].
  exact (proj1 outbound_buffer_bounded_and_flushed (test_config 3) _ H).
Defined.

(** *** The handshake *)

Lemma no_hello_follows p l : no_hello l = true -> hello_follows_auth p l = true.
Proof.
  revert p. induction l as [|f l IH]; intros p; [reflexivity|].
  cbn [no_hello forallb hello_follows_auth]. intros H.
  apply andb_prop in H as [Hf Hl]. rewrite (IH _ Hl).
  destruct (is_hello f); [discriminate|reflexivity].
Qed.

Lemma hello_follows_auth_app l1 : forall p l2,
  hello_follows_auth p l1 = true ->
  (forall q, hello_follows_auth q l2 = true) ->
  hello_follows_auth p (l1 ++ l2) = true.
Proof.
  induction l1 as [|f l1 IH]; intros p l2 H1 H2; [apply H2|].
  cbn [app hello_follows_auth] in *.
  apply andb_prop in H1 as [Hf Hl]. rewrite Hf. cbn [andb]. by apply IH.
Qed.

Lemma no_hello_sendRaw st f : is_hello f = false -> no_hello (wire (sendRaw st f)) = true.
Proof. intros Hf. unfold sendRaw. destruct (ready st); cbn; by rewrite ?Hf. Qed.

Lemma no_hello_flush st : no_hello (wire (flushBuffer st).2) = true.
Proof.
  unfold flushBuffer. destruct (negb (ready st)); [reflexivity|].
  assert (He : no_hello (List.map FEvent (buffer st)) = true)
    by (induction (buffer st) as [|x l IH]; [reflexivity|exact IH]).
  destruct (0 <? dropped st)%nat; cbn [snd];
    rewrite ?wire_app, wire_events; [|exact He].
  unfold no_hello in *. rewrite forallb_app, He. reflexivity.
Qed.

Lemma onopen_follows st p : hello_follows_auth p (wire (onopen st).2) = true.
Proof.
  unfold onopen.
  set (st2 := startHeartbeat _).
  assert (Hh : helloSent st2 = false) by reflexivity.
  unfold sendHello. rewrite Hh.
  pose proof (no_hello_flush (set_helloSent st2 true)) as Hf.
  destruct (flushBuffer (set_helloSent st2 true)) as [st4 flushed].
  cbn [snd] in *. unfold sendRaw.
  destruct (ready st2); cbn [app]; rewrite ?wire_app.
  - cbn [wire omap list_omap hello_follows_auth is_hello is_auth andb app].
    fold (wire flushed). by apply no_hello_follows.
  - by apply no_hello_follows.
Qed.

Lemma step_follows st e p : hello_follows_auth p (wire (step st e).2) = true.
Proof.
  destruct e; cbn [step]; try reflexivity.
  - apply onopen_follows.
  - unfold handleIncoming. destruct raw as [|msg]; [reflexivity|].
    apply no_hello_follows.
    split_ifs; cbn [snd]; try reflexivity; by apply no_hello_sendRaw.
  - unfold send. split_ifs; reflexivity.
  - unfold disconnect. split_ifs; reflexivity.
  - destruct (heartbeatInterval st); [|reflexivity].
    apply no_hello_follows. by apply no_hello_sendRaw.
  - unfold heartbeat_expires. split_ifs; reflexivity.
  - unfold control_settles. destruct (calls st !! i); [|reflexivity].
    apply no_hello_follows. apply no_hello_sendRaw. by destruct o.
Qed.

Lemma run_follows es : forall st p, hello_follows_auth p (wire (run st es).2) = true.
Proof.
  induction es as [|e es IH]; intros st p; cbn [run]; [reflexivity|].
  pose proof (step_follows st e p) as Hs.
  destruct (step st e) as [st1 out1]. specialize (IH st1).
  destruct (run st1 es) as [st2 out2]. cbn [snd] in *.
  rewrite wire_app. by apply hello_follows_auth_app.
Qed.

(** C7 as stated fails: the socket opens, no auth_success has arrived (the
    host has not sent anything), and hello is already on the wire. *)
Lemma hello_sent_before_auth_success :
  auth_success_seen [Connect; Open] = false
  /\ wire (run (new_client (test_config 3)) [Connect; Open]).2
     = [FAuth "secret" "bridge"; FHello ["console"] "web" None 2 None None].
Proof. vm_compute. split; reflexivity. Qed.

(** C7, amended.  The client writes auth and then hello back to back in its
    open handler and does not wait for auth_success: in every run each hello
    frame directly follows an auth frame; the open handler of a client that
    holds its socket writes both before anything else; and an incoming
    auth_success frame changes nothing and is answered by nothing. *)
Theorem hello_directly_follows_auth :
  (forall c es, hello_follows_auth false (wire (run (new_client c) es).2) = true)
  /\ (forall st r, ws st = Some r ->
        exists rest,
          wire (step st Open).2 = auth_of (cfg st) :: hello_of (cfg st) :: rest)
  /\ (forall st m, is_str (in_type m) "auth_success" = true ->
        step st (Message (Parsed m)) = (st, [])).
Proof.
  split; [|split].
  - intros c es. apply run_follows.
  - intros st r Hr. destruct (open_flushes st r Hr) as [-> _]. eauto.
  - intros st m Hm. cbn [step handleIncoming].
    destruct (in_type m) as [t|]; [|discriminate].
    cbn [is_str] in *. apply String.eqb_eq in Hm. subst t. reflexivity.
Qed.

Lemma hello_directly_follows_auth_witness :
  step (connect (new_client (test_config 3)) false)
    (Message (Parsed (mkInMsg (Some "auth_success") None None)))
  = (connect (new_client (test_config 3)) false, []).
Proof.
  exact (proj2 (proj2 hello_directly_follows_auth)
           (connect (new_client (test_config 3)) false)
           (mkInMsg (Some "auth_success") None None) eq_refl).
Defined.

(** *** Reconnect backoff *)

Lemma backoff_iter c n :
  maxReconnectDelay c = RECONNECT_MAX_DELAY_MS ->
  reconnectDelay (Nat.iter n backoff (new_client c))
  = Z.min (1000 * 2 ^ Z.of_nat n) 30000
  /\ cfg (Nat.iter n backoff (new_client c)) = c.
Proof.
  intros Hmax. induction n as [|n [IHd IHc]].
  - split; reflexivity.
  - rewrite !Nat.iter_succ. unfold backoff at 1 3. client_fields.
    split; [|exact IHc].
    rewrite IHd, IHc, Hmax. unfold RECONNECT_MAX_DELAY_MS.
    rewrite Nat2Z.inj_succ, Z.pow_succ_r by lia.
    assert (0 < 2 ^ Z.of_nat n) by (apply Z.pow_pos_nonneg; lia).
    lia.
Qed.

Lemma failed_attempt_doubles st d :
  reconnectTimeout st = Some d ->
  let st' := (run st failed_attempt).1 in
  reconnectDelay st' = Z.min (reconnectDelay st * 2) (maxReconnectDelay (cfg st))
  /\ reconnectTimeout st' = Some (reconnectDelay st').
Proof.
  intros Ht. unfold failed_attempt. cbn [run step].
  unfold reconnect_fires. rewrite Ht.
  unfold onerror, connect, stopHeartbeat. client_fields.
  unfold catch_runs. client_fields.
  unfold onclose, socket_state, scheduleReconnect, stopHeartbeat, backoff.
  client_fields. split; reflexivity.
Qed.

(** C8 as stated fails on the jitter: after a close the reconnect timer of a
    new client is armed with exactly 1000 ms, whereas a base of 1000 ms
    times a factor of 1.25 or 1.5 is 1250 or 1500 ms. *)
Lemma reconnect_delay_is_not_jittered :
  reconnectTimeout (step (new_client (test_config 3)) Close).1 = Some 1000
  /\ jittered_delay RECONNECT_INITIAL_DELAY_MS 1250 = 1250
  /\ jittered_delay RECONNECT_INITIAL_DELAY_MS 1500 = 1500
  /\ reconnectTimeout (step (new_client (test_config 3)) Close).1
     <> Some (jittered_delay RECONNECT_INITIAL_DELAY_MS 1500).
Proof. vm_compute. repeat split; congruence. Qed.

Lemma failed_attempt_node_doubles st d :
  reconnectTimeout st = Some d ->
  let st' := (run st failed_attempt_node).1 in
  reconnectDelay st' = Z.min (reconnectDelay st * 2) (maxReconnectDelay (cfg st))
  /\ reconnectTimeout st' = Some (reconnectDelay st).
Proof.
  intros Ht. unfold failed_attempt_node. cbn [run step].
  unfold reconnect_fires. rewrite Ht.
  unfold onerror, connect, stopHeartbeat. client_fields.
  unfold onclose, socket_state, scheduleReconnect, stopHeartbeat. client_fields.
  unfold catch_runs. client_fields. unfold backoff. client_fields.
  split; reflexivity.
Qed.

(** C8, amended.  The delay of a new client is RECONNECT_INITIAL_DELAY_MS =
    1000 ms; after every close a reconnect timer is armed, and when none was
    pending it is armed with exactly the delay of that moment, no jitter
    being applied; the [catch] of each failed reconnect attempt replaces the
    delay by min(2 * delay, max), with max = RECONNECT_MAX_DELAY_MS = 30000,
    so that after [n] failures the delay is min(1000 * 2^n, 30000); a
    successful open resets it to 1000 ms.  Where the [catch] runs before the
    close handler the next timer takes the doubled delay and the timers run
    1, 2, 4, 8, 16, 30, 30 seconds; where the close handler runs first (error
    and close emitted in one tick) each timer takes the delay from before
    its doubling and the timers run 1, 1, 2, 4, 8, 16, 30, 30 seconds. *)
Theorem reconnect_backoff_without_jitter :
  (forall c, reconnectDelay (new_client c) = RECONNECT_INITIAL_DELAY_MS)
  /\ RECONNECT_INITIAL_DELAY_MS = 1000
  /\ RECONNECT_MAX_DELAY_MS = 30000
  /\ (forall st, exists d, reconnectTimeout (step st Close).1 = Some d)
  /\ (forall st, reconnectTimeout st = None ->
        reconnectTimeout (step st Close).1 = Some (reconnectDelay st))
  /\ (forall st d, reconnectTimeout st = Some d ->
        let st' := (run st failed_attempt).1 in
        reconnectDelay st' = Z.min (reconnectDelay st * 2) (maxReconnectDelay (cfg st))
        /\ reconnectTimeout st' = Some (reconnectDelay st'))
  /\ (forall st d, reconnectTimeout st = Some d ->
        let st' := (run st failed_attempt_node).1 in
        reconnectDelay st' = Z.min (reconnectDelay st * 2) (maxReconnectDelay (cfg st))
        /\ reconnectTimeout st' = Some (reconnectDelay st))
  /\ (forall c n, maxReconnectDelay c = RECONNECT_MAX_DELAY_MS ->
        reconnectDelay (Nat.iter n backoff (new_client c))
        = Z.min (1000 * 2 ^ Z.of_nat n) 30000)
  /\ (forall st, reconnectDelay (step st Open).1 = 1000)
  /\ armed_delays (new_client (test_config 3))
       (Close :: concat (repeat failed_attempt 6))
     = [1000; 2000; 4000; 8000; 16000; 30000; 30000]
  /\ armed_delays (new_client (test_config 3))
       (Close :: concat (repeat failed_attempt_node 7))
     = [1000; 1000; 2000; 4000; 8000; 16000; 30000; 30000].
Proof.
  repeat match goal with |- _ /\ _ => split end; try reflexivity.
  - intros st. cbn [step fst]. unfold onclose, scheduleReconnect.
    match goal with
    | |- context [match reconnectTimeout ?x with _ => _ end] =>
        destruct (reconnectTimeout x) as [d|] eqn:Hx
    end.
    + exists d. exact Hx.
    + eexists. reflexivity.
  - intros st Hn. cbn [step fst].
    unfold onclose, scheduleReconnect, socket_state, stopHeartbeat.
    destruct (ws st); client_fields; rewrite Hn; reflexivity.
  - apply failed_attempt_doubles.
  - apply failed_attempt_node_doubles.
  - intros c n Hmax. by apply backoff_iter.
  - intros st. cbn [step]. unfold onopen.
    set (st2 := startHeartbeat _).
    assert (H2 : reconnectDelay st2 = 1000) by reflexivity.
    assert (H3 : reconnectDelay (sendHello st2).1 = 1000)
      by (unfold sendHello; destruct (helloSent st2); exact H2).
    destruct (sendHello st2) as [st3 hello]. cbn [fst] in H3.
    assert (H4 : reconnectDelay (flushBuffer st3).1 = 1000)
      by (unfold flushBuffer; split_ifs; exact H3).
    destruct (flushBuffer st3) as [st4 flushed]. cbn [fst] in H4.
    destruct (promise st4); exact H4.
Qed.

Lemma reconnect_backoff_without_jitter_witness :
  reconnectTimeout (new_client (test_config 3)) = None
  /\ reconnectTimeout (step (new_client (test_config 3)) Close).1
     = Some (reconnectDelay (new_client (test_config 3))).
Proof.
  split; [reflexivity|].
  exact (proj1 (proj2 (proj2 (proj2 (proj2 reconnect_backoff_without_jitter))))
           (new_client (test_config 3)) eq_refl).
Defined.

End ClientProofs.

(** ** Further facts about the host

    The facts of this part that speak of the states the host reaches are
    about runs of WebSocket tasks ([run]); the part after it takes the HTTP
    endpoints in. *)

Module HostMore.
Import Js Host HostSpec HostSpec2 HostInv HostProofs.

(** *** Levels *)

Lemma fold_max_attained (f : string -> Z) (l : list string) :
  fold_right Z.max (-1) (List.map f l) = -1
  \/ exists x, In x l /\ f x = fold_right Z.max (-1) (List.map f l).
Proof.
  induction l as [|y l IH]; [by left|].
  cbn [List.map fold_right].
  destruct (Z.max_spec (f y) (fold_right Z.max (-1) (List.map f l))) as [[Hlt ->]|[Hle ->]].
  - destruct IH as [IH|(x & Hin & Hx)].
    + rewrite IH in Hlt |- *. destruct (Z.eq_dec (f y) (-1)) as [He|He]; [|lia].
      by left.
    + right. exists x. split; [by right|done].
  - right. exists y. split; [by left|done].
Qed.

Lemma level_index_range lv : 0 <= level_index lv <= 3.
Proof.
  unfold level_index, mapLogLevel.
  repeat match goal with |- context [if ?b then _ else _] => destruct b end;
    vm_compute; split; discriminate.
Qed.

(** X1.  The level test is exactly the hierarchy test: a list of subscribed
    levels lets an event level through if and only if the position of the
    mapped event level is at most the highest position of a subscribed
    level; unknown level names count for nothing. *)
Theorem subscription_level_iff :
  forall levels lv,
    subscriptionIncludesLevel (Some levels) (Some (or_else lv "info")) = true
    <-> level_index lv <= highest_index levels.
Proof.
  intros levels lv. split; [apply includes_level_bound|].
  intros Hle. unfold subscriptionIncludesLevel. rewrite effective_level_mapping.
  cbn [arr_or_else]. apply existsb_exists.
  pose proof (level_index_range lv) as Hr.
  unfold highest_index in Hle.
  destruct (fold_max_attained (fun l => indexOf (lower_string l) LEVEL_ORDER) levels)
    as [Hm|(x & Hin & Hx)].
  - rewrite Hm in Hle. lia.
  - exists (lower_string x). split; [apply in_map; exact Hin|].
    apply Z.leb_le. fold (level_index lv). rewrite Hx. exact Hle.
Qed.

Lemma errors_only_level lv :
  subscriptionIncludesLevel (Some ["errors"]) (Some (or_else lv "info"))
  = String.eqb (mapLogLevel lv) "errors".
Proof.
  unfold subscriptionIncludesLevel. rewrite effective_level_mapping.
  unfold mapLogLevel.
  repeat match goal with |- context [if ?b then _ else _] => destruct b end;
    reflexivity.
Qed.

(** X2.  A consumer that never subscribed is routed an event exactly when
    the event level maps to [errors] and, for a capability-gated type, the
    bridge advertised that type; the decision does not touch the overload
    window. *)
Theorem unsubscribed_consumer_route :
  forall st c e b now,
    consumerSubscriptions st !! c = None ->
    let ty := lower_string (or_else (msg_type e) "") in
    shouldRouteToConsumer st c e b now
    = ((String.eqb (mapLogLevel (msg_level e)) "errors"
        && (if is_gated_type ty
            then bridgeHasCapability (bm_capabilities <$> bridgeCapabilities st !! b) ty
            else true))%bool, st).
Proof.
  intros st c e b now Hc ty. unfold shouldRouteToConsumer. rewrite Hc.
  cbn [negb]. rewrite errors_only_level. fold ty.
  destruct (String.eqb (mapLogLevel (msg_level e)) "errors"); cbn [negb andb];
    [|reflexivity].
  destruct (is_gated_type ty); [|reflexivity].
  cbn [consumerWantsCapability arr_or_else List.map List.filter negb].
  by destruct (bridgeHasCapability _ ty).
Qed.

Lemma unsubscribed_consumer_route_witness :
  let st := (run (startServer "s3cr3t" 0) no_hello_scenario).1 in
  shouldRouteToConsumer st 5%nat (event_frame "pageview" "error" "p") 0%nat 20
  = (false, st).
Proof.
  intros st.
  assert (Hc : consumerSubscriptions st !! 5%nat = None) by (vm_compute; reflexivity).
  rewrite (unsubscribed_consumer_route st 5%nat (event_frame "pageview" "error" "p")
             0%nat 20 Hc).
  vm_compute. reflexivity.
Defined.

(** *** Where the frames go *)

Lemma is_open_window st w n s : is_open (set_window st w n) s = is_open st s.
Proof. reflexivity. Qed.

Lemma route_loop_open cs : forall st m b now c,
  In c (route_loop st cs m b now).1 -> is_open st c = true /\ In c cs.
Proof.
  induction cs as [|c0 cs IH]; intros st m b now c; cbn [route_loop]; [intros []|].
  destruct (is_open st c0) eqn:Ho.
  - destruct (shouldRoute_window st c0 m b now) as (w & n & Hw).
    destruct (shouldRouteToConsumer st c0 m b now) as [ok st1].
    cbn [snd] in Hw. subst st1.
    specialize (IH (set_window st w n) m b now c).
    destruct (route_loop (set_window st w n) cs m b now) as [sel st2].
    cbn [fst] in *. rewrite is_open_window in IH.
    destruct ok.
    + intros [<-|Hin]; [split; [exact Ho|by left]|].
      destruct (IH Hin); split; [done|by right].
    + intros Hin. destruct (IH Hin); split; [done|by right].
  - intros Hin. destruct (IH st m b now c Hin). split; [done|by right].
Qed.

Lemma route_open st m b now c :
  In c (route st m b now).1 -> is_open st c = true.
Proof. intros H. by apply route_loop_open in H as [H _]. Qed.

Lemma control_targets_open st b : In b (control_targets st) -> is_open st b = true.
Proof.
  unfold control_targets. intros H. apply filter_In in H as [_ H].
  by apply andb_prop in H as [H _].
Qed.

Lemma forall_map_send st ws (m : Message) (l : list Sid) eff :
  (forall c, In c l -> is_open st c = true) ->
  In eff (List.map (fun c => Send c (Forward m)) l) ->
  well_addressed st ws eff.
Proof.
  intros Hl Hin. apply in_map_iff in Hin as (c & <- & Hc). cbn. auto.
Qed.

Ltac one_effect :=
  let H := fresh in
  intros H; repeat (destruct H as [H|H]; [subst; cbn; auto|]); destruct H.

Lemma on_message_addressed st ws data now eff :
  In eff (on_message st ws data now).2 -> well_addressed st (Some ws) eff.
Proof.
  unfold on_message.
  destruct (conns st !! ws) as [c|]; [|intros []].
  destruct data as [err|m]; [cbn; one_effect|].
  destruct (negb (isAuthenticated c)).
  { unfold handle_auth.
    repeat match goal with |- context [if ?b then _ else _] => destruct b end;
      cbn [snd]; one_effect. }
  destruct (is_str (msg_type m) "ping"); [one_effect|].
  destruct (is_str (role c) "bridge").
  - unfold handle_bridge.
    destruct (is_str (msg_type m) "hello"); [cbn; one_effect|].
    destruct (is_str (msg_type m) "control_result").
    { destruct (handle_control_result_cases st m) as [[-> _]|(p & Hp & Ho & ->)];
        cbn [snd]; one_effect. }
    destruct (is_str (msg_type m) "control_request").
    { unfold handle_bridge_control_request.
      pose proof (route_open st (with_level m "info") ws now) as Hopen.
      destruct (route st (with_level m "info") ws now) as [[|c0 cs] st1];
        cbn [fst snd] in *; [one_effect|].
      by apply forall_map_send. }
    destruct (is_str (msg_type m) "screenshot").
    + unfold handle_screenshot.
      destruct (negb _); [one_effect|].
      destruct (screenshot_wait st ws now); [one_effect|].
      pose proof (route_open st m ws now) as Hopen.
      destruct (route st m ws now) as [[|c0 cs] st1];
        cbn [fst snd] in *; [one_effect|].
      destruct (_ || _)%bool; cbn [snd]; [one_effect|].
      by apply forall_map_send.
    + unfold handle_broadcast.
      pose proof (route_open st m ws now) as Hopen.
      destruct (route st m ws now) as [targets st1]; cbn [fst snd] in *.
      by apply forall_map_send.
  - destruct (is_str (role c) "consumer"); [|intros []].
    unfold handle_consumer.
    destruct (is_str (msg_type m) "subscribe"); [cbn; one_effect|].
    destruct (is_str (msg_type m) "control_request" || is_str (msg_type m) "control")%bool.
    { pose proof (control_targets_open st) as Hopen.
      destruct (handle_consumer_control_request_cases st ws c m now)
        as [[_ ->]|(_ & objs & -> & _)]; cbn [snd]; [one_effect|].
      intros Hin. apply in_app_or in Hin as [Hin|Hin]; [|revert Hin; one_effect].
      eapply forall_map_send; [|exact Hin].
      intros b Hb. apply Hopen. by apply in_socket_targets in Hb. }
    destruct (is_str (msg_type m) "control_result"); [|intros []].
    destruct (handle_control_result_cases st m) as [[-> _]|(p & Hp & Ho & ->)];
      cbn [snd]; one_effect.
Qed.

(** X3.  Addressing.  In every task, a forwarded message is written only to
    a socket that is open at that moment, and everything else the host does
    (acknowledgements, pong, notices, synthesized control errors, closing)
    concerns the socket whose handler is running, never another session. *)
Theorem effects_well_addressed :
  forall st e eff, In eff (step st e).2 -> well_addressed st (event_socket e) eff.
Proof.
  intros st e eff. destruct e as [|ws data now|ws|ws|ws]; cbn [step snd event_socket];
    try (intros []; fail).
  - apply on_message_addressed.
  - unfold on_auth_timeout. destruct (conns st !! ws) as [c|]; [|intros []].
    repeat match goal with |- context [if ?b then _ else _] => destruct b end;
      cbn [snd]; one_effect.
Qed.

Lemma effects_well_addressed_witness :
  let st := (run (startServer "s3cr3t" 0) level_scenario).1 in
  is_open st 2%nat = true.
Proof.
  intros st.
  exact (effects_well_addressed st
           (Incoming 0%nat (Parsed (event_frame "console" "warn" "w")) 30)
           (Send 2%nat (Forward (event_frame "console" "warn" "w")))
           ltac:(vm_compute; auto)).
Defined.

(** *** Registry invariants *)

Lemma has_role_update st ws c c' x r :
  conns st !! ws = Some c ->
  (isAuthenticated c = true -> isAuthenticated c' = true /\ role c' = role c) ->
  has_role st x r ->
  has_role (set_conns st (<[ws := c']> (conns st))) x r.
Proof.
  intros Hc Hk (cx & Hx & Ha & Hr). unfold has_role. host_fields.
  destruct (decide (ws = x)) as [->|Hne].
  - rewrite Hc in Hx. injection Hx as ->. destruct (Hk Ha) as [Ha' Hr'].
    exists c'. rewrite lookup_insert_eq. repeat split; congruence.
  - exists cx. by rewrite lookup_insert_ne.
Qed.

Lemma is_str_eq (o : option string) (r : string) : is_str o r = true -> o = Some r.
Proof.
  destruct o as [x|]; cbn [is_str]; [|discriminate].
  intros H. apply String.eqb_eq in H. by subst.
Qed.

Lemma wf_start sec t : wf (startServer sec t).
Proof.
  constructor; cbn [startServer bridges consumers bridgeCapabilities
                      bridgeLastScreenshot consumerSubscriptions conns readyState next_ws].
  - constructor.
  - constructor.
  - intros ws [].
  - intros ws [].
  - intros ws [x Hx]. by rewrite lookup_empty in Hx.
  - intros ws [x Hx]. by rewrite lookup_empty in Hx.
  - intros ws [x Hx]. by rewrite lookup_empty in Hx.
  - intros ws s Hx. by rewrite lookup_empty in Hx.
  - intros ws [x Hx]. by rewrite lookup_empty in Hx.
  - intros ws [x Hx]. by rewrite lookup_empty in Hx.
Qed.

Lemma wf_window st w n : wf st -> wf (set_window st w n).
Proof. intros [H1 H2 H3 H4 H5 H6 H7 H8 H9 H10]. constructor; assumption. Qed.

Lemma wf_pending st p : wf st -> wf (set_pendingControl st p).
Proof. intros [H1 H2 H3 H4 H5 H6 H7 H8 H9 H10]. constructor; assumption. Qed.

Lemma wf_http st ids objs : wf st -> wf (set_http st ids objs).
Proof. intros [H1 H2 H3 H4 H5 H6 H7 H8 H9 H10]. constructor; assumption. Qed.

Lemma wf_ready st ws v :
  wf st -> is_Some (conns st !! ws) -> wf (set_readyState st (<[ws := v]> (readyState st))).
Proof.
  intros [H1 H2 H3 H4 H5 H6 H7 H8 H9 H10] Hc. constructor; try assumption.
  intros x. host_fields. destruct (decide (ws = x)) as [->|Hne].
  - intros _. by apply H9.
  - rewrite lookup_insert_ne by done. apply H10.
Qed.

Lemma wf_ws_close st ws : wf st -> is_Some (conns st !! ws) -> wf (ws_close st ws).
Proof. intros. by apply wf_ready. Qed.

Lemma wf_conn st ws c c' :
  wf st -> conns st !! ws = Some c ->
  (isAuthenticated c = true -> isAuthenticated c' = true /\ role c' = role c) ->
  wf (set_conns st (<[ws := c']> (conns st))).
Proof.
  intros [H1 H2 H3 H4 H5 H6 H7 H8 H9 H10] Hc Hk.
  pose proof (fun x r => has_role_update st ws c c' x r Hc Hk) as Hup.
  constructor; try assumption; host_fields.
  - intros x Hx. apply Hup. by apply H3.
  - intros x Hx. apply Hup. by apply H4.
  - intros x Hx. apply Hup. by apply H5.
  - intros x Hx. apply Hup. by apply H6.
  - intros x Hx. apply Hup. by apply H7.
  - intros x. destruct (decide (ws = x)) as [->|Hne].
    + intros _. apply H9. by exists c.
    + rewrite lookup_insert_ne by done. apply H9.
Qed.

Lemma in_set_add_inv x y s : In x (set_add y s) -> x = y \/ In x s.
Proof.
  unfold set_add. destruct (existsb (Nat.eqb y) s); [by right|].
  intros H. apply in_app_or in H as [H|[H|[]]]; auto.
Qed.

Lemma nodup_set_add y s : NoDup s -> NoDup (set_add y s).
Proof.
  intros Hs. unfold set_add. destruct (existsb (Nat.eqb y) s) eqn:He; [done|].
  apply NoDup_app. split; [done|]. split; [|apply NoDup_singleton].
  intros x Hx Hy. apply list_elem_of_singleton in Hy. subst x.
  assert (existsb (Nat.eqb y) s = true); [|congruence].
  apply existsb_exists. exists y. split; [by apply list_elem_of_In|apply Nat.eqb_refl].
Qed.

Lemma wf_add_bridge st ws :
  wf st -> has_role st ws "bridge" -> wf (set_bridges st (set_add ws (bridges st))).
Proof.
  intros [H1 H2 H3 H4 H5 H6 H7 H8 H9 H10] Hr. constructor; try assumption.
  - by apply nodup_set_add.
  - intros x Hx. apply in_set_add_inv in Hx as [->|Hx]; [exact Hr|by apply H3].
Qed.

Lemma wf_add_consumer st ws :
  wf st -> has_role st ws "consumer" -> wf (set_consumers st (set_add ws (consumers st))).
Proof.
  intros [H1 H2 H3 H4 H5 H6 H7 H8 H9 H10] Hr. constructor; try assumption.
  - by apply nodup_set_add.
  - intros x Hx. apply in_set_add_inv in Hx as [->|Hx]; [exact Hr|by apply H4].
Qed.

Lemma wf_caps st ws meta :
  wf st -> has_role st ws "bridge" ->
  wf (set_bridgeCapabilities st (<[ws := meta]> (bridgeCapabilities st))).
Proof.
  intros [H1 H2 H3 H4 H5 H6 H7 H8 H9 H10] Hr. constructor; try assumption.
  intros x. host_fields. cbn [bridgeCapabilities set_bridgeCapabilities].
  destruct (decide (ws = x)) as [->|Hne]; [done|].
  rewrite lookup_insert_ne by done. apply H5.
Qed.

Lemma wf_clock st ws t :
  wf st -> has_role st ws "bridge" ->
  wf (set_bridgeLastScreenshot st (<[ws := t]> (bridgeLastScreenshot st))).
Proof.
  intros [H1 H2 H3 H4 H5 H6 H7 H8 H9 H10] Hr. constructor; try assumption.
  intros x. cbn [bridgeLastScreenshot set_bridgeLastScreenshot].
  destruct (decide (ws = x)) as [->|Hne]; [done|].
  rewrite lookup_insert_ne by done. apply H6.
Qed.

Lemma wf_sub st ws s :
  wf st -> has_role st ws "consumer" -> In (sub_llm_filter s) FILTER_LEVELS ->
  wf (set_consumerSubscriptions st (<[ws := s]> (consumerSubscriptions st))).
Proof.
  intros [H1 H2 H3 H4 H5 H6 H7 H8 H9 H10] Hr Hf. constructor; try assumption.
  - intros x. cbn [consumerSubscriptions set_consumerSubscriptions].
    destruct (decide (ws = x)) as [->|Hne]; [done|].
    rewrite lookup_insert_ne by done. apply H7.
  - intros x s'. cbn [consumerSubscriptions set_consumerSubscriptions].
    destruct (decide (ws = x)) as [->|Hne].
    + rewrite lookup_insert_eq. by intros [= <-].
    + rewrite lookup_insert_ne by done. apply H8.
Qed.

Lemma wf_connection st : wf st -> wf (on_connection st).
Proof.
  intros [H1 H2 H3 H4 H5 H6 H7 H8 H9 H10].
  assert (Hup : forall x r, has_role st x r -> has_role (on_connection st) x r).
  { intros x r (c & Hc & Ha & Hr). exists c. split; [|done].
    cbn [on_connection conns]. rewrite lookup_insert_ne; [done|].
    assert (x < next_ws st)%nat by (apply H9; by exists c). lia. }
  constructor; cbn [on_connection bridges consumers bridgeCapabilities
                      bridgeLastScreenshot consumerSubscriptions conns readyState next_ws];
    try assumption.
  - intros x Hx. apply Hup. by apply H3.
  - intros x Hx. apply Hup. by apply H4.
  - intros x Hx. apply Hup. by apply H5.
  - intros x Hx. apply Hup. by apply H6.
  - intros x Hx. apply Hup. by apply H7.
  - intros x. destruct (decide (next_ws st = x)) as [<-|Hne]; [lia|].
    rewrite lookup_insert_ne by done. intros Hx. specialize (H9 x Hx). lia.
  - intros x. destruct (decide (next_ws st = x)) as [<-|Hne]; [lia|].
    rewrite lookup_insert_ne by done. intros Hx. specialize (H10 x Hx). lia.
Qed.

Lemma in_set_delete x y s : In x (set_delete y s) -> In x s /\ x <> y.
Proof.
  unfold set_delete. intros H. apply filter_In in H as [H Hne]. split; [done|].
  intros ->. by rewrite Nat.eqb_refl in Hne.
Qed.

Lemma nodup_set_delete y s : NoDup s -> NoDup (set_delete y s).
Proof.
  unfold set_delete. induction 1 as [|x l Hx Hl IH]; cbn [List.filter]; [constructor|].
  destruct (negb (y =? x)%nat); [|exact IH].
  constructor; [|exact IH]. intros Hin. apply Hx.
  apply list_elem_of_In in Hin. apply filter_In in Hin as [Hin _].
  by apply list_elem_of_In.
Qed.

Lemma wf_remove_bridge st ws :
  wf st ->
  wf (set_bridgeLastScreenshot
        (set_bridgeCapabilities (set_bridges st (set_delete ws (bridges st)))
           (delete ws (bridgeCapabilities st)))
        (delete ws (bridgeLastScreenshot st))).
Proof.
  intros [H1 H2 H3 H4 H5 H6 H7 H8 H9 H10]. constructor; try assumption;
    cbn [bridges bridgeCapabilities bridgeLastScreenshot set_bridges
         set_bridgeCapabilities set_bridgeLastScreenshot].
  - by apply nodup_set_delete.
  - intros x Hx. apply in_set_delete in Hx as [Hx _]. by apply H3.
  - intros x [m Hx]. apply lookup_delete_Some in Hx as [_ Hx]. apply H5. by exists m.
  - intros x [m Hx]. apply lookup_delete_Some in Hx as [_ Hx]. apply H6. by exists m.
Qed.

Lemma wf_remove_consumer st ws :
  wf st ->
  wf (set_consumerSubscriptions (set_consumers st (set_delete ws (consumers st)))
        (delete ws (consumerSubscriptions st))).
Proof.
  intros [H1 H2 H3 H4 H5 H6 H7 H8 H9 H10]. constructor; try assumption;
    cbn [consumers consumerSubscriptions set_consumers set_consumerSubscriptions].
  - by apply nodup_set_delete.
  - intros x Hx. apply in_set_delete in Hx as [Hx _]. by apply H4.
  - intros x [m Hx]. apply lookup_delete_Some in Hx as [_ Hx]. apply H7. by exists m.
  - intros x s Hx. apply lookup_delete_Some in Hx as [_ Hx]. by apply (H8 x).
Qed.

Lemma wf_route st m b now : wf st -> wf (route st m b now).2.
Proof. intros H. destruct (route_window st m b now) as (w & n & ->). by apply wf_window. Qed.

Lemma includes_In x l : includes x l = true -> In x l.
Proof.
  unfold includes. intros H. apply existsb_exists in H as (y & Hy & He).
  apply String.eqb_eq in He. by subst.
Qed.

Lemma normalized_filter raw :
  In (if includes raw FILTER_LEVELS then raw else "off") FILTER_LEVELS.
Proof.
  destruct (includes raw FILTER_LEVELS) eqn:Hi; [by apply includes_In|by left].
Qed.

Lemma wf_handle_auth st ws c m now :
  wf st -> conns st !! ws = Some c -> isAuthenticated c = false ->
  wf (handle_auth st ws m now).1.
Proof.
  intros Hwf Hc Ha. assert (Hs : is_Some (conns st !! ws)) by eauto.
  unfold handle_auth.
  destruct (is_str (msg_type m) "auth"); [|by apply wf_ws_close].
  destruct (is_str (msg_secret m) (secret st)); [|by apply wf_ws_close].
  set (r := or_else (msg_role m) "bridge").
  set (i := or_else (msg_clientId m) _).
  set (st1 := set_conns st _).
  assert (Hwf1 : wf st1) by (eapply wf_conn; eauto; congruence).
  assert (Hr : has_role st1 ws r).
  { exists (mkConn true (Some r) (Some i) false). split; [|done].
    unfold st1. host_fields. apply lookup_insert_eq. }
  destruct (String.eqb r "bridge") eqn:Hb.
  { apply String.eqb_eq in Hb. rewrite Hb in Hr. by apply wf_add_bridge. }
  destruct (String.eqb r "consumer") eqn:Hco.
  { apply String.eqb_eq in Hco. rewrite Hco in Hr. by apply wf_add_consumer. }
  apply wf_ws_close; [done|]. destruct Hr as (x & Hx & _). by exists x.
Qed.

Lemma wf_handle_control_result st m : wf st -> wf (handle_control_result st m).1.
Proof.
  intros Hwf.
  destruct (handle_control_result_cases st m) as [[-> _]|(p & _ & _ & ->)];
    [done|by apply wf_pending].
Qed.

Lemma wf_handle_screenshot st ws m now :
  wf st -> has_role st ws "bridge" -> wf (handle_screenshot st ws m now).1.
Proof.
  intros Hwf Hr. unfold handle_screenshot.
  destruct (negb _); [done|].
  destruct (screenshot_wait st ws now); [done|].
  pose proof (wf_route st m ws now Hwf) as Hwf1.
  destruct (route_window st m ws now) as (w & n & Hw).
  destruct (route st m ws now) as [[|c0 cs] st1]; cbn [fst snd] in *; [done|].
  assert (wf (set_bridgeLastScreenshot st1 (<[ws := now]> (bridgeLastScreenshot st1)))).
  { apply wf_clock; [done|]. by subst st1. }
  by destruct (_ || _)%bool.
Qed.

Lemma wf_on_message st ws data now : wf st -> wf (on_message st ws data now).1.
Proof.
  intros Hwf. unfold on_message.
  destruct (conns st !! ws) as [c|] eqn:Hc; [|done].
  assert (Hs : is_Some (conns st !! ws)) by eauto.
  destruct data as [err|m]; [by apply wf_ws_close|].
  destruct (isAuthenticated c) eqn:Ha; cbn [negb]; [|by eapply wf_handle_auth].
  destruct (is_str (msg_type m) "ping"); [done|].
  destruct (is_str (role c) "bridge") eqn:Hb.
  - assert (Hr : has_role st ws "bridge")
      by (exists c; repeat split; [done..|by apply is_str_eq]).
    unfold handle_bridge.
    destruct (is_str (msg_type m) "hello"); [by apply wf_caps|].
    destruct (is_str (msg_type m) "control_result");
      [by apply wf_handle_control_result|].
    destruct (is_str (msg_type m) "control_request").
    { unfold handle_bridge_control_request.
      pose proof (wf_route st (with_level m "info") ws now Hwf) as Hwf1.
      destruct (route st (with_level m "info") ws now) as [[|c0 cs] st1];
        cbn [fst snd] in *; [done|by apply wf_pending]. }
    destruct (is_str (msg_type m) "screenshot"); [by apply wf_handle_screenshot|].
    unfold handle_broadcast.
    pose proof (wf_route st m ws now Hwf) as Hwf1.
    by destruct (route st m ws now) as [targets st1].
  - destruct (is_str (role c) "consumer") eqn:Hco; [|done].
    assert (Hr : has_role st ws "consumer")
      by (exists c; repeat split; [done..|by apply is_str_eq]).
    unfold handle_consumer.
    destruct (is_str (msg_type m) "subscribe").
    { apply wf_sub; [done..|]. apply normalized_filter. }
    destruct (is_str (msg_type m) "control_request" || is_str (msg_type m) "control")%bool.
    { destruct (handle_consumer_control_request_cases st ws c m now)
        as [[_ ->]|(_ & objs & -> & _)]; [done|].
      by apply wf_http, wf_pending. }
    destruct (is_str (msg_type m) "control_result");
      [by apply wf_handle_control_result|done].
Qed.

Lemma wf_on_close st ws : wf st -> wf (on_close st ws).
Proof.
  intros Hwf. unfold on_close.
  destruct (conns st !! ws) as [c|] eqn:Hc; [|done].
  apply wf_pending.
  set (st0 := set_readyState st _).
  assert (Hwf0 : wf st0) by (apply wf_ready; eauto).
  set (st1 := set_conns st0 _).
  assert (Hwf1 : wf st1) by (eapply (wf_conn st0 ws c); eauto).
  destruct (is_str (role c) "bridge"); [by apply wf_remove_bridge|].
  destruct (is_str (role c) "consumer"); [by apply wf_remove_consumer|done].
Qed.

Lemma wf_step st e : wf st -> wf (step st e).1.
Proof.
  intros Hwf. destruct e as [|ws data now|ws|ws|ws]; cbn [step fst].
  - by apply wf_connection.
  - by apply wf_on_message.
  - unfold on_auth_timeout.
    destruct (conns st !! ws) as [c|] eqn:Hc; [|done].
    destruct (authTimeout c); [|done].
    set (st1 := set_conns st _).
    assert (Hwf1 : wf st1) by (eapply (wf_conn st ws c); eauto).
    destruct (negb (isAuthenticated c)); [|done].
    apply wf_ws_close; [done|]. unfold st1. host_fields.
    rewrite lookup_insert_eq. eauto.
  - unfold on_closing. destruct (conns st !! ws) eqn:Hc; [|done].
    apply wf_ws_close; eauto.
  - by apply wf_on_close.
Qed.

Lemma wf_run es : forall st, wf st -> wf (run st es).1.
Proof.
  induction es as [|e es IH]; intros st Hwf; cbn [run]; [done|].
  pose proof (wf_step st e Hwf) as H1.
  destruct (step st e) as [st1 out1]. specialize (IH st1 H1).
  by destruct (run st1 es) as [st2 out2].
Qed.

Lemma wf_reachable sec t es : wf (run (startServer sec t) es).1.
Proof. apply wf_run, wf_start. Qed.



(** X5.  Subscriptions.  A subscribe frame stores the lower-cased
    [llm_filter] when it is off, minimal or aggressive and "off" otherwise
    (also when the field is missing), and the acknowledgement carries exactly
    what was stored; so every subscription the host ever holds has one of the
    three filters. *)
Theorem subscription_filter_normalized :
  (forall st ws c m,
     exists s,
       handle_subscribe st ws c m
       = (set_consumerSubscriptions st (<[ws := s]> (consumerSubscriptions st)),
          [Send ws (SubscribeAck (clientId c) (sub_levels s) (sub_capabilities s)
                      (sub_llm_filter s))])
       /\ sub_llm_filter s
          = (let raw := lower_string (or_else (msg_llm_filter m) "off") in
             if includes raw FILTER_LEVELS then raw else "off")
       /\ In (sub_llm_filter s) ["off"; "minimal"; "aggressive"])
  /\ (forall sec t es ws s,
        consumerSubscriptions (run (startServer sec t) es).1 !! ws = Some s ->
        In (sub_llm_filter s) ["off"; "minimal"; "aggressive"]).
Proof.
  split.
  - intros st ws c m.
    exists (mkSubscription (arr_or_else (msg_levels m) ["errors"])
              (arr_or_else (msg_capabilities m) [])
              (let raw := lower_string (or_else (msg_llm_filter m) "off") in
               if includes raw FILTER_LEVELS then raw else "off")).
    split; [reflexivity|]. split; [reflexivity|].
    apply normalized_filter.
  - intros sec t es ws s. apply (wf_subs_filter _ (wf_reachable sec t es)).
Qed.

Lemma subscription_filter_normalized_witness :
  In (sub_llm_filter (mkSubscription ["warn"; "info"] [] "off")) ["off"; "minimal"; "aggressive"].
Proof.
  exact (proj2 subscription_filter_normalized "s3cr3t" 0 level_scenario 2%nat _
           ltac:(vm_compute; reflexivity)).
Defined.







(** *** Closed sockets *)











(** *** Authentication *)

Lemma conns_route st m b now : conns (route st m b now).2 = conns st.
Proof. by destruct (route_window st m b now) as (w & n & ->). Qed.

Lemma conns_handle_control_result st m : conns (handle_control_result st m).1 = conns st.
Proof.
  by destruct (handle_control_result_cases st m) as [[-> _]|(p & _ & _ & ->)].
Qed.

Lemma conns_handle_screenshot st ws m now :
  conns (handle_screenshot st ws m now).1 = conns st.
Proof.
  unfold handle_screenshot.
  destruct (negb _); [done|].
  destruct (screenshot_wait st ws now); [done|].
  pose proof (conns_route st m ws now) as Hr.
  destruct (route st m ws now) as [[|c0 cs] st1]; cbn [fst snd] in *; [done|].
  by destruct (_ || _)%bool.
Qed.

Lemma conns_authenticated_handlers st ws c m now :
  conns (if is_str (msg_type m) "ping" then (st, [Send ws Pong])
         else if is_str (role c) "bridge" then handle_bridge st ws c m now
         else if is_str (role c) "consumer" then handle_consumer st ws c m now
         else (st, [])).1 = conns st.
Proof.
  destruct (is_str (msg_type m) "ping"); [done|].
  destruct (is_str (role c) "bridge").
  - unfold handle_bridge.
    destruct (is_str (msg_type m) "hello"); [done|].
    destruct (is_str (msg_type m) "control_result");
      [apply conns_handle_control_result|].
    destruct (is_str (msg_type m) "control_request").
    { unfold handle_bridge_control_request.
      pose proof (conns_route st (with_level m "info") ws now) as Hr.
      by destruct (route st (with_level m "info") ws now) as [[|c0 cs] st1]. }
    destruct (is_str (msg_type m) "screenshot"); [apply conns_handle_screenshot|].
    unfold handle_broadcast.
    pose proof (conns_route st m ws now) as Hr.
    by destruct (route st m ws now) as [targets st1].
  - destruct (is_str (role c) "consumer"); [|done].
    unfold handle_consumer.
    destruct (is_str (msg_type m) "subscribe"); [done|].
    destruct (is_str (msg_type m) "control_request" || is_str (msg_type m) "control")%bool.
    { by destruct (handle_consumer_control_request_cases st ws c m now)
        as [[_ ->]|(_ & objs & -> & _)]. }
    destruct (is_str (msg_type m) "control_result");
      [apply conns_handle_control_result|done].
Qed.

Lemma authenticated_by_on_message st ws data now x cx cx' :
  conns st !! x = Some cx -> isAuthenticated cx = false ->
  conns (on_message st ws data now).1 !! x = Some cx' -> isAuthenticated cx' = true ->
  x = ws /\ exists m, data = Parsed m /\ msg_type m = Some "auth"
                      /\ msg_secret m = Some (secret st).
Proof.
  intros Hx Ha. unfold on_message.
  destruct (conns st !! ws) as [c|] eqn:Hc; [|cbn [fst]; congruence].
  destruct data as [err|m]; [cbn [fst handle_exception ws_close conns set_readyState];
                             congruence|].
  destruct (negb (isAuthenticated c)) eqn:Hn.
  2:{ rewrite conns_authenticated_handlers. congruence. }
  unfold handle_auth.
  destruct (is_str (msg_type m) "auth") eqn:Ht;
    [|cbn [fst ws_close conns set_readyState]; congruence].
  destruct (is_str (msg_secret m) (secret st)) eqn:Hs;
    [|cbn [fst ws_close conns set_readyState]; congruence].
  intros Hx' Ha'.
  assert (Hins : (<[ws := mkConn true (Some (or_else (msg_role m) "bridge"))
                       (Some (or_else (msg_clientId m)
                                (or_else (msg_role m) "bridge" ++ "-" ++ show_Z now)))
                       false]> (conns st)) !! x = Some cx').
  { revert Hx'.
    repeat match goal with |- context [if ?b then _ else _] => destruct b end;
      cbn [fst conns set_conns set_bridges set_consumers ws_close set_readyState];
      done. }
  destruct (decide (ws = x)) as [->|Hne].
  - split; [done|]. exists m. repeat split; by apply is_str_eq.
  - rewrite lookup_insert_ne in Hins by done. congruence.
Qed.

(** X8.  No authentication without the secret.  A connection that is not
    authenticated becomes authenticated only by its own frame of type auth
    carrying the host's secret.  Until then its frames register nothing:
    whatever it sends, the routing tables, the pending control map and the
    overload window stay as they are, nothing is forwarded to anybody, and
    the only reply goes to the sender. *)
Theorem authentication_needs_secret :
  (forall st e x cx cx',
     conns st !! x = Some cx -> isAuthenticated cx = false ->
     conns (step st e).1 !! x = Some cx' -> isAuthenticated cx' = true ->
     exists m now, e = Incoming x (Parsed m) now
                   /\ msg_type m = Some "auth" /\ msg_secret m = Some (secret st))
  /\ (forall st ws c data now,
        conns st !! ws = Some c -> isAuthenticated c = false ->
        let r := on_message st ws data now in
        pendingControl r.1 = pendingControl st
        /\ consumerSubscriptions r.1 = consumerSubscriptions st
        /\ bridgeCapabilities r.1 = bridgeCapabilities st
        /\ bridgeLastScreenshot r.1 = bridgeLastScreenshot st
        /\ windowCount r.1 = windowCount st
        /\ (forall s f, In (Send s f) r.2 -> s = ws /\ is_forward f = false)
        /\ ((forall m, data = Parsed m ->
               ~ (msg_type m = Some "auth" /\ msg_secret m = Some (secret st))) ->
            bridges r.1 = bridges st /\ consumers r.1 = consumers st
            /\ conns r.1 = conns st
            /\ exists reason, r.2 = [LogError reason; Close ws 1011 "Internal error"]
                              \/ r.2 = [Close ws 1008 reason])).
Proof.
  split.
  - intros st e x cx cx' Hx Ha.
    destruct e as [|ws data now|ws|ws|ws]; cbn [step fst].
    + cbn [on_connection conns]. destruct (decide (next_ws st = x)) as [<-|Hne].
      * rewrite lookup_insert_eq. intros [= <-]. discriminate.
      * rewrite lookup_insert_ne by done. congruence.
    + intros Hx' Ha'.
      destruct (authenticated_by_on_message st ws data now x cx cx' Hx Ha Hx' Ha')
        as (-> & m & -> & Ht & Hs). eauto.
    + unfold on_auth_timeout.
      destruct (conns st !! ws) as [c|] eqn:Hc; [|cbn [fst]; congruence].
      destruct (authTimeout c); [|cbn [fst]; congruence].
      assert (Hins : forall c0,
                 (<[ws := mkConn (isAuthenticated c) (role c) (clientId c) false]>
                    (conns st)) !! x = Some c0 -> isAuthenticated c0 = false).
      { intros c0. destruct (decide (ws = x)) as [->|Hne].
        - rewrite lookup_insert_eq. intros [= <-]. cbn. congruence.
        - rewrite lookup_insert_ne by done. congruence. }
      destruct (negb (isAuthenticated c)); cbn [fst ws_close conns set_conns set_readyState];
        intros Hx' Ha'; specialize (Hins _ Hx'); congruence.
    + unfold on_closing. destruct (conns st !! ws);
        cbn [ws_close conns set_readyState]; congruence.
    + unfold on_close. destruct (conns st !! ws) as [c|] eqn:Hc; [|congruence].
      cbn [conns set_pendingControl].
      assert (Hins : forall c0,
                 (<[ws := mkConn (isAuthenticated c) (role c) (clientId c) false]>
                    (conns st)) !! x = Some c0 -> isAuthenticated c0 = false).
      { intros c0. destruct (decide (ws = x)) as [->|Hne].
        - rewrite lookup_insert_eq. intros [= <-]. cbn. congruence.
        - rewrite lookup_insert_ne by done. congruence. }
      repeat match goal with |- context [if ?b then _ else _] => destruct b end;
        cbn [conns set_pendingControl set_bridgeLastScreenshot set_bridgeCapabilities
             set_bridges set_consumerSubscriptions set_consumers set_conns set_readyState];
        intros Hx' Ha'; specialize (Hins _ Hx'); congruence.
  - intros st ws c data now Hc Ha r. unfold r, on_message. rewrite Hc, Ha. cbn [negb].
    assert (Hsend : forall (l : list Effect),
               Forall (fun e => match e with
                                | Send s f => s = ws /\ is_forward f = false
                                | _ => True
                                end) l ->
               forall s f, In (Send s f) l -> s = ws /\ is_forward f = false).
    { intros l Hl s f Hin. apply list_elem_of_In in Hin.
      by apply (proj1 (Forall_forall _ _) Hl) in Hin. }
    destruct data as [err|m].
    { cbn [handle_exception fst snd]. do 5 (split; [reflexivity|]).
      split; [apply Hsend; by repeat constructor|]. intros _.
      do 3 (split; [reflexivity|]). eauto. }
    unfold handle_auth.
    destruct (is_str (msg_type m) "auth") eqn:Ht.
    2:{ cbn [fst snd]. do 5 (split; [reflexivity|]).
        split; [apply Hsend; by repeat constructor|]. intros _.
        do 3 (split; [reflexivity|]). eauto. }
    destruct (is_str (msg_secret m) (secret st)) eqn:Hs.
    2:{ cbn [fst snd]. do 5 (split; [reflexivity|]).
        split; [apply Hsend; by repeat constructor|]. intros _.
        do 3 (split; [reflexivity|]). eauto. }
    assert (Hvalid : msg_type m = Some "auth" /\ msg_secret m = Some (secret st))
      by (split; by apply is_str_eq).
    repeat match goal with |- context [if ?b then _ else _] => destruct b end;
      cbn [fst snd]; do 5 (split; [reflexivity|]);
      (split; [apply Hsend; by repeat constructor|]);
      intros Hno; exfalso; by apply (Hno m).
Qed.

Lemma authentication_needs_secret_witness :
  let st := on_connection (startServer "s3cr3t" 0) in
  consumers (on_message st 0%nat (Parsed (auth_frame "wrong" "consumer")) 10).1
  = consumers st.
Proof.
  intros st.
  assert (Hc : conns st !! 0%nat = Some (mkConn false None None true))
    by (vm_compute; reflexivity).
  refine (proj1 (proj2 (proj2 (proj2 (proj2 (proj2 (proj2
            (proj2 authentication_needs_secret st 0%nat _
               (Parsed (auth_frame "wrong" "consumer")) 10 Hc eq_refl)))))) _)).
  intros m [= <-] [_ Hs]. vm_compute in Hs. discriminate.
Defined.

(** *** Screenshots *)





(** *** The LLM filter and the overload guard *)

Lemma filter_normal f : In f FILTER_LEVELS -> lower_string (or_else (Some f) "off") = f.
Proof. intros [<-|[<-|[<-|[]]]]; reflexivity. Qed.

Lemma filterEvent_equation st m s now :
  In (sub_llm_filter s) FILTER_LEVELS ->
  (filterEventForConsumer st m s now).1
  = (if ((WINDOW_LIMIT <? next_count st now)
         && negb (String.eqb (sub_llm_filter s) "off"))%bool
     then is_str (msg_level m) "error"
     else llm_verdict (sub_llm_filter s) (lower_string (or_else (msg_level m) "")))
  /\ windowCount (filterEventForConsumer st m s now).2 = next_count st now.
Proof.
  intros Hf. unfold filterEventForConsumer, next_count. rewrite (filter_normal _ Hf).
  destruct (WINDOW_MS <? now - windowStart st);
    cbn [windowCount windowStart set_window];
    change (0 + 1) with 1;
    match goal with |- context [WINDOW_LIMIT <? ?n] => destruct (WINDOW_LIMIT <? n) end;
    cbn [andb];
    destruct Hf as [<-|[<-|[<-|[]]]]; cbn [String.eqb Ascii.eqb Bool.eqb negb];
    unfold llm_verdict; cbn [String.eqb Ascii.eqb Bool.eqb fst snd windowCount set_window];
    split; reflexivity.
Qed.

Lemma is_str_lower_error (lv : option string) :
  is_str lv "error" = true -> lower_string (or_else lv "") = "error".
Proof. intros H. apply is_str_eq in H. by subst. Qed.

(** X10.  LLM filter and overload guard, for a stored (normalized) filter.
    While at most 500 filter calls fell into the current 10 s window the
    verdict is that of the filter: off lets everything pass, minimal drops
    debug and log, aggressive drops debug, log and info (levels compared
    case-insensitively).  Beyond 500 calls a consumer whose filter is not off
    gets only events whose level is exactly "error"; a consumer with filter
    off is never affected.  So an event of level "error" passes every filter
    in every state, and the filters are nested: what aggressive lets through
    minimal lets through as well. *)
Theorem llm_filter_and_overload :
  forall st m s now,
    In (sub_llm_filter s) FILTER_LEVELS ->
    let verdict f := (filterEventForConsumer st m (mkSubscription (sub_levels s)
                                                       (sub_capabilities s) f) now).1 in
    (filterEventForConsumer st m s now).1
    = (if ((WINDOW_LIMIT <? next_count st now)
           && negb (String.eqb (sub_llm_filter s) "off"))%bool
       then is_str (msg_level m) "error"
       else llm_verdict (sub_llm_filter s) (lower_string (or_else (msg_level m) "")))
    /\ windowCount (filterEventForConsumer st m s now).2 = next_count st now
    /\ (WINDOW_MS < now - windowStart st -> next_count st now = 1)
    /\ verdict "off" = true
    /\ (msg_level m = Some "error" -> (filterEventForConsumer st m s now).1 = true)
    /\ (verdict "aggressive" = true -> verdict "minimal" = true).
Proof.
  intros st m s now Hf verdict.
  destruct (filterEvent_equation st m s now Hf) as [Heq Hcount].
  split; [exact Heq|]. split; [exact Hcount|]. split.
  { intros Hlt. unfold next_count. apply Z.ltb_lt in Hlt. by rewrite Hlt. }
  assert (Hv : forall f, In f FILTER_LEVELS ->
            verdict f = (if ((WINDOW_LIMIT <? next_count st now)
                             && negb (String.eqb f "off"))%bool
                         then is_str (msg_level m) "error"
                         else llm_verdict f (lower_string (or_else (msg_level m) "")))).
  { intros f Hin. unfold verdict.
    by destruct (filterEvent_equation st m (mkSubscription (sub_levels s)
                                              (sub_capabilities s) f) now Hin). }
  split; [|split].
  - rewrite (Hv "off") by (by left). cbn [String.eqb Ascii.eqb Bool.eqb negb].
    by rewrite andb_false_r.
  - intros Hl. rewrite Heq, Hl. cbn [is_str or_else].
    destruct Hf as [<-|[<-|[<-|[]]]];
      by destruct (WINDOW_LIMIT <? next_count st now).
  - rewrite (Hv "aggressive"), (Hv "minimal") by (cbn; auto).
    cbn [String.eqb Ascii.eqb Bool.eqb negb]. rewrite !andb_true_r.
    destruct (WINDOW_LIMIT <? next_count st now); [done|].
    unfold llm_verdict. cbn [String.eqb Ascii.eqb Bool.eqb].
    destruct (String.eqb _ "debug"), (String.eqb _ "log"); cbn; try done.
Qed.

Lemma llm_filter_and_overload_witness :
  (filterEventForConsumer (startServer "s3cr3t" 0) (event_frame "console" "error" "e")
     (mkSubscription ["info"] [] "aggressive") 5).1 = true.
Proof.
  exact (proj1 (proj2 (proj2 (proj2 (proj2
           (llm_filter_and_overload (startServer "s3cr3t" 0)
              (event_frame "console" "error" "e")
              (mkSubscription ["info"] [] "aggressive") 5
              ltac:(cbn; auto)))))) eq_refl).
Defined.

Lemma filterEvent_state st m s now :
  now - windowStart st <= WINDOW_MS ->
  (filterEventForConsumer st m s now).2
  = set_window st (windowStart st) (windowCount st + 1).
Proof.
  intros Hle. unfold filterEventForConsumer.
  assert (Hlt : (WINDOW_MS <? now - windowStart st) = false) by (apply Z.ltb_ge; lia).
  rewrite Hlt.
  repeat match goal with |- context [if ?b then _ else _] => destruct b end;
    reflexivity.
Qed.

Lemma shouldRoute_state st c m b now :
  now - windowStart st <= WINDOW_MS ->
  (shouldRouteToConsumer st c m b now).2
  = set_window st (windowStart st)
      (windowCount st + (if bool_decide (is_Some (consumerSubscriptions st !! c))
                         then 1 else 0)).
Proof.
  intros Hle. unfold shouldRouteToConsumer.
  destruct (consumerSubscriptions st !! c) as [s|] eqn:Hs.
  - rewrite bool_decide_eq_true_2 by eauto.
    pose proof (filterEvent_state st m s now Hle) as Hf.
    destruct (filterEventForConsumer st m s now) as [ok st']. cbn [snd] in Hf. subst st'.
    repeat match goal with |- context [if ?b then _ else _] => destruct b end;
      reflexivity.
  - rewrite bool_decide_eq_false_2 by (intros [? ?]; discriminate).
    rewrite Z.add_0_r, set_window_same.
    repeat match goal with |- context [if ?b then _ else _] => destruct b end;
      reflexivity.
Qed.

Lemma route_loop_count cs : forall st m b now,
  now - windowStart st <= WINDOW_MS ->
  windowStart (route_loop st cs m b now).2 = windowStart st
  /\ windowCount (route_loop st cs m b now).2
     = windowCount st
       + Z.of_nat (length (List.filter
                             (fun c => (is_open st c
                                        && bool_decide (is_Some (consumerSubscriptions st !! c)))%bool)
                             cs)).
Proof.
  induction cs as [|c cs IH]; intros st m b now Hle; cbn [route_loop List.filter].
  - cbn. split; [done|lia].
  - destruct (is_open st c) eqn:Ho; cbn [andb]; [|by apply IH].
    pose proof (shouldRoute_state st c m b now Hle) as Hs.
    destruct (shouldRouteToConsumer st c m b now) as [ok st1]. cbn [snd] in Hs. subst st1.
    set (k := if bool_decide _ then 1 else 0).
    destruct (IH (set_window st (windowStart st) (windowCount st + k)) m b now Hle)
      as [Hstart Hcount].
    destruct (route_loop _ cs m b now) as [sel st2]. cbn [snd] in *.
    split; [exact Hstart|]. rewrite Hcount. cbn [windowCount set_window].
    set (F := List.filter _ cs). change (List.filter _ cs) with F.
    unfold k. destruct (bool_decide _); cbn; lia.
Qed.

(** X11.  What the overload window counts.  Within one window, routing one
    message advances [windowCount] by the number of consumers that are open
    and have a stored subscription, whether or not they end up receiving the
    message; consumers that never subscribed do not count.  The limit of 500
    is therefore a limit on filter calls, not on events. *)
Theorem overload_window_counts_filter_calls :
  forall st m b now,
    now - windowStart st <= WINDOW_MS ->
    windowStart (route st m b now).2 = windowStart st
    /\ windowCount (route st m b now).2
       = windowCount st + Z.of_nat (length (filtered_consumers st)).
Proof. intros st m b now Hle. by apply route_loop_count. Qed.

Lemma overload_window_counts_filter_calls_witness :
  let st := (run (startServer "s3cr3t" 0) level_scenario).1 in
  windowCount (route st (event_frame "console" "debug" "d") 0%nat 30).2
  = windowCount st + Z.of_nat (length (filtered_consumers st)).
Proof.
  intros st.
  exact (proj2 (overload_window_counts_filter_calls st
                  (event_frame "console" "debug" "d") 0%nat 30
                  ltac:(vm_compute; discriminate))).
Defined.

(** *** Control requests *)

(** *** The authentication timer *)

Lemma timer_insert st ws c' :
  timer_cleared st -> authTimeout c' = false \/ isAuthenticated c' = false ->
  forall x c, <[ws := c']> (conns st) !! x = Some c ->
              isAuthenticated c = true -> authTimeout c = false.
Proof.
  intros Hinv Hc' x c Hx Ha.
  destruct (decide (x = ws)) as [->|Hne].
  - rewrite lookup_insert_eq in Hx. injection Hx as <-.
    destruct Hc' as [H|H]; congruence.
  - rewrite lookup_insert_ne in Hx by done. by eapply Hinv.
Qed.

Lemma timer_on_message st ws data now :
  timer_cleared st -> timer_cleared (on_message st ws data now).1.
Proof.
  intros Hinv. unfold on_message.
  destruct (conns st !! ws) as [c|] eqn:Hc; [|done].
  destruct data as [err|m]; [done|].
  destruct (negb (isAuthenticated c)) eqn:Hn.
  - unfold handle_auth.
    repeat match goal with |- context [if ?b then _ else _] => destruct b end;
      cbn [fst]; try done;
      intros x cx; host_fields; cbn [conns];
      apply timer_insert; auto.
  - intros x cx. rewrite conns_authenticated_handlers. apply Hinv.
Qed.

Lemma timer_step st e : timer_cleared st -> timer_cleared (step st e).1.
Proof.
  intros Hinv. destruct e as [|ws data now|ws|ws|ws]; cbn [step fst].
  - intros x cx. unfold on_connection. cbn [conns].
    apply timer_insert; auto.
  - by apply timer_on_message.
  - unfold on_auth_timeout.
    destruct (conns st !! ws) as [c|] eqn:Hc; [|done].
    destruct (authTimeout c); [|done].
    destruct (negb (isAuthenticated c)); cbn [fst]; intros x cx; host_fields;
      cbn [conns]; apply timer_insert; auto.
  - unfold on_closing. by destruct (conns st !! ws).
  - unfold on_close.
    destruct (conns st !! ws) as [c|] eqn:Hc; [|done].
    intros x cx.
    repeat match goal with |- context [if ?b then _ else _] => destruct b end;
      host_fields; cbn [conns]; apply timer_insert; auto.
Qed.

Lemma timer_run es : forall st, timer_cleared st -> timer_cleared (run st es).1.
Proof.
  induction es as [|e es IH]; intros st Hinv; cbn [run]; [done|].
  pose proof (timer_step st e Hinv) as H1.
  destruct (step st e) as [st1 out1]. specialize (IH st1 H1).
  by destruct (run st1 es) as [st2 out2].
Qed.

(** X13.  Authentication timeout.  The timer closes the socket (1008,
    "Authentication timeout") exactly when it is still armed and the
    connection is not authenticated, and fires at most once; a frame of type
    auth with the right secret disarms it; in no state the host reaches does
    the timer do anything to an authenticated connection. *)
Theorem auth_timeout_closes_unauthenticated_only :
  (forall st ws c,
     conns st !! ws = Some c ->
     (on_auth_timeout st ws).2
     = (if (authTimeout c && negb (isAuthenticated c))%bool
        then [Close ws 1008 "Authentication timeout"] else [])
     /\ (on_auth_timeout (on_auth_timeout st ws).1 ws).2 = [])
  /\ (forall st ws c m now,
        conns st !! ws = Some c -> isAuthenticated c = false ->
        msg_type m = Some "auth" -> msg_secret m = Some (secret st) ->
        step (on_message st ws (Parsed m) now).1 (AuthTimeout ws)
        = ((on_message st ws (Parsed m) now).1, []))
  /\ (forall sec t es ws c,
        let st := (run (startServer sec t) es).1 in
        conns st !! ws = Some c -> isAuthenticated c = true ->
        step st (AuthTimeout ws) = (st, [])).
Proof.
  split; [|split].
  - intros st ws c Hc. unfold on_auth_timeout at 1 3. rewrite Hc.
    destruct (authTimeout c) eqn:Ht; cbn [andb].
    + destruct (isAuthenticated c); cbn [negb fst snd]; (split; [reflexivity|]);
        unfold on_auth_timeout; cbn [conns ws_close set_readyState set_conns];
        by rewrite lookup_insert_eq.
    + split; [reflexivity|]. cbn [fst]. unfold on_auth_timeout. by rewrite Hc, Ht.
  - intros st ws c m now Hc Ha Ht Hs. cbn [step]. unfold on_message.
    rewrite Hc, Ha. cbn [negb]. unfold handle_auth. rewrite Ht, Hs.
    cbn [is_str]. rewrite !String.eqb_refl.
    repeat match goal with |- context [if ?b then _ else _] => destruct b end;
      cbn [fst]; unfold on_auth_timeout;
      cbn [conns ws_close set_readyState set_conns set_bridges set_consumers];
      by rewrite lookup_insert_eq.
  - intros sec t es ws c st Hc Ha. cbn [step]. unfold on_auth_timeout. rewrite Hc.
    assert (Hinv : timer_cleared st).
    { apply timer_run. intros x cx. cbn [startServer conns].
      rewrite lookup_empty. discriminate. }
    by rewrite (Hinv ws c Hc Ha).
Qed.

Lemma auth_timeout_closes_unauthenticated_only_witness :
  let st := (run (startServer "s3cr3t" 0) [Connection]).1 in
  (on_auth_timeout st 0%nat).2 = [Close 0%nat 1008 "Authentication timeout"]
  /\ step (on_message st 0%nat (Parsed (auth_frame "s3cr3t" "bridge")) 10).1
       (AuthTimeout 0%nat)
     = ((on_message st 0%nat (Parsed (auth_frame "s3cr3t" "bridge")) 10).1, []).
Proof.
  intros st.
  destruct auth_timeout_closes_unauthenticated_only as (H1 & H2 & _).
  split.
  - exact (proj1 (H1 st 0%nat (mkConn false None None true) eq_refl)).
  - exact (H2 st 0%nat (mkConn false None None true)
             (auth_frame "s3cr3t" "bridge") 10 eq_refl eq_refl eq_refl eq_refl).
Defined.

(** *** Control requests of a bridge *)

(** X23.  A control request sent by a bridge is routed like an event of
    level info and of type control_request, which is no capability-gated
    type: it is forwarded unchanged, and only to open consumers whose stored
    subscription reaches level info; a consumer that never subscribed does
    not get it.  If some consumer got it, the pending entry for its id
    replies to this bridge; if none did, the bridge is told "No consumers
    connected for control" and nothing is recorded. *)
Theorem bridge_control_request_needs_info_level :
  forall st ws c m now,
    conns st !! ws = Some c -> isAuthenticated c = true -> role c = Some "bridge" ->
    msg_type m = Some "control_request" ->
    let r := on_message st ws (Parsed m) now in
    (forall to f, In (Send to (Forward f)) r.2 ->
       f = m /\ In to (consumers st) /\ is_open st to = true
       /\ is_Some (consumerSubscriptions st !! to)
       /\ 2 <= highest_index (consumer_levels st to))
    /\ ((exists to, In (Send to (Forward m)) r.2) ->
        pendingControl r.1 !! msg_id m = Some (mkPending ws FromBridge))
    /\ ((forall to, ~ In (Send to (Forward m)) r.2) ->
        r.2 = [Send ws (ControlResultError (msg_id m)
                          "No consumers connected for control")]
        /\ pendingControl r.1 = pendingControl st).
Proof.
  intros st ws c m now Hc Ha Hr Hty r.
  assert (Hr1 : r = handle_bridge_control_request st ws m now).
  { unfold r, on_message. rewrite Hc, Ha, Hr. cbn [negb is_str].
    unfold handle_bridge. by rewrite Hty. }
  rewrite Hr1. clear r Hr1. unfold handle_bridge_control_request.
  pose proof (route_loop_level (consumers st) st (with_level m "info") ws now) as Hlv.
  pose proof (route_loop_open (consumers st) st (with_level m "info") ws now) as Hop.
  pose proof (pending_route st (with_level m "info") ws now) as Hp.
  fold (route st (with_level m "info") ws now) in Hlv, Hop.
  destruct (route st (with_level m "info") ws now) as [targets st1].
  cbn [fst snd] in Hlv, Hop, Hp.
  assert (Hinfo : level_index (msg_level (with_level m "info")) = 2) by reflexivity.
  assert (Htarget : forall to, In to targets ->
            In to (consumers st) /\ is_open st to = true
            /\ is_Some (consumerSubscriptions st !! to)
            /\ 2 <= highest_index (consumer_levels st to)).
  { intros to Hin. destruct (Hop to Hin) as [Ho Hcs].
    specialize (Hlv to Hin). rewrite Hinfo in Hlv.
    repeat split; try done.
    unfold consumer_levels in Hlv.
    destruct (consumerSubscriptions st !! to); [eauto|].
    vm_compute in Hlv. by destruct Hlv. }
  destruct targets as [|t ts]; cbn [fst snd].
  - split; [|split].
    + intros to f [Heq|[]]. discriminate.
    + intros [to [Heq|[]]]. discriminate.
    + intros _. by rewrite Hp.
  - split; [|split].
    + intros to f Hin. apply in_map_iff in Hin as (x & Heq & Hx).
      injection Heq as -> <-. split; [reflexivity|]. by apply Htarget.
    + intros _. cbn [pendingControl set_pendingControl]. apply lookup_insert_eq.
    + intros Hnone. exfalso. apply (Hnone t). by left.
Qed.

Lemma bridge_control_request_needs_info_level_witness :
  let st := (run (startServer "s3cr3t" 0)
               [ Connection; Connection;
                 Incoming 0%nat (Parsed (auth_frame "s3cr3t" "bridge")) 10;
                 Incoming 1%nat (Parsed (auth_frame "s3cr3t" "consumer")) 11 ]).1 in
  (on_message st 0%nat (Parsed (control_request_frame "req-1")) 12).2
  = [Send 0%nat (ControlResultError (Some "req-1") "No consumers connected for control")].
Proof.
  intros st.
  assert (Hc : conns st !! 0%nat
               = Some (mkConn true (Some "bridge") (Some "bridge-10") false))
    by (vm_compute; reflexivity).
  refine (proj1 (proj2 (proj2 (bridge_control_request_needs_info_level st 0%nat _
                                 (control_request_frame "req-1") 12
                                 Hc eq_refl eq_refl eq_refl)) _)).
  intros to Hin. vm_compute in Hin. destruct Hin as [Heq|[]]. discriminate.
Defined.

(** *** The routing loop below the overload limit *)

Lemma passes_gates_window st w n c m b :
  passes_gates (set_window st w n) c m b = passes_gates st c m b.
Proof. reflexivity. Qed.





End HostMore.


(** ** The whole server: WebSocket tasks, HTTP requests, the prune timer *)

Module HostServer.
Import Js Host HostSpec HostSpec2 HostInv HostProofs HostMore.

(** *** What the HTTP endpoints leave alone *)

Lemma same_sockets_refl st : same_sockets st st.
Proof. by repeat split. Qed.

Lemma same_sockets_trans st1 st2 st3 :
  same_sockets st1 st2 -> same_sockets st2 st3 -> same_sockets st1 st3.
Proof. intros (A & B & C & D) (A' & B' & C' & D'). repeat split; congruence. Qed.

Lemma deliver_events_window evs : forall st s now,
  exists w n, (deliver_events st evs s now).1 = set_window st w n.
Proof.
  induction evs as [|ev evs IH]; intros st s now; cbn [deliver_events].
  - exists (windowStart st), (windowCount st). by rewrite set_window_same.
  - unfold deliverToConsumers.
    destruct (route_window st (with_defaults ev now) s now) as (w & n & Hw).
    destruct (route st (with_defaults ev now) s now) as [targets st1].
    cbn [snd] in Hw. subst st1.
    destruct (IH (set_window st w n) s now) as (w' & n' & Hw').
    destruct (deliver_events (set_window st w n) evs s now) as [st2 out2].
    cbn [fst] in *. subst st2. exists w', n'. apply set_window_twice.
Qed.

Lemma prune_fold (P : Broker -> Prop) (l : list (Sid * Session)) : forall st,
  P st -> (forall st s o, P st -> P (removeHttpSession st s o)) ->
  P (fold_left (fun acc so => removeHttpSession acc so.1 so.2) l st).
Proof.
  induction l as [|[s o] l IH]; intros st Hst Hstep; cbn [fold_left]; [done|].
  apply IH; [by apply Hstep|exact Hstep].
Qed.

(** The state after an HTTP request: a new session takes the next object
    identity; nothing else touches the sockets' tables, and the pending map
    can only lose the entry that [/bridge/control/result] answers. *)
Lemma http_request_frame st req now :
  let st' := (http_request st req now).1.1 in
  same_sockets st st'
  /\ ((readyState st' = readyState st /\ next_ws st' = next_ws st)
      \/ (readyState st' = <[next_ws st := 1]> (readyState st)
          /\ next_ws st' = S (next_ws st)))
  /\ (forall i p, pendingControl st' !! i = Some p -> pendingControl st !! i = Some p).
Proof.
  destruct req as [|bs sh newId|id body|id events|id rid|id|id|id|]; cbn [http_request].
  - cbn [fst]. split; [apply same_sockets_refl|]. split; [by left|done].
  - destruct (negb _); cbn [fst].
    + split; [apply same_sockets_refl|]. split; [by left|done].
    + split; [by repeat split|]. split; [by right|done].
  - destruct (getHttpSession st id) as [[s o]|]; cbn [fst].
    + split; [by repeat split|]. split; [by left|done].
    + split; [apply same_sockets_refl|]. split; [by left|done].
  - destruct (getHttpSession st id) as [[s o]|]; cbn [fst];
      [|split; [apply same_sockets_refl|]; split; [by left|done]].
    destruct (deliver_events_window (arr_or_else_msgs events) (touch st s o now) s now)
      as (w & n & Hw).
    destruct (deliver_events _ _ s now) as [st1 out]. cbn [fst] in *. subst st1.
    split; [by repeat split|]. split; [by left|done].
  - destruct (getHttpSession st id) as [[s o]|]; cbn [fst];
      [|split; [apply same_sockets_refl|]; split; [by left|done]].
    pose proof (handle_control_result_pendingControl (touch st s o now)
                  (http_control_result rid)) as Hp.
    destruct (handle_control_result_cases (touch st s o now) (http_control_result rid))
      as [[Hh _]|(p & _ & _ & Hh)]; rewrite Hh in Hp |- *; cbn [fst] in *;
      (split; [by repeat split|]; split; [by left|exact Hp]).
  - destruct (getHttpSession st id) as [[s o]|]; cbn [fst];
      (split; [by repeat split|]; split; [by left|done]).
  - destruct (getHttpSession st id) as [[s o]|]; cbn [fst];
      (split; [by repeat split|]; split; [by left|done]).
  - destruct (getHttpSession st id) as [[s o]|]; cbn [fst];
      (split; [by repeat split|]; split; [by left|done]).
  - cbn [fst]. split; [apply same_sockets_refl|]. split; [by left|done].
Qed.

Lemma prune_frame st now :
  let st' := pruneHttpSessions st now in
  same_sockets st st' /\ readyState st' = readyState st /\ next_ws st' = next_ws st
  /\ pendingControl st' = pendingControl st
  /\ windowStart st' = windowStart st /\ windowCount st' = windowCount st.
Proof.
  unfold pruneHttpSessions.
  apply (prune_fold (fun st' => same_sockets st st' /\ readyState st' = readyState st
                                /\ next_ws st' = next_ws st
                                /\ pendingControl st' = pendingControl st
                                /\ windowStart st' = windowStart st
                                /\ windowCount st' = windowCount st)).
  - split; [apply same_sockets_refl|]. by repeat split.
  - intros st1 s o (Hs & H1 & H2 & H3 & H4 & H5).
    split; [eapply same_sockets_trans; [exact Hs|by repeat split]|].
    by repeat split.
Qed.

(** *** Control correlation over the whole server *)

Lemma with_defaults_result ev now :
  is_str (msg_type (with_defaults ev now)) "control_result"
  = is_str (msg_type ev) "control_result".
Proof.
  cbn [with_defaults msg_type is_str]. unfold or_else.
  destruct (msg_type ev) as [s|]; [|reflexivity].
  destruct (String.eqb s "") eqn:He; [|reflexivity].
  apply String.eqb_eq in He. by subst s.
Qed.

(** Every frame that [/bridge/events] writes is one of the posted events,
    with its defaults, forwarded to a consumer that is open. *)
Lemma deliver_events_effects evs : forall st s now eff,
  In eff (deliver_events st evs s now).2 ->
  exists ev c, In ev evs /\ eff = Send c (Forward (with_defaults ev now))
               /\ is_open st c = true.
Proof.
  induction evs as [|ev evs IH]; intros st s now eff; cbn [deliver_events];
    [intros []|].
  unfold deliverToConsumers.
  pose proof (route_open st (with_defaults ev now) s now) as Hopen.
  destruct (route_window st (with_defaults ev now) s now) as (w & n & Hw).
  destruct (route st (with_defaults ev now) s now) as [targets st1].
  cbn [fst snd] in *. subst st1.
  specialize (IH (set_window st w n) s now eff).
  destruct (deliver_events (set_window st w n) evs s now) as [st2 out2].
  cbn [fst snd] in *. intros Hin. apply in_app_or in Hin as [Hin|Hin].
  - apply in_map_iff in Hin as (c & <- & Hc). exists ev, c.
    split; [by left|]. split; [reflexivity|by apply Hopen].
  - destruct (IH Hin) as (ev' & c & Hev & -> & Ho). exists ev', c.
    split; [by right|]. split; [reflexivity|exact Ho].
Qed.

Lemma deliver_events_no_result evs : forall st s0 now i s,
  existsb (fun ev => is_str (msg_type ev) "control_result") evs = false ->
  forwarded_results i s (deliver_events st evs s0 now).2 = 0%nat.
Proof.
  induction evs as [|ev evs IH]; intros st s0 now i s; cbn [deliver_events existsb];
    [reflexivity|].
  intros H. apply orb_false_iff in H as [Hev Hrest].
  unfold deliverToConsumers.
  destruct (route st (with_defaults ev now) s0 now) as [targets st1].
  specialize (IH st1 s0 now i s Hrest).
  destruct (deliver_events st1 evs s0 now) as [st2 out2]. cbn [snd] in *.
  rewrite forwarded_results_app, IH, forwarded_results_other; [reflexivity|].
  by rewrite with_defaults_result.
Qed.

Lemma in_flight_sub st st' i s :
  (forall p, pendingControl st' !! i = Some p -> pendingControl st !! i = Some p) ->
  (in_flight i s st' <= in_flight i s st)%nat.
Proof.
  intros H. unfold in_flight.
  destruct (pendingControl st' !! i) as [p|] eqn:Hp; [|lia].
  by rewrite (H p eq_refl).
Qed.

Lemma http_budget st req now i s :
  posts_result (Http req now) = false ->
  (forwarded_results i s (http_request st req now).1.2
   + in_flight i s (http_request st req now).1.1 <= in_flight i s st)%nat.
Proof.
  intros Hposts.
  destruct (http_request_frame st req now) as (_ & _ & Hpend).
  pose proof (in_flight_sub st _ i s (Hpend i)) as Hsub.
  destruct req as [|bs sh newId|id body|id events|id rid|id|id|id|];
    cbn [http_request] in *.
  - cbn in *. lia.
  - destruct (negb _); cbn in *; lia.
  - destruct (getHttpSession st id) as [[s0 o]|]; cbn in *; lia.
  - destruct (getHttpSession st id) as [[s0 o]|]; [|cbn in *; lia].
    assert (Hev : existsb (fun ev => is_str (msg_type ev) "control_result")
                    (arr_or_else_msgs events) = false)
      by (destruct events; [exact Hposts|reflexivity]).
    pose proof (deliver_events_no_result (arr_or_else_msgs events)
                  (touch st s0 o now) s0 now i s Hev) as Hz.
    destruct (deliver_events _ _ s0 now) as [st1 out]. cbn [fst snd] in *. lia.
  - destruct (getHttpSession st id) as [[s0 o]|]; [|cbn in *; lia].
    pose proof (handle_control_result_budget (touch st s0 o now)
                  (http_control_result rid) i s) as Hb.
    destruct (handle_control_result _ _) as [st1 out]. cbn [fst snd] in *.
    change (in_flight i s (touch st s0 o now)) with (in_flight i s st) in Hb. lia.
  - destruct (getHttpSession st id) as [[s0 o]|]; cbn in *; lia.
  - destruct (getHttpSession st id) as [[s0 o]|]; cbn in *; lia.
  - destruct (getHttpSession st id) as [[s0 o]|]; cbn in *; lia.
  - cbn in *. lia.
Qed.

Lemma serve_budget st t i s :
  posts_result t = false ->
  (forwarded_results i s (serve st t).2 + in_flight i s (serve st t).1
   <= in_flight i s st
      + (if bool_decide (task_records st t = Some (i, s)) then 1 else 0))%nat.
Proof.
  intros Hposts. destruct t as [e|req now|now]; cbn [serve task_records].
  - apply step_budget.
  - pose proof (http_budget st req now i s Hposts).
    rewrite bool_decide_eq_false_2 by discriminate. lia.
  - destruct (prune_frame st now) as (_ & _ & _ & Hp & _).
    cbn [fst snd]. unfold in_flight. rewrite Hp.
    rewrite bool_decide_eq_false_2 by discriminate. cbn. lia.
Qed.

Lemma serve_run_budget ts : forall st i s,
  forallb (fun t => negb (posts_result t)) ts = true ->
  (forwarded_results i s (serve_run st ts).2 + in_flight i s (serve_run st ts).1
   <= in_flight i s st + task_recordings i s st ts)%nat.
Proof.
  induction ts as [|t ts IH]; intros st i s Hts; cbn [serve_run task_recordings].
  - cbn. lia.
  - cbn [forallb] in Hts. apply andb_true_iff in Hts as [Ht Hts].
    apply negb_true_iff in Ht.
    pose proof (serve_budget st t i s Ht) as Hs.
    destruct (serve st t) as [st1 out1]. cbn [fst snd] in *.
    specialize (IH st1 i s Hts).
    destruct (serve_run st1 ts) as [st2 out2]. cbn [fst snd] in *.
    rewrite forwarded_results_app. lia.
Qed.

(** A forwarded [control_result] that was not posted as an event comes from
    a result handler: its id had a pending entry, the entry's [replyTo] is
    the open receiver, and the entry is gone afterwards. *)
Lemma serve_result_forward st t s m :
  posts_result t = false ->
  In (Send s (Forward m)) (serve st t).2 ->
  is_str (msg_type m) "control_result" = true ->
  exists p, pendingControl st !! msg_id m = Some p /\ replyTo p = s
            /\ is_open st s = true
            /\ pendingControl (serve st t).1 !! msg_id m = None.
Proof.
  intros Hposts. destruct t as [e|req now|now]; cbn [serve snd fst].
  - apply step_result_forward.
  - destruct req as [|bs sh newId|id body|id events|id rid|id|id|id|];
      cbn [http_request]; try (intros []; fail).
    + destruct (negb _); intros [].
    + destruct (getHttpSession st id) as [[s0 o]|]; intros [].
    + destruct (getHttpSession st id) as [[s0 o]|]; [|intros []].
      pose proof (deliver_events_effects (arr_or_else_msgs events)
                    (touch st s0 o now) s0 now (Send s (Forward m))) as Heff.
      destruct (deliver_events _ _ s0 now) as [st1 out]. cbn [fst snd] in *.
      intros Hin Hm. exfalso.
      destruct (Heff Hin) as (ev & c & Hev & Heq & _).
      injection Heq as -> ->. rewrite with_defaults_result in Hm.
      destruct events as [evs|]; [|destruct Hev]. cbn [posts_result] in Hposts.
      assert (existsb (fun ev => is_str (msg_type ev) "control_result") evs = true)
        by (apply existsb_exists; eauto).
      congruence.
    + destruct (getHttpSession st id) as [[s0 o]|]; [|intros []].
      destruct (handle_control_result_cases (touch st s0 o now) (http_control_result rid))
        as [[-> _]|(p & Hp & Ho & ->)]; cbn [fst snd]; [intros []|].
      intros [Heq|[]] _. injection Heq as <- <-.
      exists p. repeat split; try done.
      cbn [pendingControl set_pendingControl]. apply lookup_delete_eq.
    + destruct (getHttpSession st id) as [[s0 o]|]; intros [].
    + destruct (getHttpSession st id) as [[s0 o]|]; intros [].
    + destruct (getHttpSession st id) as [[s0 o]|]; intros [].
  - intros [].
Qed.

(** A result posted to [/bridge/control/result] for an id without pending
    entry only refreshes the session. *)
Lemma late_http_result_ignored st id rid now s o :
  getHttpSession st id = Some (s, o) ->
  pendingControl st !! rid = None ->
  http_request st (BridgeControlResult id rid) now
  = (touch st s o now, [], Status 204 "").
Proof.
  intros Hs Hp. cbn [http_request]. rewrite Hs.
  unfold handle_control_result.
  change (pendingControl (touch st s o now)) with (pendingControl st).
  cbn [msg_id http_control_result]. by rewrite Hp.
Qed.

Lemma task_records_sound st t i s :
  task_records st t = Some (i, s) ->
  exists o, pendingControl (serve st t).1 !! i = Some (mkPending s o).
Proof.
  destruct t as [e|req now|now]; cbn [task_records serve]; try discriminate.
  apply records_sound.
Qed.

Lemma task_records_complete st t i p :
  task_records st t = None ->
  pendingControl (serve st t).1 !! i = Some p -> pendingControl st !! i = Some p.
Proof.
  destruct t as [e|req now|now]; cbn [task_records serve].
  - apply records_complete.
  - intros _. destruct (http_request_frame st req now) as (_ & _ & Hp). apply Hp.
  - intros _. destruct (prune_frame st now) as (_ & _ & _ & Hp & _).
    cbn [fst]. by rewrite Hp.
Qed.

(** C2 as stated fails.  In the first scenario the broker records request
    [x] of consumer 1 once, yet consumer 1 is sent two control_result frames
    with id [x]: the broker's own error reply to the repeated request, then
    the forwarded result.  In the second scenario an HTTP bridge posts two
    events of type control_result with id [x]; both are forwarded to consumer
    1, and so is the result of the bridge that was asked: three forwarded
    results for one recorded request. *)
Lemma control_result_sent_twice :
  recordings (Some "x") 1%nat (startServer "s3cr3t" 0) repeated_request_scenario = 1%nat
  /\ frames_to 1%nat (run (startServer "s3cr3t" 0) repeated_request_scenario).2
     = [ AuthSuccess "consumer" "consumer-11";
         ControlForwarded "x" 1%nat;
         ControlResultError (Some "x") "No bridge with control capability is connected";
         Forward (control_result_frame "x") ]
  /\ sent_results (Some "x") 1%nat
       (run (startServer "s3cr3t" 0) repeated_request_scenario).2 = 2%nat
  /\ task_recordings (Some "x") 1%nat (startServer "s3cr3t" 0) posted_results_scenario
     = 1%nat
  /\ forwarded_results (Some "x") 1%nat
       (serve_run (startServer "s3cr3t" 0) posted_results_scenario).2 = 3%nat.
Proof. vm_compute. repeat split; reflexivity. Qed.

(** C2, amended.  Over every run of the server (WebSocket tasks, HTTP
    requests, prune timer) in which no HTTP bridge posts an event of type
    control_result through /bridge/events: (1) the number of control_result
    frames with id [i] forwarded to session [s] is at most the number of
    requests with id [i] recorded for [s], plus the one in flight at the
    start: a recorded request gets at most one forwarded result (the
    broker's own error replies are not forwarded results and are not
    counted).  (2) Such a frame is written only by a result handler (a
    control_result frame on a socket, or a POST to /bridge/control/result),
    only to the recorded [replyTo], only while it is open, and the entry is
    deleted by that task.  (3) A result whose id has no pending entry is
    ignored, on a socket and over HTTP.  (4) After the close handler of a
    session no pending entry points to it.  (5) The recordings counted in
    (1) are the calls of [pendingControl.set]: a counted task leaves the
    entry in the map, no other task adds an entry.  (6) In the round-trip
    scenario the consumer sees control_forwarded and one result although
    the bridge answers twice, and so it does when the bridge is an HTTP
    bridge that polls. *)
Theorem control_correlation_at_most_once :
  (forall st ts i s,
     forallb (fun t => negb (posts_result t)) ts = true ->
     (forwarded_results i s (serve_run st ts).2
      <= in_flight i s st + task_recordings i s st ts)%nat)
  /\ (forall st t s m,
        posts_result t = false ->
        In (Send s (Forward m)) (serve st t).2 ->
        is_str (msg_type m) "control_result" = true ->
        exists p, pendingControl st !! msg_id m = Some p /\ replyTo p = s
                  /\ is_open st s = true
                  /\ pendingControl (serve st t).1 !! msg_id m = None)
  /\ (forall st ws c m now,
        conns st !! ws = Some c -> isAuthenticated c = true ->
        is_str (msg_type m) "control_result" = true ->
        pendingControl st !! msg_id m = None ->
        on_message st ws (Parsed m) now = (st, []))
  /\ (forall st id rid now s o,
        getHttpSession st id = Some (s, o) ->
        pendingControl st !! rid = None ->
        http_request st (BridgeControlResult id rid) now
        = (touch st s o now, [], Status 204 ""))
  /\ (forall st ws c i p,
        conns st !! ws = Some c ->
        pendingControl (on_close st ws) !! i = Some p -> replyTo p <> ws)
  /\ (forall st t i,
        (forall s, task_records st t = Some (i, s) ->
           exists o, pendingControl (serve st t).1 !! i = Some (mkPending s o))
        /\ (forall p, task_records st t = None ->
              pendingControl (serve st t).1 !! i = Some p ->
              pendingControl st !! i = Some p))
  /\ frames_to 1%nat (run (startServer "s3cr3t" 0) control_scenario).2 =
       [ AuthSuccess "consumer" "consumer-11";
         ControlForwarded "req-1" 1%nat;
         Forward (control_result_frame "req-1") ]
  /\ frames_to 0%nat (serve_run (startServer "s3cr3t" 0) polling_scenario).2 =
       [ AuthSuccess "consumer" "consumer-10";
         ControlForwarded "x" 1%nat;
         Forward (http_control_result (Some "x")) ].
Proof.
  split; [|split; [|split; [|split; [|split; [|split; [|split]]]]]].
  - intros st ts i s Hts. pose proof (serve_run_budget ts st i s Hts). lia.
  - apply serve_result_forward.
  - apply late_result_ignored.
  - apply late_http_result_ignored.
  - apply close_drops_pending.
  - intros st t i. split.
    + intros s. apply task_records_sound.
    + intros p. apply task_records_complete.
  - vm_compute. reflexivity.
  - vm_compute. reflexivity.
Qed.

Lemma control_correlation_witness :
  (forwarded_results (Some "x") 0%nat
     (serve_run (startServer "s3cr3t" 0) polling_scenario).2
   <= in_flight (Some "x") 0%nat (startServer "s3cr3t" 0)
      + task_recordings (Some "x") 0%nat (startServer "s3cr3t" 0) polling_scenario)%nat.
Proof.
  exact (proj1 control_correlation_at_most_once (startServer "s3cr3t" 0)
           polling_scenario (Some "x") 0%nat eq_refl).
Defined.

(** *** Frames that fail to parse *)

Lemma route_ids st m b now :
  readyState (route st m b now).2 = readyState st
  /\ next_ws (route st m b now).2 = next_ws st
  /\ bridges (route st m b now).2 = bridges st
  /\ httpBridgeSessions (route st m b now).2 = httpBridgeSessions st.
Proof. by destruct (route_window st m b now) as (w & n & ->). Qed.

Lemma authenticated_ids st ws c m now :
  let r := (if is_str (msg_type m) "ping" then (st, [Send ws Pong])
            else if is_str (role c) "bridge" then handle_bridge st ws c m now
            else if is_str (role c) "consumer" then handle_consumer st ws c m now
            else (st, [])) in
  readyState r.1 = readyState st /\ next_ws r.1 = next_ws st
  /\ bridges r.1 = bridges st /\ httpBridgeSessions r.1 = httpBridgeSessions st.
Proof.
  cbv zeta.
  destruct (is_str (msg_type m) "ping"); [done|].
  destruct (is_str (role c) "bridge").
  - unfold handle_bridge.
    destruct (is_str (msg_type m) "hello"); [done|].
    destruct (is_str (msg_type m) "control_result").
    { by destruct (handle_control_result_cases st m) as [[-> _]|(p & _ & _ & ->)]. }
    destruct (is_str (msg_type m) "control_request").
    { unfold handle_bridge_control_request.
      pose proof (route_ids st (with_level m "info") ws now) as Hr.
      by destruct (route st (with_level m "info") ws now) as [[|c0 cs] st1]. }
    destruct (is_str (msg_type m) "screenshot").
    + unfold handle_screenshot.
      destruct (negb _); [done|].
      destruct (screenshot_wait st ws now); [done|].
      pose proof (route_ids st m ws now) as Hr.
      destruct (route st m ws now) as [[|c0 cs] st1]; cbn [fst snd] in *; [done|].
      by destruct (_ || _)%bool.
    + unfold handle_broadcast.
      pose proof (route_ids st m ws now) as Hr.
      by destruct (route st m ws now) as [targets st1].
  - destruct (is_str (role c) "consumer"); [|done].
    unfold handle_consumer.
    destruct (is_str (msg_type m) "subscribe"); [done|].
    destruct (is_str (msg_type m) "control_request" || is_str (msg_type m) "control")%bool.
    { by destruct (handle_consumer_control_request_cases st ws c m now)
        as [[_ ->]|(_ & objs & -> & _)]. }
    destruct (is_str (msg_type m) "control_result"); [|done].
    by destruct (handle_control_result_cases st m) as [[-> _]|(p & _ & _ & ->)].
Qed.










(** *** Control requests to sockets and to polling bridges *)

Lemma nodup_serve st t : NoDup (bridges st) -> NoDup (bridges (serve st t).1).
Proof.
  intros Hn. destruct t as [e|req now|now]; cbn [serve].
  - destruct e as [|ws data now|ws|ws|ws]; cbn [step fst]; try done.
    + unfold on_message. destruct (conns st !! ws) as [c|]; [|done].
      destruct data as [err|m]; [done|].
      destruct (negb (isAuthenticated c)).
      * unfold handle_auth.
        repeat match goal with |- context [if ?b then _ else _] => destruct b end;
          cbn [fst]; try done. by apply nodup_set_add.
      * pose proof (authenticated_ids st ws c m now) as (_ & _ & Hb & _).
        cbv zeta in Hb. by rewrite Hb.
    + unfold on_auth_timeout. destruct (conns st !! ws) as [c|]; [|done].
      by repeat match goal with |- context [if ?b then _ else _] => destruct b end.
    + unfold on_closing. by destruct (conns st !! ws).
    + unfold on_close. destruct (conns st !! ws) as [c|]; [|done].
      repeat match goal with |- context [if ?b then _ else _] => destruct b end;
        host_fields; cbn [bridges]; try done. by apply nodup_set_delete.
  - destruct req as [|bs sh newId|id body|id events|id rid|id|id|id|];
      cbn [http_request]; try done.
    + destruct (negb _); cbn [fst bridges]; [done|]. by apply nodup_set_add.
    + by destruct (getHttpSession st id) as [[s o]|].
    + destruct (getHttpSession st id) as [[s o]|]; [|done].
      destruct (deliver_events_window (arr_or_else_msgs events) (touch st s o now) s now)
        as (w & n & Hw).
      destruct (deliver_events _ _ s now) as [st1 out]. cbn [fst] in *. by subst st1.
    + destruct (getHttpSession st id) as [[s o]|]; [|done].
      by destruct (handle_control_result_cases (touch st s o now) (http_control_result rid))
        as [[-> _]|(p & _ & _ & ->)].
    + by destruct (getHttpSession st id) as [[s o]|].
    + by destruct (getHttpSession st id) as [[s o]|].
    + destruct (getHttpSession st id) as [[s o]|]; [|done].
      cbn [fst]. unfold removeHttpSession. host_fields. cbn [bridges].
      by apply nodup_set_delete.
  - cbn [fst]. unfold pruneHttpSessions. apply prune_fold; [done|].
    intros st1 s o H1. unfold removeHttpSession. host_fields. cbn [bridges].
    by apply nodup_set_delete.
Qed.

Lemma nodup_reachable sec t ts : NoDup (bridges (serve_run (startServer sec t) ts).1).
Proof.
  assert (H : forall ts st, NoDup (bridges st) -> NoDup (bridges (serve_run st ts).1)).
  { clear. induction ts as [|t0 ts IH]; intros st Hn; cbn [serve_run]; [done|].
    pose proof (nodup_serve st t0 Hn) as H1.
    destruct (serve st t0) as [st1 out1]. specialize (IH st1 H1).
    by destruct (serve_run st1 ts). }
  apply H. cbn [startServer bridges]. constructor.
Qed.

Lemma nodup_control_targets st : NoDup (bridges st) -> NoDup (control_targets st).
Proof.
  unfold control_targets. generalize (bridges st) as l.
  intros l. induction 1 as [|x l Hx Hl IH]; cbn [List.filter]; [constructor|].
  destruct (_ && _)%bool; [|exact IH].
  constructor; [|exact IH]. rewrite list_elem_of_In. intros Hin.
  apply filter_In in Hin as [Hin _]. apply Hx. by apply list_elem_of_In.
Qed.

(** The queues after the delivery loop: each session among the targets has
    the payload appended, every other object is as before. *)
Lemma deliver_control_sessions targets : forall st payload b,
  NoDup targets ->
  (In b targets ->
   sessions (deliver_control st targets payload).1 !! b
   = (fun o => mkSession (sessionId o) (queue o ++ [payload]) (lastSeen o))
       <$> sessions st !! b)
  /\ (~ In b targets ->
      sessions (deliver_control st targets payload).1 !! b = sessions st !! b).
Proof.
  induction targets as [|b0 rest IH]; intros st payload b Hn; cbn [deliver_control].
  - split; [intros []|done].
  - apply NoDup_cons in Hn as [Hb0 Hrest]. rewrite list_elem_of_In in Hb0.
    destruct (sessions st !! b0) as [o0|] eqn:Ho0.
    + destruct (IH (set_http st (httpBridgeSessions st)
                      (<[b0 := mkSession (sessionId o0) (queue o0 ++ [payload])
                                 (lastSeen o0)]> (sessions st))) payload b Hrest)
        as [Hin Hout].
      cbn [sessions set_http] in Hin, Hout.
      destruct (decide (b = b0)) as [->|Hne].
      * split; [|intros H; exfalso; apply H; by left].
        intros _. rewrite Hout by done. by rewrite lookup_insert_eq, Ho0.
      * rewrite lookup_insert_ne in Hin, Hout by done. split.
        -- intros [Heq|H]; [by subst|]. by apply Hin.
        -- intros H. apply Hout. intros H1. apply H. by right.
    + destruct (IH st payload b Hrest) as [Hin Hout].
      destruct (deliver_control st rest payload) as [st1 out]. cbn [fst] in *.
      destruct (decide (b = b0)) as [->|Hne].
      * split; [|intros H; exfalso; apply H; by left].
        intros _. rewrite Hout by done. by rewrite Ho0.
      * split.
        -- intros [Heq|H]; [by subst|]. by apply Hin.
        -- intros H. apply Hout. intros H1. apply H. by right.
Qed.

(** X12.  Control round trip.  In a state the server reaches, let an
    authenticated consumer send a control request (type control_request or
    control) while at least one open bridge advertises control.  Then
    (1) every such bridge that is a socket is written the request, as type
    control_request with the request id (the given one, or
    "<clientId>-<now>"), in the order of [bridges], and the consumer gets
    control_forwarded with the number of all such bridges, sockets and HTTP
    sessions; (2) every such bridge that is an HTTP session has the request
    appended to its queue, and a poll of that session returns the queue;
    every other session is untouched; (3) the request is pending for the
    consumer; (4) while the consumer is open, the first control_result with
    that id, sent by an authenticated bridge on a socket or posted to
    /bridge/control/result, is forwarded to the consumer and consumes the
    pending entry. *)
Theorem control_round_trip :
  forall sec t ts ws c m now,
    let st := (serve_run (startServer sec t) ts).1 in
    conns st !! ws = Some c -> isAuthenticated c = true -> role c = Some "consumer" ->
    (msg_type m = Some "control_request" \/ msg_type m = Some "control") ->
    control_targets st <> [] ->
    let reqId := or_else (msg_id m)
                   (match clientId c with Some i => i | None => "null" end
                    ++ "-" ++ show_Z now) in
    let payload := with_type_id m "control_request" reqId in
    let r1 := on_message st ws (Parsed m) now in
    r1.2 = (List.map (fun b => Send b (Forward payload))
              (socket_targets st (control_targets st))
            ++ [Send ws (ControlForwarded reqId (length (control_targets st)))])%list
    /\ (forall b o, In b (control_targets st) -> sessions st !! b = Some o ->
          sessions r1.1 !! b
          = Some (mkSession (sessionId o) (queue o ++ [payload]) (lastSeen o))
          /\ forall id now', httpBridgeSessions st !! id = Some b ->
               (http_request r1.1 (BridgeControlPoll (Some id)) now').2
               = Commands (queue o ++ [payload]))
    /\ (forall b, ~ In b (control_targets st) -> sessions r1.1 !! b = sessions st !! b)
    /\ pendingControl r1.1 !! Some reqId = Some (mkPending ws FromConsumer)
    /\ (forall b cb r now',
          conns st !! b = Some cb -> isAuthenticated cb = true -> role cb = Some "bridge" ->
          msg_type r = Some "control_result" -> msg_id r = Some reqId ->
          is_open st ws = true ->
          (on_message r1.1 b (Parsed r) now').2 = [Send ws (Forward r)]
          /\ pendingControl (on_message r1.1 b (Parsed r) now').1 !! Some reqId = None)
    /\ (forall id s o now',
          getHttpSession r1.1 id = Some (s, o) -> is_open st ws = true ->
          (http_request r1.1 (BridgeControlResult id (Some reqId)) now').1.2
          = [Send ws (Forward (http_control_result (Some reqId)))]
          /\ pendingControl (http_request r1.1 (BridgeControlResult id (Some reqId)) now').1.1
               !! Some reqId = None).
Proof.
  intros sec t ts ws c m now st Hc Ha Hr Hty Htargets reqId payload r1.
  assert (Hnd : NoDup (control_targets st))
    by apply nodup_control_targets, nodup_reachable.
  assert (Hr1 : r1 = handle_consumer_control_request st ws c m now).
  { unfold r1, on_message. rewrite Hc, Ha, Hr. cbn [negb is_str].
    unfold handle_consumer. destruct Hty as [-> | ->]; reflexivity. }
  assert (Hshape : exists objs,
            r1 = (set_http
                    (set_pendingControl st
                       (<[Some reqId := mkPending ws FromConsumer]> (pendingControl st)))
                    (httpBridgeSessions st) objs,
                  (List.map (fun b => Send b (Forward payload))
                     (socket_targets st (control_targets st))
                   ++ [Send ws (ControlForwarded reqId (length (control_targets st)))])%list)
            /\ forall b,
                 (In b (control_targets st) ->
                  objs !! b
                  = (fun o => mkSession (sessionId o) (queue o ++ [payload])
                                (lastSeen o)) <$> sessions st !! b)
                 /\ (~ In b (control_targets st) -> objs !! b = sessions st !! b)).
  { rewrite Hr1. unfold handle_consumer_control_request. fold reqId. fold payload.
    destruct (control_targets st) as [|b0 bs] eqn:Ht; [done|].
    set (st1 := set_pendingControl st _).
    pose proof (fun b => deliver_control_sessions (b0 :: bs) st1 payload b Hnd) as Hq.
    destruct (deliver_control_cases (b0 :: bs) st1 payload) as (objs & Heq & _).
    rewrite Heq in Hq |- *. exists objs. split; [reflexivity|exact Hq]. }
  destruct Hshape as (objs & Heq & Hobjs). rewrite Heq. cbn [fst snd].
  split; [reflexivity|]. split; [|split; [|split; [|split]]].
  - intros b o Hin Ho.
    assert (Hb : objs !! b
                 = Some (mkSession (sessionId o) (queue o ++ [payload]) (lastSeen o)))
      by (destruct (Hobjs b) as [H _]; by rewrite H, Ho).
    split; [exact Hb|].
    intros id now' Hid. cbn [http_request getHttpSession httpBridgeSessions sessions set_http
                             set_pendingControl].
    by rewrite Hid, Hb.
  - intros b Hnin. cbn [sessions set_http]. by destruct (Hobjs b) as [_ ->].
  - cbn [pendingControl set_http set_pendingControl]. apply lookup_insert_eq.
  - intros b cb r now' Hcb Hab Hrb Htr Hidr Hopen.
    unfold on_message. cbn [conns set_http set_pendingControl].
    rewrite Hcb, Hab, Hrb, Htr. cbn [negb is_str].
    unfold handle_bridge. rewrite Htr. cbn [is_str String.eqb Ascii.eqb Bool.eqb].
    unfold handle_control_result. cbn [pendingControl set_http set_pendingControl].
    rewrite Hidr, lookup_insert_eq. cbn [replyTo].
    change (is_open (set_http _ _ _) ws) with (is_open st ws).
    rewrite Hopen. cbn [fst snd pendingControl set_pendingControl set_http].
    split; [reflexivity|]. apply lookup_delete_eq.
  - intros id s o now' Hs Hopen. cbn [http_request]. rewrite Hs.
    unfold handle_control_result.
    cbn [pendingControl set_http set_pendingControl touch msg_id http_control_result].
    rewrite lookup_insert_eq. cbn [replyTo].
    change (is_open (touch _ _ _ _) ws) with (is_open st ws).
    rewrite Hopen. unfold touch. cbn [fst snd pendingControl set_pendingControl set_http].
    split; [reflexivity|]. apply lookup_delete_eq.
Qed.

Lemma control_round_trip_witness :
  let st := (serve_run (startServer "s3cr3t" 0)
               [ Ws Connection;
                 Ws (Incoming 0%nat (Parsed (auth_frame "s3cr3t" "consumer")) 10);
                 Http (BridgeConnect None (Some "s3cr3t") "5e55") 11;
                 Http (BridgeHello (Some "5e55") (hello_frame ["control"])) 12 ]).1 in
  (on_message st 0%nat (Parsed (control_request_frame "x")) 13).2
  = [Send 0%nat (ControlForwarded "x" 1%nat)]
  /\ (http_request (on_message st 0%nat (Parsed (control_request_frame "x")) 13).1
        (BridgeControlPoll (Some "5e55")) 14).2
     = Commands [control_request_frame "x"].
Proof.
  intros st.
  assert (Hc : conns st !! 0%nat
               = Some (mkConn true (Some "consumer") (Some "consumer-10") false))
    by (vm_compute; reflexivity).
  assert (Ht : control_targets st <> []) by (vm_compute; discriminate).
  destruct (control_round_trip "s3cr3t" 0 _ 0%nat _ (control_request_frame "x") 13
              Hc eq_refl eq_refl (or_introl eq_refl) Ht) as (H1 & H2 & _).
  split.
  - vm_compute in H1 |- *. exact H1.
  - assert (Ho : sessions st !! 1%nat = Some (mkSession "5e55" [] 12))
      by (vm_compute; reflexivity).
    assert (Hin : In 1%nat (control_targets st)) by (vm_compute; auto).
    assert (Hid : httpBridgeSessions st !! "5e55" = Some 1%nat)
      by (vm_compute; reflexivity).
    destruct (H2 1%nat _ Hin Ho) as [_ Hpoll].
    specialize (Hpoll "5e55" 14 Hid). vm_compute in Hpoll |- *. exact Hpoll.
Defined.

End HostServer.
(** ** Redaction *)

Module RedactProofs.
Import Js Client ClientSpec ClientInv.


Lemma imap_twice {A} (l : list A) : forall f : nat -> A -> A,
  (forall i x, f i (f i x) = f i x) -> imap f (imap f l) = imap f l.
Proof.
  induction l as [|x l IH]; intros f Hf; cbn [imap]; [done|].
  rewrite Hf. f_equal. apply IH. intros i y. apply Hf.
Qed.

Lemma redact_entry_twice keys k v :
  redact_entry keys k (redact_entry keys k v) = redact_entry keys k v.
Proof. unfold redact_entry. by destruct (is_sensitive keys k). Qed.

Lemma redactObject_twice obj keys :
  redactObject (redactObject obj keys) keys = redactObject obj keys.
Proof.
  destruct obj as [| | | | |items|entries]; try reflexivity; cbn [redactObject]; f_equal.
  - apply imap_twice. intros i x. apply redact_entry_twice.
  - rewrite List.map_map. apply List.map_ext. intros [k v]. cbn [fst snd].
    by rewrite redact_entry_twice.
Qed.

Lemma redact_all_twice xs : redact_all (redact_all xs) = redact_all xs.
Proof.
  unfold redact_all. rewrite List.map_map. apply List.map_ext.
  intros x. apply redactObject_twice.
Qed.












End RedactProofs.

(** ** More about the bridge client *)

Module ClientMore.
Import Js Client ClientSpec ClientInv ClientProofs.

Lemma run_app es1 : forall st es2,
  run st (es1 ++ es2)
  = ((run (run st es1).1 es2).1, ((run st es1).2 ++ (run (run st es1).1 es2).2)%list).
Proof.
  induction es1 as [|e es1 IH]; intros st es2; cbn [run app fst snd].
  - by destruct (run st es2).
  - destruct (step st e) as [st1 out1]. rewrite IH.
    destruct (run st1 es1) as [st2 out2]. cbn [fst snd].
    destruct (run st2 es2) as [st3 out3]. cbn [fst snd]. by rewrite app_assoc.
Qed.

(** *** Sending while the socket is not open *)

Lemma keep_last_short {A} n (l : list A) : (length l <= n)%nat -> keep_last n l = l.
Proof. intros H. unfold keep_last. by replace (length l - n)%nat with 0%nat by lia. Qed.

Lemma keep_last_length {A} n (l : list A) :
  length (keep_last n l) = Nat.min n (length l).
Proof. unfold keep_last. rewrite length_drop. lia. Qed.

Lemma keep_last_app {A} n (a r : list A) :
  keep_last n (keep_last n a ++ r) = keep_last n (a ++ r).
Proof.
  unfold keep_last at 1 3. rewrite length_app, keep_last_length, length_app.
  unfold keep_last.
  destruct (decide (length a <= n)%nat) as [Hle|Hgt].
  - replace (length a - n)%nat with 0%nat by lia. cbn [drop].
    f_equal. lia.
  - rewrite <- (drop_app_le a r (length a - n)) by lia.
    rewrite drop_drop. f_equal. lia.
Qed.

Lemma enqueue_keeps_newest st ev :
  (1 <= bufferLimit (cfg st))%nat ->
  (length (buffer st) <= bufferLimit (cfg st))%nat ->
  buffer (enqueue st ev) = keep_last (bufferLimit (cfg st)) (buffer st ++ [ev])
  /\ dropped (enqueue st ev)
     = (dropped st + (length (buffer st ++ [ev]) - bufferLimit (cfg st)))%nat
  /\ ready (enqueue st ev) = ready st.
Proof.
  intros H1 Hb. unfold enqueue, keep_last. rewrite length_app. cbn [length].
  destruct (bufferLimit (cfg st) <=? length (buffer st))%nat eqn:Hfull; client_fields.
  - apply Nat.leb_le in Hfull.
    replace (length (buffer st) + 1 - bufferLimit (cfg st))%nat with 1%nat by lia.
    destruct (buffer st) as [|x b]; cbn [length] in *; [lia|].
    repeat split; lia.
  - apply Nat.leb_gt in Hfull.
    replace (length (buffer st) + 1 - bufferLimit (cfg st))%nat with 0%nat by lia.
    repeat split; lia.
Qed.

Lemma safe_events_cons ev evs :
  safe_events (ev :: evs)
  = match validateAndRedact ev with
    | Some safe => safe :: safe_events evs
    | None => safe_events evs
    end.
Proof. reflexivity. Qed.

Lemma run_offline_sends evs : forall st,
  ready st = false -> (1 <= bufferLimit (cfg st))%nat ->
  (length (buffer st) <= bufferLimit (cfg st))%nat ->
  let r := run st (List.map Send evs) in
  r.2 = [] /\ cfg r.1 = cfg st /\ ready r.1 = false /\ ws r.1 = ws st
  /\ buffer r.1 = keep_last (bufferLimit (cfg st)) (buffer st ++ safe_events evs)
  /\ dropped r.1
     = (dropped st + (length (buffer st ++ safe_events evs) - bufferLimit (cfg st)))%nat.
Proof.
  induction evs as [|ev evs IH]; intros st Hr H1 Hb; cbn [List.map run].
  - cbn [fst snd safe_events omap]. rewrite app_nil_r, keep_last_short by done.
    repeat split; try done. lia.
  - cbn [step]. unfold send. rewrite safe_events_cons.
    destruct (validateAndRedact ev) as [safe|] eqn:Hv.
    + rewrite Hr.
      destruct (enqueue_keeps_newest st safe H1 Hb) as (Hbuf & Hdrop & Hready).
      assert (Hlen : (length (buffer (enqueue st safe)) <= bufferLimit (cfg st))%nat)
        by (rewrite Hbuf, keep_last_length; lia).
      pose proof (enqueue_cfg st safe) as Hcfg.
      assert (Hws : ws (enqueue st safe) = ws st)
        by (unfold enqueue; by destruct (_ <=? _)%nat).
      specialize (IH (enqueue st safe)). rewrite Hcfg, Hready in IH.
      specialize (IH Hr H1 Hlen). cbn zeta in IH.
      destruct (run (enqueue st safe) (List.map Send evs)) as [st2 out2].
      cbn [fst snd] in *.
      destruct IH as (-> & -> & -> & -> & -> & ->).
      repeat split; try done.
      * rewrite Hbuf, keep_last_app. by rewrite <- app_assoc.
      * rewrite Hdrop, Hbuf.
        rewrite !length_app, keep_last_length, length_app. cbn [length]. lia.
    + specialize (IH st Hr H1 Hb). cbn zeta in IH.
      destruct (run st (List.map Send evs)) as [st2 out2]. cbn [fst snd] in *.
      exact IH.
Qed.

Lemma run_then_open st es :
  run st (es ++ [Connect; Open])
  = ((step (connect (run st es).1 false) Open).1,
     ((run st es).2 ++ (step (connect (run st es).1 false) Open).2)%list).
Proof.
  rewrite run_app. cbn [run step app fst snd].
  destruct (onopen _) as [st3 out3]. cbn [fst snd]. by rewrite app_nil_r.
Qed.

Lemma open_after_connect st :
  wire (step (connect st false) Open).2 =
    ([auth_of (cfg st); hello_of (cfg st)] ++ List.map FEvent (buffer st)
     ++ (if (0 <? dropped st)%nat then [drop_notice (dropped st)] else []))%list
  /\ buffer (step (connect st false) Open).1 = []
  /\ dropped (step (connect st false) Open).1 = 0%nat.
Proof. exact (open_flushes (connect st false) 0 eq_refl). Qed.

(** X14.  Offline sends, then a connection.  Whatever number of events is
    sent while the socket is not open, the client keeps the newest
    [bufferLimit] accepted events (together with what was buffered before) in
    order and counts the others as dropped; when it then connects and the
    socket opens it writes auth, hello, exactly those events oldest first,
    and one drop notice with the total count if anything was dropped; the
    buffer and the counter are empty afterwards. *)
Theorem offline_sends_keep_newest :
  forall st evs,
    ready st = false -> (1 <= bufferLimit (cfg st))%nat ->
    (length (buffer st) <= bufferLimit (cfg st))%nat ->
    let limit := bufferLimit (cfg st) in
    let all := (buffer st ++ safe_events evs)%list in
    let lost := (dropped st + (length all - limit))%nat in
    let r := run st (List.map Send evs ++ [Connect; Open]) in
    wire r.2
    = ([auth_of (cfg st); hello_of (cfg st)] ++ List.map FEvent (keep_last limit all)
       ++ (if (0 <? lost)%nat then [drop_notice lost] else []))%list
    /\ buffer r.1 = [] /\ dropped r.1 = 0%nat.
Proof.
  intros st evs Hr H1 Hb. cbv zeta.
  pose proof (run_offline_sends evs st Hr H1 Hb) as H. cbv zeta in H.
  destruct H as (Hout & Hcfg & _ & _ & Hbuf & Hdrop).
  pose proof (run_then_open st (List.map Send evs)) as Hrun.
  destruct (run st (List.map Send evs ++ [Connect; Open])) as [stf outf].
  destruct (run st (List.map Send evs)) as [st1 out1].
  cbn [fst snd] in *. subst out1.
  destruct (open_after_connect st1) as (Hw & Hb2 & Hd2).
  destruct (step (connect st1 false) Open) as [st3 out3].
  cbn [fst snd app] in *. injection Hrun as -> ->.
  split; [|split; assumption].
  rewrite Hw, Hbuf, Hdrop, Hcfg. reflexivity.
Qed.

Lemma offline_sends_keep_newest_witness :
  wire (run (new_client (test_config 3)) buffer_scenario).2
  = [auth_of (test_config 3); hello_of (test_config 3);
     FEvent (console_event "m2"); FEvent (console_event "m3");
     FEvent (console_event "m4"); drop_notice 2].
Proof.
  exact (proj1 (offline_sends_keep_newest (new_client (test_config 3))
                  [console_event "m0"; console_event "m1"; console_event "m2";
                   console_event "m3"; console_event "m4"]
                  eq_refl ltac:(cbn; lia) ltac:(cbn; lia))).
Defined.

(** X15.  Sending while the socket is open.  Every accepted event is written
    at once, in the order of the calls; nothing is buffered or counted as
    dropped, and the state does not change. *)
Theorem online_sends_written_in_order :
  forall st evs,
    ready st = true ->
    run st (List.map Send evs)
    = (st, List.map (fun ev => Tx (FEvent ev)) (safe_events evs)).
Proof.
  intros st evs Hr. induction evs as [|ev evs IH]; [reflexivity|].
  cbn [List.map run step]. unfold send. rewrite safe_events_cons.
  destruct (validateAndRedact ev) as [safe|]; rewrite ?Hr, IH; reflexivity.
Qed.

Lemma online_sends_written_in_order_witness :
  let st := (run (new_client (test_config 3)) [Connect; Open]).1 in
  run st [Send (console_event "a");
          Send (mkEvent "" "info" (code_units "x") 0 "web" None None);
          Send (console_event "b")]
  = (st, [Tx (FEvent (console_event "a")); Tx (FEvent (console_event "b"))]).
Proof.
  intros st.
  exact (online_sends_written_in_order st
           [console_event "a"; mkEvent "" "info" (code_units "x") 0 "web" None None;
            console_event "b"]
           eq_refl).
Defined.

(** X16.  The client writes on an open socket only.  A handler writes a
    frame only if [this.ws] is OPEN when it runs (the open handler: if the
    client still holds the socket that opened); with [this.ws] null, as after
    [disconnect()], nothing is ever written. *)
Theorem frames_need_open_socket :
  forall st e,
    wire (step st e).2 <> [] ->
    ready st = true \/ (e = Open /\ ws st <> None).
Proof.
  intros st e Hw.
  destruct (ready st) eqn:Hr; [by left|right].
  destruct e; cbn [step] in Hw;
    try (exfalso; apply Hw; clear Hw;
         unfold onerror, handleIncoming, send, disconnect, sendPing, heartbeat_expires,
           control_settles, sendRaw;
         rewrite ?Hr;
         repeat match goal with
                | |- context [if ?b then _ else _] => destruct b
                | |- context [match ?x with _ => _ end] => destruct x
                end; reflexivity).
  split; [reflexivity|]. intros Hnone. apply Hw.
  unfold onopen, socket_state, startHeartbeat, stopHeartbeat, sendHello, sendRaw,
    flushBuffer, ready. do 3 (client_fields; rewrite ?Hnone). cbn [negb].
  client_fields. destruct (promise st); reflexivity.
Qed.

Lemma frames_need_open_socket_witness :
  let st := (run (new_client (test_config 3)) [Connect; Open]).1 in
  ready st = true \/ (HeartbeatTick = Open /\ ws st <> None).
Proof.
  intros st.
  exact (frames_need_open_socket st HeartbeatTick ltac:(vm_compute; discriminate)).
Defined.

(** *** Heartbeat *)

Lemma step_no_tick_keeps_timer_off st e :
  heartbeatTimeout st = NoTimer -> is_tick e = false ->
  heartbeatTimeout (step st e).1 = NoTimer.
Proof.
  intros Ht Hn. destruct e; try discriminate; cbn [step].
  - done.
  - unfold onopen, sendHello, flushBuffer.
    repeat match goal with
           | |- context [if ?b then _ else _] => destruct b
           | |- context [match ?x with _ => _ end] => destruct x
           end; reflexivity.
  - unfold onerror.
    repeat match goal with
           | |- context [match ?x with _ => _ end] => destruct x
           end; reflexivity.
  - unfold catch_runs. by destruct (promise st).
  - unfold onclose, scheduleReconnect.
    by destruct (reconnectTimeout _).
  - unfold reconnect_fires. by destruct (reconnectTimeout st).
  - unfold handleIncoming, resetHeartbeatTimeout. rewrite Ht.
    destruct raw as [|msg]; [done|].
    repeat match goal with
           | |- context [if ?b then _ else _] => destruct b
           | |- context [match ?x with _ => _ end] => destruct x
           end; done.
  - unfold send. destruct (validateAndRedact event); [|done].
    destruct (ready st); [done|]. unfold enqueue. by destruct (_ <=? _)%nat.
  - unfold disconnect. by destruct (ws _).
  - by rewrite Ht.
  - done.
  - unfold control_settles. by destruct (calls st !! i).
Qed.

(** X19.  Heartbeat.  The timeout that closes a silent socket is armed by
    the ping callback only: from a state without it, no run in which the
    heartbeat interval does not fire arms it, and the timeout callback then
    does nothing (a pong in particular does not start it).  The socket
    opening starts the interval with the timeout off; close, error and
    [disconnect()] stop both. *)
Theorem heartbeat_timeout_armed_by_ping_only :
  forall st es,
    heartbeatTimeout st = NoTimer ->
    forallb (fun e => negb (is_tick e)) es = true ->
    heartbeatTimeout (run st es).1 = NoTimer
    /\ step (run st es).1 HeartbeatExpires = ((run st es).1, [])
    /\ (let st1 := (step (run st es).1 Open).1 in
        heartbeatInterval st1 = true /\ heartbeatTimeout st1 = NoTimer)
    /\ forall e, e = Close \/ e = Error \/ e = Disconnect ->
         let st1 := (step (run st es).1 e).1 in
         heartbeatInterval st1 = false /\ heartbeatTimeout st1 = NoTimer
         /\ step st1 HeartbeatTick = (st1, []).
Proof.
  intros st es Ht Hes.
  assert (Hoff : heartbeatTimeout (run st es).1 = NoTimer).
  { revert st Ht Hes. induction es as [|e es IH]; intros st Ht Hes; [done|].
    cbn [forallb] in Hes. apply andb_true_iff in Hes as [He Hes].
    apply negb_true_iff in He.
    pose proof (step_no_tick_keeps_timer_off st e Ht He) as H1.
    cbn [run]. destruct (step st e) as [st1 out1]. cbn [fst] in H1.
    specialize (IH st1 H1 Hes). by destruct (run st1 es). }
  set (st' := (run st es).1) in *. clearbody st'.
  split; [exact Hoff|]. split; [cbn [step]; by rewrite Hoff|].
  split.
  - cbn [step]. unfold onopen, sendHello, flushBuffer.
    repeat match goal with
           | |- context [if ?b then _ else _] => destruct b
           | |- context [match ?x with _ => _ end] => destruct x
           end; split; reflexivity.
  - intros e [->|[->| ->]]; cbn [step].
    + unfold onclose, scheduleReconnect.
      destruct (reconnectTimeout _); cbn [step fst]; client_fields; done.
    + unfold onerror.
      destruct (promise _) as [|[]|]; cbn [step fst]; client_fields; done.
    + unfold disconnect. destruct (ws _); cbn [step fst]; client_fields; done.
Qed.

Lemma heartbeat_timeout_armed_by_ping_only_witness :
  let st := (run (new_client (test_config 3))
               [Connect; Open; Message (Parsed (mkInMsg (Some "pong") None None))]).1 in
  step st HeartbeatExpires = (st, []).
Proof.
  intros st.
  exact (proj1 (proj2 (heartbeat_timeout_armed_by_ping_only (new_client (test_config 3))
                         [Connect; Open; Message (Parsed (mkInMsg (Some "pong") None None))]
                         eq_refl eq_refl))).
Defined.

(** *** Reconnecting *)

Lemma step_cfg st e : cfg (step st e).1 = cfg st.
Proof.
  destruct e; cbn [step];
    unfold onopen, socket_state, sendHello, flushBuffer, onerror, catch_runs, onclose,
      scheduleReconnect, reconnect_fires, handleIncoming, resetHeartbeatTimeout, send,
      disconnect, sendPing, heartbeat_expires, control_settles;
    repeat match goal with
           | |- context [if ?b then _ else _] => destruct b
           | |- context [match ?x with _ => _ end] => destruct x
           end; try reflexivity; apply enqueue_cfg.
Qed.

Lemma step_delay_in_range st e : delay_in_range st -> delay_in_range (step st e).1.
Proof.
  unfold delay_in_range. rewrite step_cfg. intros Hd.
  assert (Hmin : RECONNECT_INITIAL_DELAY_MS
                 <= Z.min (reconnectDelay st * 2) (maxReconnectDelay (cfg st))
                 <= maxReconnectDelay (cfg st))
    by (unfold RECONNECT_INITIAL_DELAY_MS in *; lia).
  destruct e; cbn [step];
    unfold onopen, socket_state, sendHello, flushBuffer, onerror, catch_runs, backoff,
      onclose, scheduleReconnect, reconnect_fires, handleIncoming, resetHeartbeatTimeout,
      send, disconnect, sendPing, heartbeat_expires, enqueue, startHeartbeat,
      stopHeartbeat, setHeartbeatTimeout, connect, control_settles;
    repeat match goal with
           | |- context [if ?b then _ else _] => destruct b
           | |- context [match ?x with _ => _ end] => destruct x
           end; client_fields; try exact Hd; try exact Hmin;
    unfold RECONNECT_INITIAL_DELAY_MS in *; lia.
Qed.

(** X20.  Bounds of the reconnect delay.  If the delay starts between the
    initial delay (1000 ms) and the cap, it stays there in every run, and so
    does every delay with which the reconnect timer is armed; the open
    handler puts it back to the initial delay. *)
Theorem reconnect_delay_stays_in_range :
  forall es st,
    delay_in_range st ->
    delay_in_range (run st es).1
    /\ Forall (fun d => RECONNECT_INITIAL_DELAY_MS <= d <= maxReconnectDelay (cfg st))
         (armed_delays st es)
    /\ reconnectDelay (step (run st es).1 Open).1 = RECONNECT_INITIAL_DELAY_MS.
Proof.
  intros es st Hd.
  assert (Hrun : forall es st, delay_in_range st ->
            delay_in_range (run st es).1
            /\ Forall (fun d => RECONNECT_INITIAL_DELAY_MS <= d
                                <= maxReconnectDelay (cfg st)) (armed_delays st es)).
  { clear. induction es as [|e es IH]; intros st Hd; cbn [run armed_delays].
    - split; [exact Hd|constructor].
    - pose proof (step_delay_in_range st e Hd) as H1.
      pose proof (step_cfg st e) as Hc.
      assert (Harm : forall d, reconnectTimeout st = None ->
                reconnectTimeout (step st e).1 = Some d ->
                RECONNECT_INITIAL_DELAY_MS <= d <= maxReconnectDelay (cfg st)).
      { intros d Hnone. unfold delay_in_range in Hd.
        destruct e; cbn [step];
          unfold onopen, socket_state, sendHello, flushBuffer, onerror, catch_runs,
            backoff, onclose, scheduleReconnect, reconnect_fires, handleIncoming,
            resetHeartbeatTimeout, send, disconnect, sendPing, heartbeat_expires, enqueue,
            startHeartbeat, stopHeartbeat, setHeartbeatTimeout, connect, control_settles;
          repeat match goal with
                 | |- context [if ?b then _ else _] => destruct b eqn:?
                 | |- context [match ?x with _ => _ end] => destruct x eqn:?
                 end; client_fields; intros Hsome; try congruence;
          injection Hsome as <-; exact Hd. }
      destruct (IH (step st e).1 H1) as [Hr Hf]. rewrite Hc in Hf.
      destruct (step st e) as [st1 out1]. cbn [fst] in *.
      destruct (run st1 es) as [st2 out2]. cbn [fst] in *.
      split; [exact Hr|].
      destruct (reconnectTimeout st) as [t|]; [exact Hf|].
      destruct (reconnectTimeout st1) as [d|]; [|exact Hf].
      constructor; [by apply Harm|exact Hf]. }
  destruct (Hrun es st Hd) as [H1 H2]. split; [exact H1|]. split; [exact H2|].
  cbn [step]. unfold onopen, socket_state, sendHello, flushBuffer.
  repeat match goal with
         | |- context [if ?b then _ else _] => destruct b
         | |- context [match ?x with _ => _ end] => destruct x
         end; reflexivity.
Qed.

Lemma reconnect_delay_stays_in_range_witness :
  Forall (fun d => RECONNECT_INITIAL_DELAY_MS <= d <= RECONNECT_MAX_DELAY_MS)
    (armed_delays (new_client (test_config 3))
       (Connect :: Open :: Close :: failed_attempt ++ failed_attempt)).
Proof.
  exact (proj1 (proj2 (reconnect_delay_stays_in_range
                         (Connect :: Open :: Close :: failed_attempt ++ failed_attempt)
                         (new_client (test_config 3))
                         ltac:(vm_compute; split; discriminate)))).
Defined.

(** X21.  [disconnect()] and the close event.  [disconnect()] cancels the
    reconnect timer, stops the heartbeat, closes the socket and forgets it.
    The close event of that socket, which still runs the close handler, arms
    the reconnect timer again with the current delay, and when the timer
    fires the client connects anew. *)
Theorem disconnect_then_close_rearms_reconnect :
  forall st r,
    ws st = Some r ->
    let st1 := (step st Disconnect).1 in
    let st2 := (step st1 Close).1 in
    (step st Disconnect).2 = [SocketClose]
    /\ ws st1 = None /\ reconnectTimeout st1 = None
    /\ reconnectTimeout st2 = Some (reconnectDelay st)
    /\ ws (step st2 ReconnectFires).1 = Some 0.
Proof.
  intros st r Hws.
  assert (Hd : disconnect st
               = (set_ws (stopHeartbeat (set_reconnectTimeout st None)) None,
                  [SocketClose])).
  { unfold disconnect.
    change (ws (stopHeartbeat (set_reconnectTimeout st None))) with (ws st).
    by rewrite Hws. }
  cbn [step]. rewrite Hd. cbn [fst snd].
  do 3 (split; [reflexivity|]). split; reflexivity.
Qed.

Lemma disconnect_then_close_rearms_reconnect_witness :
  let st := (run (new_client (test_config 3)) [Connect; Open]).1 in
  reconnectTimeout (run st [Disconnect; Close]).1 = Some 1000.
Proof.
  intros st.
  assert (Hws : ws st = Some 1) by (vm_compute; reflexivity).
  destruct (disconnect_then_close_rearms_reconnect st 1 Hws) as (_ & _ & _ & H & _).
  vm_compute in H |- *. exact H.
Defined.

(** *** Validation and truncation *)

Lemma firstn_app_exact {A} n (a b : list A) :
  length a = n -> firstn n (a ++ b)%list = a.
Proof.
  intros <-. rewrite firstn_app, Nat.sub_diag, firstn_all. cbn [firstn].
  apply app_nil_r.
Qed.

(** X17.  Validation.  [validateAndRedact] rejects exactly the events with an
    empty type.  An accepted event keeps type, level, timestamp and platform;
    a message of at most 4000 UTF-16 code units is kept, a longer one becomes
    its first 4000 code units followed by the twelve code units of
    "…[truncated]"; every element of [args] and of [breadcrumbs] is passed
    through [redactObject] with the words token, secret and password.
    Validating an already validated event changes nothing. *)
Theorem validate_truncates_once :
  MESSAGE_LIMIT = 4000%nat
  /\ TRUNCATION_MARK = (8230 :: code_units "[truncated]")%N
  /\ length TRUNCATION_MARK = 12%nat
  /\ forall ev,
       (validateAndRedact ev = None <-> ev_type ev = "")
       /\ forall safe, validateAndRedact ev = Some safe ->
            ev_type safe = ev_type ev /\ ev_level safe = ev_level ev
            /\ ev_timestamp safe = ev_timestamp ev /\ ev_platform safe = ev_platform ev
            /\ ((length (ev_message ev) <= 4000)%nat -> ev_message safe = ev_message ev)
            /\ ((4000 < length (ev_message ev))%nat ->
                ev_message safe = (firstn 4000 (ev_message ev) ++ TRUNCATION_MARK)%list
                /\ length (ev_message safe) = 4012%nat)
            /\ ev_args safe = redact_all <$> ev_args ev
            /\ ev_breadcrumbs safe = redact_all <$> ev_breadcrumbs ev
            /\ validateAndRedact safe = Some safe.
Proof.
  do 3 (split; [reflexivity|]).
  intros ev. unfold validateAndRedact at 1 2.
  destruct (String.eqb (ev_type ev) "") eqn:Hty.
  { apply String.eqb_eq in Hty. split; [done|]. discriminate. }
  assert (Hne : ev_type ev <> "") by (by apply String.eqb_neq).
  split; [done|].
  intros safe Hsafe. injection Hsafe as <-.
  cbn [ev_type ev_level ev_timestamp ev_platform ev_message ev_args ev_breadcrumbs].
  do 4 (split; [reflexivity|]).
  assert (Hredact : forall xs : option (list Value),
            redact_all <$> (redact_all <$> xs) = redact_all <$> xs).
  { intros [xs|]; cbn [fmap option_fmap option_map]; [|done].
    by rewrite RedactProofs.redact_all_twice. }
  change MESSAGE_LIMIT with 4000%nat.
  destruct (4000 <? length (ev_message ev))%nat eqn:Hlong.
  - apply Nat.ltb_lt in Hlong.
    assert (Hlen : length (firstn 4000 (ev_message ev)) = 4000%nat)
      by (rewrite length_firstn; lia).
    split; [lia|]. split.
    { intros _. split; [reflexivity|].
      rewrite length_app, Hlen. reflexivity. }
    do 2 (split; [reflexivity|]).
    unfold validateAndRedact.
    cbn [ev_type ev_level ev_timestamp ev_platform ev_message ev_args ev_breadcrumbs].
    rewrite Hty, !Hredact. change MESSAGE_LIMIT with 4000%nat.
    rewrite length_app, Hlen.
    replace (4000 <? 4000 + length TRUNCATION_MARK)%nat with true by reflexivity.
    by rewrite firstn_app_exact.
  - apply Nat.ltb_ge in Hlong.
    split; [done|]. split; [lia|].
    do 2 (split; [reflexivity|]).
    unfold validateAndRedact.
    cbn [ev_type ev_level ev_timestamp ev_platform ev_message ev_args ev_breadcrumbs].
    rewrite Hty, !Hredact. change MESSAGE_LIMIT with 4000%nat.
    apply Nat.ltb_ge in Hlong. by rewrite Hlong.
Qed.

Lemma validate_truncates_once_witness :
  let ev := mkEvent "log" "info" (repeat 120%N 4001) 0 "web"
              (Some [VObj [("authToken", VStr "abc"); ("userName", VStr "ann")]]) None in
  exists safe,
    validateAndRedact ev = Some safe
    /\ ev_message safe = (repeat 120%N 4000 ++ TRUNCATION_MARK)%list
    /\ length (ev_message safe) = 4012%nat
    /\ ev_args safe
       = Some [VObj [("authToken", VStr "[redacted]"); ("userName", VStr "ann")]].
Proof.
  intros ev.
  destruct (validateAndRedact ev) as [safe|] eqn:Hsafe; [|vm_compute in Hsafe; discriminate].
  exists safe. split; [reflexivity|].
  destruct validate_truncates_once as (_ & _ & _ & H).
  destruct (proj2 (H ev) safe Hsafe) as (_ & _ & _ & _ & _ & Hlong & Hargs & _).
  destruct Hlong as [Hmsg Hlen]; [vm_compute; lia|].
  split; [rewrite Hmsg; reflexivity|]. split; [exact Hlen|].
  rewrite Hargs. reflexivity.
Defined.

(** *** Control requests *)












End ClientMore.
